(** * Timestamp reconciliation of spikegadgets_to_nwb

    A shallow embedding of [convert_position.py]: the sequence-break
    detector, the pause locator, the clock-domain aligner and the epoch
    position resolver, followed by the properties the specification states
    about them.

    Conventions of the embedding.
    - numpy arrays are lists; integer columns (trodes sample index, hardware
      frame counter, hardware timestamps in nanoseconds) are [Z], segment
      labels are [nat];
    - floating point times are given by exact rationals [Q]: the value of
      a sum, product or quotient is the exact one.  The tests of the pause
      window, which a rounding can decide, are made in double precision,
      on the float64 quotients and differences the program compares, and
      so is the pause time of the pulse train that the trimming step
      compares the times with;
    - an exception raised by the program is the [Raise] case of [result];
      [NotFinite] is not a Python exception: it marks the places where the
      program goes on with [nan] or [inf], which no rational stands for;
    - the ambient logger is an explicit list of records. *)

From Stdlib Require Import ZArith QArith Qround Lia Lqa String Ascii Sorted.
From Stdlib Require SpecFloat.
From stdpp Require Import base list.

Open Scope Z_scope.

(** ** Exceptions and the error monad *)

Inductive exn : Type :=
| IndexError
| ValueError (msg : string)
| UnboundLocalError
| KeyError
| FileNotFoundError
| TypeError
| NotFinite.

Inductive result (A : Type) : Type :=
| Ok (a : A)
| Raise (e : exn).
Arguments Ok {A} a.
Arguments Raise {A} e.

#[global] Instance result_ret : MRet result := fun _ a => Ok a.
#[global] Instance result_bind : MBind result := fun _ _ k r =>
  match r with
  | Ok a => k a
  | Raise e => Raise e
  end.

Fixpoint mapM {A B} (f : A -> result B) (l : list A) : result (list B) :=
  match l with
  | [] => Ok []
  | a :: l' => b ← f a; bs ← mapM f l'; Ok (b :: bs)
  end.

(** ** numpy primitives on one-dimensional arrays *)

(** [a[i]] for a non-negative index. *)
Definition getitem {A} (a : list A) (i : nat) : result A :=
  match a !! i with
  | Some x => Ok x
  | None => Raise IndexError
  end.

(** [np.diff]. *)
Definition np_diff (a : list Z) : list Z :=
  zip_with (fun x y => y - x) a (tail a).

Definition np_diffQ (a : list Q) : list Q :=
  zip_with (fun x y => (y - x)%Q) a (tail a).

(** [np.nonzero(mask)[0]]: the positions holding [True]. *)
Fixpoint nonzero_from (pos : nat) (mask : list bool) : list nat :=
  match mask with
  | [] => []
  | b :: mask' =>
      if b then pos :: nonzero_from (S pos) mask' else nonzero_from (S pos) mask'
  end.
Definition np_nonzero (mask : list bool) : list nat := nonzero_from 0 mask.

(** Shapes [(n,)] and [(m,)] broadcast when they agree or one of them is 1. *)
Definition shape_error : exn :=
  ValueError "operands could not be broadcast together".

Definition broadcast2 {A B C} (f : A -> B -> C) (a : list A) (b : list B)
  : result (list C) :=
  if (length a =? length b)%nat then Ok (zip_with f a b)
  else match a, b with
       | [x], _ => Ok (map (f x) b)
       | _, [y] => Ok (map (fun x => f x y) a)
       | _, _ => Raise shape_error
       end.

Definition np_logical_or := broadcast2 orb.

(** [a[mask]] with a boolean mask: the mask must have the length of [a]. *)
Fixpoint select {A} (a : list A) (mask : list bool) : list A :=
  match a, mask with
  | x :: a', b :: mask' => if b then x :: select a' mask' else select a' mask'
  | _, _ => []
  end.

Definition np_mask {A} (a : list A) (mask : list bool) : result (list A) :=
  if (length a =? length mask)%nat then Ok (select a mask)
  else Raise IndexError.

(** [np.isin(x, values)] for one element. *)
Definition isin (x : nat) (values : list nat) : bool :=
  existsb (Nat.eqb x) values.

(** [np.unique]: the sorted distinct values. *)
Fixpoint insert_unique (x : nat) (l : list nat) : list nat :=
  match l with
  | [] => [x]
  | y :: l' =>
      if (x <? y)%nat then x :: l
      else if (x =? y)%nat then l
      else y :: insert_unique x l'
  end.

Definition np_unique (a : list nat) : list nat := foldr insert_unique [] a.

(** [np.unique(a, return_counts=True)]. *)
Definition np_unique_counts (a : list nat) : list nat * list nat :=
  let ids := np_unique a in
  (ids, map (fun v => count_occ Nat.eq_dec a v) ids).

(** [scipy.ndimage.label] on a one-dimensional boolean array: every maximal
    run of [True] receives the next integer, counted from 1, scanning from
    the left; [False] positions receive 0.  [prev] tells whether the
    previous position was [True], [cur] is the last label handed out. *)
Fixpoint label_from (prev : bool) (cur : nat) (a : list bool) : list nat :=
  match a with
  | [] => []
  | true :: a' =>
      let c := if prev then cur else S cur in
      c :: label_from true c a'
  | false :: a' => 0%nat :: label_from false cur a'
  end.

Definition label (a : list bool) : list nat := label_from false 0 a.

(** ** 4.1 Sequence-break detector *)

(** [np.insert(timestamps[:-1] >= timestamps[1:], 0, False)]. *)
Definition detect_repeat_timestamps (timestamps : list Z) : list bool :=
  false :: zip_with Z.geb (removelast timestamps) (tail timestamps).

(** [np.insert(np.diff(frame_count) > min_frame_jump, 0, False)]. *)
Definition find_large_frame_jumps (frame_count : list Z) (min_frame_jump : Z)
  : list bool :=
  false :: map (fun d => min_frame_jump <? d) (np_diff frame_count).

Definition default_min_frame_jump : Z := 15.

(** The flags of line 259: repeats or large jumps. *)
Definition repeat_or_jump_flags (trodes_time frame_count : list Z)
  : result (list bool) :=
  np_logical_or (detect_repeat_timestamps trodes_time)
                (find_large_frame_jumps frame_count default_min_frame_jump).

(** Lines 261-272: a flagged position stays flagged only if the run it
    belongs to has more than two members. *)
Definition keep_long_runs (is_repeat_timestamp : list bool) : list bool :=
  let repeat_timestamp_labels := label is_repeat_timestamp in
  let '(repeat_timestamp_labels_id, repeat_timestamp_label_counts) :=
    np_unique_counts repeat_timestamp_labels in
  let is_repeat :=
    zip_with (fun id n => negb (id =? 0)%nat && (2 <? n)%nat)
             repeat_timestamp_labels_id repeat_timestamp_label_counts in
  let repeat_timestamp_labels_id := select repeat_timestamp_labels_id is_repeat in
  zip_with (fun flag lab =>
              if negb (isin lab repeat_timestamp_labels_id) then false else flag)
           is_repeat_timestamp repeat_timestamp_labels.

(** Lines 274-278. *)
Definition label_segments (is_repeat_timestamp : list bool)
  : list nat * list nat :=
  let non_repeat_timestamp_labels := label (map negb is_repeat_timestamp) in
  let non_repeat_timestamp_labels_id := np_unique non_repeat_timestamp_labels in
  (non_repeat_timestamp_labels,
   List.filter (fun id => negb (id =? 0)%nat) non_repeat_timestamp_labels_id).

Definition detect_trodes_time_repeats_or_frame_jumps
  (trodes_time frame_count : list Z) : result (list nat * list nat) :=
  is_repeat_timestamp ← repeat_or_jump_flags trodes_time frame_count;
  Ok (label_segments (keep_long_runs is_repeat_timestamp)).

(** ** Rational helpers *)

Open Scope Q_scope.

Definition NANOSECONDS_PER_SECOND : Q := 1000000000.

Definition Qltb (x y : Q) : bool := negb (Qle_bool y x).

(** [x // y] on floats: the floor of the quotient, as a float. *)
Definition floor_divide (x y : Q) : Q := inject_Z (Qfloor (x / y)).

(** [np.sort]. *)
Fixpoint insert_sorted (x : Q) (l : list Q) : list Q :=
  match l with
  | [] => [x]
  | y :: l' => if Qle_bool x y then x :: l else y :: insert_sorted x l'
  end.

Definition np_sort (a : list Q) : list Q := foldr insert_sorted [] a.

Definition np_mean (a : list Q) : Q :=
  foldr Qplus 0 a / inject_Z (Z.of_nat (length a)).

(** [a[:n]] for a Python integer [n]: a negative [n] counts from the end. *)
Definition slice_to {A} (n : Z) (a : list A) : list A :=
  if (n <? 0)%Z then take (length a - Z.to_nat (- n)) a
  else take (Z.to_nat n) a.

(** [np.median]: [nan] on an empty array. *)
Definition np_median (a : list Q) : result Q :=
  let sorted := np_sort a in
  let n := length a in
  if (n =? 0)%nat then Raise NotFinite
  else if Nat.odd n then getitem sorted (n / 2)
  else lo ← getitem sorted (n / 2 - 1);
       hi ← getitem sorted (n / 2);
       Ok ((lo + hi) / 2).

(** Frame rate in frames per second from nanosecond timestamps. *)
Definition get_framerate (timestamps : list Q) : result Q :=
  m ← np_median (np_diffQ timestamps);
  if Qeq_bool m 0 then Raise NotFinite else Ok (NANOSECONDS_PER_SECOND / m).

(** ** Double precision

    numpy's [float64] is IEEE 754 binary64.  Its values and operations are
    those of the Standard Library's specification [SpecFloat] at precision
    53 and maximal exponent 1024, rounding to nearest, ties to even. *)

Definition float64 : Type := SpecFloat.spec_float.

(** The float64 nearest to a rational: what Python makes of a decimal
    literal and numpy of an integer entry that it converts; a float64
    value is left as it is.  The quotient of numerator and denominator is
    rounded once. *)
Definition float64_of_Q (q : Q) : float64 :=
  let rounded (negative : bool) (n : positive) :=
    let '(m, e, l) :=
      SpecFloat.SFdiv_core_binary 53 1024 (Zpos n) 0 (Zpos (Qden q)) 0 in
    SpecFloat.binary_round_aux 53 1024 negative m e l in
  match Qnum q with
  | Z0 => SpecFloat.S754_zero false
  | Zpos n => rounded false n
  | Zneg n => rounded true n
  end.

(** The rational a float64 stands for; none for [inf] and [nan]. *)
Definition Q_of_float64 (x : float64) : result Q :=
  match x with
  | SpecFloat.S754_zero _ => Ok 0
  | SpecFloat.S754_finite negative m e =>
      let magnitude :=
        if (0 <=? e)%Z then inject_Z (Zpos m * 2 ^ e)
        else Zpos m # (2 ^ Z.to_pos (- e)) in
      Ok (if negative then - magnitude else magnitude)
  | SpecFloat.S754_infinity _ | SpecFloat.S754_nan => Raise NotFinite
  end.

Definition float64_add : float64 -> float64 -> float64 := SpecFloat.SFadd 53 1024.
Definition float64_sub : float64 -> float64 -> float64 := SpecFloat.SFsub 53 1024.
Definition float64_div : float64 -> float64 -> float64 := SpecFloat.SFdiv 53 1024.
Definition float64_lt : float64 -> float64 -> bool := SpecFloat.SFltb.

(** [t / NANOSECONDS_PER_SECOND] for an entry [t] of an integer or float64
    array: the entry as a float64, divided by [1e9] in float64. *)
Definition seconds64 (t : Q) : float64 :=
  float64_div (float64_of_Q t) (float64_of_Q NANOSECONDS_PER_SECOND).

(** [np.diff] of a float64 array. *)
Definition np_diff64 (a : list float64) : list float64 :=
  zip_with (fun x y => float64_sub y x) a (tail a).

(** ** 4.2 Pause locator *)

(** [(d > min_duration) & (d < max_duration)] for a float64 difference [d]
    and bounds that are Python floats. *)
Definition is_valid_gap (min_duration max_duration : Q) (d : float64) : bool :=
  float64_lt (float64_of_Q min_duration) d
  && float64_lt d (float64_of_Q max_duration).

(** The type of the entries of the array [timestamps]. *)
Inductive np_dtype : Type := np_int64 | np_float64.

(** Lines 172-175, [t_start + (t_end - t_start) // 2]: integer arithmetic
    on an integer array; on a float64 array the difference and the sum are
    rounded, and [d // 2] is the floor of the half of [d], which a float64
    holds exactly. *)
Definition pause_mid_time_of (dtype : np_dtype) (t_start t_end : Q)
  : result Q :=
  match dtype with
  | np_int64 => Ok (t_start + floor_divide (t_end - t_start) 2)
  | np_float64 =>
      let a := float64_of_Q t_start in
      let b := float64_of_Q t_end in
      d ← Q_of_float64 (float64_sub b a);
      Q_of_float64 (float64_add a (float64_of_Q (floor_divide d 2)))
  end.

(** [timestamps] holds the values of the entries; an entry of a float64
    array stands for the float64 nearest to it, so that the exact product
    of a float64 and [1e9] stands for their float64 product. *)
Definition find_acquisition_timing_pause
  (dtype : np_dtype) (timestamps : list Q) (min_duration max_duration : Q)
  (n_search : Z) : result Q :=
  let timestamp_difference :=
    np_diff64 (map seconds64 (slice_to n_search timestamps)) in
  let is_valid_gap := map (is_valid_gap min_duration max_duration)
                          timestamp_difference in
  pause_start_ind ← getitem (np_nonzero is_valid_gap) 0;
  let pause_end_ind := (pause_start_ind + 1)%nat in
  t_start ← getitem timestamps pause_start_ind;
  t_end ← getitem timestamps pause_end_ind;
  pause_mid_time_of dtype t_start t_end.

Definition default_min_duration : Q := 0.4.
Definition default_max_duration : Q := 1.0.
Definition default_n_search : Z := 100.

(** ** 4.3 Clock-domain aligner *)

Definition estimate_camera_to_mcu_lag
  (camera_systime dio_systime : list Q) (n_breaks : nat) : result Q :=
  if (n_breaks =? 0)%nat then
    let dio_systime := take (length camera_systime) dio_systime in
    difference ← broadcast2 Qminus camera_systime dio_systime;
    np_median difference
  else
    c0 ← getitem camera_systime 0;
    d0 ← getitem dio_systime 0;
    Ok (c0 - d0).

(** [is_valid_camera_time[is_valid_camera_time] = keep]: the [True]
    positions are overwritten, in order, by the entries of [keep]. *)
Fixpoint assign_where_true (mask keep : list bool) : list bool :=
  match mask with
  | [] => []
  | true :: mask' =>
      match keep with
      | k :: keep' => k :: assign_where_true mask' keep'
      | [] => true :: assign_where_true mask' []
      end
  | false :: mask' => false :: assign_where_true mask' keep
  end.

Definition remove_acquisition_timing_pause_non_ptp
  (dio_systime : list Q) (frame_count : list Z) (camera_systime : list Q)
  (is_valid_camera_time : list bool) (pause_mid_time : Q)
  : result (list Q * list Z * list bool * list Q) :=
  let after_pause := map (Qltb pause_mid_time) camera_systime in
  let dio_systime := List.filter (Qltb pause_mid_time) dio_systime in
  valid_frame_count ← np_mask frame_count is_valid_camera_time;
  frame_count ← np_mask valid_frame_count after_pause;
  is_valid_camera_time ←
    (if (length (List.filter id is_valid_camera_time) =? length after_pause)%nat
     then Ok (assign_where_true is_valid_camera_time after_pause)
     else Raise shape_error);
  let camera_systime := List.filter (Qltb pause_mid_time) camera_systime in
  Ok (dio_systime, frame_count, is_valid_camera_time, camera_systime).

(** [scipy.stats.linregress]: slope and intercept of the least-squares
    line; one sample alone gives the slope [0/0]. *)
Definition linregress (x y : list Q) : result (Q * Q) :=
  if ((length x =? 0) || (length y =? 0))%nat then
    Raise (ValueError "Inputs must not be empty.")
  else if (1 <? length x)%nat
          && forallb (fun v => Qeq_bool v (hd 0 x)) x then
    Raise (ValueError
      "Cannot calculate a linear regression if all x values are identical")
  else if negb (length x =? length y)%nat then
    Raise (ValueError "all the input array dimensions must match")
  else if (length x =? 1)%nat then Raise NotFinite
  else
    let xmean := np_mean x in
    let ymean := np_mean y in
    let ssxm := np_mean (map (fun a => (a - xmean) * (a - xmean)) x) in
    let ssxym := np_mean (zip_with (fun a b => (a - xmean) * (b - ymean)) x y) in
    let slope := ssxym / ssxm in
    Ok (slope, ymean - slope * xmean).

Definition correct_timestamps_for_camera_to_mcu_lag
  (frame_count : list Z) (camera_systime : list Q) (camera_to_mcu_lag : Q)
  : result (list Q) :=
  let x := map inject_Z frame_count in
  '(slope, intercept) ←
    linregress x (map (fun t => t - camera_to_mcu_lag) camera_systime);
  Ok (map (fun c => intercept + c * slope) x).

(** ** Integer helpers of the resolver *)

Open Scope Z_scope.

(** [astype(np.int32)] and every store into an [int32] array. *)
Definition to_int32 (z : Z) : Z := (z + 2 ^ 31) mod 2 ^ 32 - 2 ^ 31.

(** [np.iinfo(np.uint16).max]. *)
Definition uint16_max : Z := 65535.

Fixpoint cumsum_from (acc : Z) (a : list Z) : list Z :=
  match a with
  | [] => []
  | x :: a' => (acc + x) :: cumsum_from (acc + x) a'
  end.
Definition np_cumsum (a : list Z) : list Z := cumsum_from 0 a.

(** [np.unwrap(p, period=period)] on an integer array, with numpy's default
    [discont = period / 2]. *)
Definition np_unwrap (p : list Z) (period : Z) : list Z :=
  let dd := np_diff p in
  let interval_high := period / 2 in
  let boundary_ambiguous := (period mod 2 =? 0) in
  let interval_low := - interval_high in
  let ddmod :=
    map (fun d =>
           let m := (d - interval_low) mod period + interval_low in
           if boundary_ambiguous && (m =? interval_low) && (0 <? d)
           then interval_high else m) dd in
  let ph_correct :=
    zip_with (fun m d => if 2 * Z.abs d <? period then 0 else m - d) ddmod dd in
  match p with
  | [] => []
  | p0 :: rest => p0 :: map to_int32 (zip_with Z.add rest (np_cumsum ph_correct))
  end.

(** Lines 449-453. *)
Definition unwrap_frame_count (frameCount : list Z) : list Z :=
  np_unwrap (map to_int32 frameCount) uint16_max.

Fixpoint nondecreasing (a : list Z) : bool :=
  match a with
  | x :: (y :: _) as a' => (x <=? y) && nondecreasing a'
  | _ => true
  end.

(** [np.digitize(x, bins)]: the number of bins at or below [x] when [bins]
    increases; counted from the far end when [bins] decreases. *)
Definition np_digitize (x : Z) (bins : list Z) : result nat :=
  if nondecreasing bins then
    Ok (length (List.filter (fun b => b <=? x) bins))
  else if nondecreasing (rev bins) then
    Ok (length (List.filter (fun b => x <? b) bins))
  else Raise (ValueError "bins must be monotonically increasing or decreasing").

Definition isinZ (x : Z) (values : list Z) : bool := existsb (Z.eqb x) values.

(** ** Tables *)

(** One record of the [.cameraHWSync] file. *)
Record hw_sync_record := {
  PosTimestamp : Z;
  frameCount : Z;
  HWTimestamp_raw : Z
}.

(** The [.videoPositionTracking] file: named columns next to [time]. *)
Record tracking_file := {
  tracking_columns : list string;
  tracking_rows : list (Z * list Z)
}.

(** A row of [video_timestamps]; a missing tracked value ([NaN]) is [None]. *)
Record video_row := {
  HWframeCount : Z;
  HWTimestamp : Z;
  video_frame_ind : nat;
  non_repeat_timestamp_labels : nat;
  tracked : list (option Z)
}.

(** A row of the frame returned on the precision-clock path, where the two
    hardware columns have been dropped. *)
Record ptp_row := {
  ptp_video_frame_ind : nat;
  ptp_non_repeat_timestamp_labels : nat;
  ptp_tracked : list (option Z)
}.

(** The frame returned by [get_position_timestamps]; [columns] names the
    tracked columns, which follow the fixed ones. *)
Inductive position_df : Type :=
| PtpFrame (columns : list string) (rows : list (Q * ptp_row))
| NonPtpFrame (columns : list string) (rows : list (Q * video_row)).

Definition position_index (df : position_df) : list Q :=
  match df with
  | PtpFrame _ rows => map fst rows
  | NonPtpFrame _ rows => map fst rows
  end.

Definition with_tracked (r : video_row) (t : list (option Z)) : video_row :=
  {| HWframeCount := HWframeCount r; HWTimestamp := HWTimestamp r;
     video_frame_ind := video_frame_ind r;
     non_repeat_timestamp_labels := non_repeat_timestamp_labels r;
     tracked := t |}.

(** [Index.is_unique] and [Index.is_monotonic_increasing]. *)
Fixpoint is_unique (idx : list Z) : bool :=
  match idx with
  | [] => true
  | k :: idx' => negb (existsb (Z.eqb k) idx') && is_unique idx'
  end.

Definition is_monotonic_increasing (idx : list Z) : bool := nondecreasing idx.

(** The rows in increasing order of the index, rows of one index value in
    the order they had. *)
Fixpoint insert_by_index {R} (x : Z * R) (df : list (Z * R)) : list (Z * R) :=
  match df with
  | [] => [x]
  | y :: df' =>
      if (fst x <=? fst y)%Z then x :: df else y :: insert_by_index x df'
  end.

Definition sort_by_index {R} (df : list (Z * R)) : list (Z * R) :=
  foldr insert_by_index [] df.

(** The rows of a left join on the index, in the order of the left table:
    every left row once per right row with its index value, in the order
    of the right table, and once with missing values when there is
    none. *)
Definition join_rows (left : list (Z * video_row)) (right : tracking_file)
  : list (Z * video_row) :=
  flat_map
    (fun '(k, r) =>
       match List.filter (fun tr => fst tr =? k) (tracking_rows right) with
       | [] => [(k, with_tracked r
                      (map (fun _ => None) (tracking_columns right)))]
       | hits => map (fun tr => (k, with_tracked r (map Some (snd tr)))) hits
       end)
    left.

(** [pd.merge(left, right, left_index=True, right_index=True, how="left")].
    The order is that of [Index.join] of the pandas releases before 2.2:
    with a duplicate in both indexes, or in one of them unless both
    indexes are monotonic, the join goes through [_join_non_unique], which
    returns the rows sorted by index; in the other cases, and when the
    right table is empty, the rows keep the order of the left table. *)
Definition merge_left (left : list (Z * video_row)) (right : tracking_file)
  : list (Z * video_row) :=
  let joined := join_rows left right in
  let left_index := map fst left in
  let right_index := map fst (tracking_rows right) in
  match right_index with
  | [] => joined
  | _ =>
      if negb (is_unique left_index) && negb (is_unique right_index)
      then sort_by_index joined
      else if negb (is_unique left_index) || negb (is_unique right_index)
      then
        if is_monotonic_increasing left_index
           && is_monotonic_increasing right_index
        then joined
        else sort_by_index joined
      else joined
  end.

(** [df.groupby(df.index).first()]: one row per distinct index value, in
    increasing order of the index; every column holds its first value in
    the group that is not missing. *)
Fixpoint insert_key (x : Q) (keys : list Q) : list Q :=
  match keys with
  | [] => [x]
  | y :: keys' =>
      if Qltb x y then x :: keys
      else if Qeq_bool x y then x :: keys'
      else y :: insert_key x keys'
  end.

Definition group_keys (idx : list Q) : list Q := foldr insert_key [] idx.

Definition group_rows {R} (k : Q) (df : list (Q * R)) : list R :=
  map snd (List.filter (fun kr => Qeq_bool (fst kr) k) df).

Definition first_valid {A} (column : list (option A)) : option A :=
  head (omap id column).

Definition first_row (group : list video_row) : option video_row :=
  match group with
  | [] => None
  | r :: _ =>
      Some (with_tracked r
              (map (fun j => first_valid (map (fun g => tracked g !! j ≫= id) group))
                   (seq 0 (length (tracked r)))))
  end.

Definition groupby_first (df : list (Q * video_row)) : list (Q * video_row) :=
  omap (fun k => r ← first_row (group_rows k df); Some (k, r))
       (group_keys (map fst df)).

(** ** The logger *)

Inductive log_level : Type := INFO | WARNING | ERROR.

Inductive log_message : Type :=
| RepeatTimestampsInd (positions : list nat)
| BigFrameJumps (positions : list nat)
| NonRepeatTimestampLabels (ids : list nat)
| EstimatedLag (seconds : Q)
| FrameRateFromMcu (rate : result Q)
| FrameRateFromDio (rate : result Q)
| FrameRateFromCameraSystime (rate : result Q)
| EpochStarted (epoch : Z)
| PositionTimestampsFilepath (path : string)
| PositionTrackingFilepath (path : option string).

Definition log_record : Type := log_level * log_message.

(** A computation that appends to the log and may raise; the records
    written before an exception stay in the log. *)
Inductive logged (A : Type) : Type :=
| Logged (records : list log_record) (outcome : result A).
Arguments Logged {A} records outcome.

Definition records {A} (m : logged A) : list log_record :=
  match m with Logged l _ => l end.
Definition outcome {A} (m : logged A) : result A :=
  match m with Logged _ r => r end.

#[global] Instance logged_ret : MRet logged := fun _ a => Logged [] (Ok a).
#[global] Instance logged_bind : MBind logged := fun _ _ k m =>
  match m with
  | Logged l (Ok a) => match k a with Logged l' r => Logged (l ++ l') r end
  | Logged l (Raise e) => Logged l (Raise e)
  end.

Definition lift {A} (r : result A) : logged A := Logged [] r.
Definition logger_info (msg : log_message) : logged unit :=
  Logged [(INFO, msg)] (Ok tt).

(** ** 4.4 Epoch position resolver: [get_position_timestamps] *)

(** Lines 443-468: unwrap the frame counter, number the frames, label the
    segments and keep the rows of a surviving segment.  A file without a
    frame still gets one label (the detectors return one flag for no
    sample): pandas then gives the empty table one row, whose frame count,
    hardware time and frame index are [nan], and the program goes on with
    it. *)
Definition load_video_timestamps (data : list hw_sync_record)
  : logged (list (Z * video_row) * list nat) :=
  let frame_counts := unwrap_frame_count (map frameCount data) in
  let trodes_time := map PosTimestamp data in
  _ ← logger_info (RepeatTimestampsInd
                      (np_nonzero (detect_repeat_timestamps trodes_time)));
  _ ← logger_info (BigFrameJumps
                      (np_nonzero (find_large_frame_jumps frame_counts
                                     default_min_frame_jump)));
  '(labels, labels_id) ←
    lift (detect_trodes_time_repeats_or_frame_jumps trodes_time frame_counts);
  _ ← logger_info (NonRepeatTimestampLabels labels_id);
  if negb (length labels =? length data)%nat
  then lift (Raise NotFinite)
  else
    let rows :=
      zip_with (fun '(d, fc) '(ind, lab) =>
                  (PosTimestamp d,
                   {| HWframeCount := fc; HWTimestamp := HWTimestamp_raw d;
                      video_frame_ind := ind;
                      non_repeat_timestamp_labels := lab;
                      tracked := [] |}))
               (zip data frame_counts)
               (zip (seq 0 (length data)) labels) in
    mret (List.filter (fun kr => (0 <? non_repeat_timestamp_labels (snd kr))%nat)
                      rows,
          labels_id).

(** Lines 470-491: join the tracked positions, when the tracking file could
    be read ([None] stands for the caught [FileNotFoundError] or
    [TypeError]). *)
Definition merge_position_tracking
  (video_timestamps : list (Z * video_row))
  (position_tracking : option tracking_file)
  : result (list string * list (Z * video_row)) :=
  match position_tracking with
  | None => Ok ([], video_timestamps)
  | Some file =>
      let is_repeat_timestamp :=
        detect_repeat_timestamps (map fst (tracking_rows file)) in
      kept ← np_mask (tracking_rows file) (map negb is_repeat_timestamp);
      Ok (tracking_columns file,
          merge_left video_timestamps
            {| tracking_columns := tracking_columns file;
               tracking_rows := kept |})
  end.

Definition drop_hw_columns (r : video_row) : ptp_row :=
  {| ptp_video_frame_ind := video_frame_ind r;
     ptp_non_repeat_timestamp_labels := non_repeat_timestamp_labels r;
     ptp_tracked := tracked r |}.


Open Scope Q_scope.

(** Lines 502-510: the position after the first gap of the first 100
    samples that lasts more than 0.4 s and less than 2.0 s.  The index
    that is searched holds the float64 quotients of the hardware
    timestamps by [1e9]. *)
Definition ptp_pause_mid_ind (ptp_systime : list Q) : result nat :=
  let d := np_diff64 (take 100 (map seconds64 ptp_systime)) in
  pause_start ← getitem (np_nonzero (map (is_valid_gap 0.4 2.0) d)) 0;
  Ok (pause_start + 1)%nat.

(** Lines 493-516: the precision-clock path.  The table keeps the exact
    quotient as the value of a time; the pause is searched on the float64
    quotients. *)
Definition get_position_timestamps_ptp
  (columns : list string) (video_timestamps : list (Z * video_row))
  : logged position_df :=
  let ptp_systime := map (fun kr => inject_Z (HWTimestamp (snd kr)))
                         video_timestamps in
  let ptp_timestamps := map (fun t => t / NANOSECONDS_PER_SECOND) ptp_systime in
  let video_timestamps :=
    zip ptp_timestamps (map (fun kr => drop_hw_columns (snd kr)) video_timestamps) in
  pause_mid_ind ← lift (ptp_pause_mid_ind ptp_systime);
  let video_timestamps := drop pause_mid_ind video_timestamps in
  _ ← logger_info
        (FrameRateFromMcu
           (m ← np_median (np_diffQ (map fst video_timestamps));
            if Qeq_bool m 0 then Raise NotFinite else Ok (1 / m)));
  mret (PtpFrame columns video_timestamps).

(** Lines 518-533: the pause in the pulse train, or the sentinel [-1] when
    the locator raises [IndexError]; nothing is logged in the handler.  The
    pulse times are a float64 array: the locator is given their products
    by [1e9] and its result is divided by [1e9] in float64. *)
Definition non_ptp_pause_mid_time (dio_camera_timestamps : list Q) : logged Q :=
  match find_acquisition_timing_pause np_float64
          (map (fun t => t * NANOSECONDS_PER_SECOND) dio_camera_timestamps)
          default_min_duration default_max_duration default_n_search with
  | Ok pause =>
      pause_mid_time ← lift (Q_of_float64 (seconds64 pause));
      _ ← logger_info
            (FrameRateFromDio
               (get_framerate
                  (List.filter (Qltb pause_mid_time) dio_camera_timestamps)));
      mret pause_mid_time
  | Raise IndexError => mret (-1)
  | Raise e => lift (Raise e)
  end.

(** Lines 535-541: the frames whose trodes index is a recorded sample and
    their time on the recorder clock. *)
Definition camera_systime_of
  (video_timestamps : list (Z * video_row))
  (rec_dci_timestamps : list Q) (sample_count : list Z)
  : result (list bool * list Q) :=
  let is_valid_camera_time :=
    map (fun kr => isinZ (fst kr) sample_count) video_timestamps in
  camera_systime ←
    mapM (fun k => i ← np_digitize k sample_count; getitem rec_dci_timestamps i)
         (select (map fst video_timestamps) is_valid_camera_time);
  Ok (is_valid_camera_time, camera_systime).

(** [np.concatenate] of a Python list of arrays. *)
Definition np_concatenate {A} (arrays : list (list A)) : result (list A) :=
  match arrays with
  | [] => Raise (ValueError "need at least one array to concatenate")
  | _ => Ok (concat arrays)
  end.

(** [df.set_index(pd.Index(values))]. *)
Definition set_index {K K' R} (df : list (K * R)) (values : list K')
  : result (list (K' * R)) :=
  if (length df =? length values)%nat then Ok (zip values (map snd df))
  else Raise (ValueError "Length mismatch").

(** Lines 563-573: the regression of every surviving segment. *)
Definition correct_segments
  (video_timestamps : list (Z * video_row))
  (frame_count : list Z) (camera_systime : list Q) (camera_to_mcu_lag : Q)
  (non_repeat_timestamp_labels_id : list nat) : result (list (list Q)) :=
  mapM (fun id =>
          let is_chunk :=
            map (fun kr => (non_repeat_timestamp_labels (snd kr) =? id)%nat)
                video_timestamps in
          chunk_frame_count ← np_mask frame_count is_chunk;
          chunk_camera_systime ← np_mask camera_systime is_chunk;
          correct_timestamps_for_camera_to_mcu_lag
            chunk_frame_count chunk_camera_systime camera_to_mcu_lag)
       non_repeat_timestamp_labels_id.

(** Lines 573-580. *)
Definition reindex_and_collapse
  (video_timestamps : list (Z * video_row)) (corrected : list (list Q))
  : result (list (Q * video_row)) :=
  corrected_camera_systime ← np_concatenate corrected;
  video_timestamps ← set_index video_timestamps corrected_camera_systime;
  Ok (groupby_first video_timestamps).

(** Lines 517-580: the fallback path. *)
Definition get_position_timestamps_non_ptp
  (columns : list string) (video_timestamps : list (Z * video_row))
  (non_repeat_timestamp_labels_id : list nat)
  (rec_dci_timestamps dio_camera_timestamps : list Q) (sample_count : list Z)
  : logged position_df :=
  pause_mid_time ← non_ptp_pause_mid_time dio_camera_timestamps;
  let frame_count := map (fun kr => HWframeCount (snd kr)) video_timestamps in
  '(is_valid_camera_time, camera_systime) ←
    lift (camera_systime_of video_timestamps rec_dci_timestamps sample_count);
  '(dio_camera_timestamps, frame_count, is_valid_camera_time, camera_systime) ←
    lift (remove_acquisition_timing_pause_non_ptp
            dio_camera_timestamps frame_count camera_systime
            is_valid_camera_time pause_mid_time);
  video_timestamps ← lift (np_mask video_timestamps is_valid_camera_time);
  _ ← logger_info (FrameRateFromCameraSystime (get_framerate camera_systime));
  camera_to_mcu_lag ←
    lift (estimate_camera_to_mcu_lag camera_systime dio_camera_timestamps
            (length non_repeat_timestamp_labels_id));
  _ ← logger_info (EstimatedLag (camera_to_mcu_lag / NANOSECONDS_PER_SECOND));
  corrected ←
    lift (correct_segments video_timestamps frame_count camera_systime
            camera_to_mcu_lag non_repeat_timestamp_labels_id);
  frame ← lift (reindex_and_collapse video_timestamps corrected);
  mret (NonPtpFrame columns frame).

Definition get_position_timestamps
  (position_timestamps : list hw_sync_record)
  (position_tracking : option tracking_file)
  (rec_dci_timestamps dio_camera_timestamps : list Q) (sample_count : list Z)
  (ptp_enabled : bool) : logged position_df :=
  '(video_timestamps, non_repeat_timestamp_labels_id) ←
    load_video_timestamps position_timestamps;
  '(columns, video_timestamps) ←
    lift (merge_position_tracking video_timestamps position_tracking);
  if ptp_enabled then get_position_timestamps_ptp columns video_timestamps
  else get_position_timestamps_non_ptp columns video_timestamps
         non_repeat_timestamp_labels_id
         rec_dci_timestamps dio_camera_timestamps sample_count.

(** ** The camera pulse channel *)

Open Scope string_scope.

Fixpoint contains (needle hay : string) : bool :=
  String.prefix needle hay
  || match hay with
     | EmptyString => false
     | String _ hay' => contains needle hay'
     end.

Definition camera_marker : string := "camera ticks".

Definition multiple_channels : exn :=
  ValueError "Multiple camera dio channels found by name. Not implemented for multiple cameras without PTP yet.".
Definition no_channel : exn :=
  ValueError "No camera dio channel found by name. Check metadata YAML. Name must contain 'camera ticks'".
Definition insufficient_ticks : exn :=
  ValueError "No camera dio has sufficient ticks for this epoch".

(** [time_series[name]] in a dictionary kept in insertion order. *)
Fixpoint dict_get {V} (d : list (string * V)) (name : string) : result V :=
  match d with
  | [] => Raise KeyError
  | (k, v) :: d' => if String.eqb k name then Ok v else dict_get d' name
  end.

Definition camera_channel_names {V} (time_series : list (string * V))
  : list string :=
  List.filter (contains camera_marker) (map fst time_series).

Definition find_camera_dio_channel (time_series : list (string * list Q))
  : result (list Q) :=
  let dio_camera_name := camera_channel_names time_series in
  if (1 <? length dio_camera_name)%nat then Raise multiple_channels
  else if (length dio_camera_name =? 0)%nat then Raise no_channel
  else name ← getitem dio_camera_name 0; dict_get time_series name.

Definition in_epoch (epoch_start epoch_end t : Q) : bool :=
  Qle_bool epoch_start t && Qle_bool t epoch_end.

Fixpoint first_channel_with_ticks
  (time_series : list (string * list Q)) (epoch_start epoch_end : Q)
  (dio_camera_list : list string) : result (list Q) :=
  match dio_camera_list with
  | [] => Raise insufficient_ticks
  | camera :: rest =>
      dio_camera_timestamps ← dict_get time_series camera;
      let epoch_ind := map (in_epoch epoch_start epoch_end) dio_camera_timestamps in
      if (100 <? length (List.filter id epoch_ind))%nat
      then Ok (select dio_camera_timestamps epoch_ind)
      else first_channel_with_ticks time_series epoch_start epoch_end rest
  end.

Definition find_camera_dio_channel_per_epoch
  (time_series : list (string * list Q)) (epoch_start epoch_end : Q)
  : result (list Q) :=
  let dio_camera_list := camera_channel_names time_series in
  match dio_camera_list with
  | [] => Raise no_channel
  | _ => first_channel_with_ticks time_series epoch_start epoch_end dio_camera_list
  end.

(** ** [add_position] *)

(** [s.split(sep)]. *)
Fixpoint split_on (sep : ascii) (s : string) : list string :=
  match s with
  | EmptyString => [EmptyString]
  | String c s' =>
      if Ascii.eqb c sep then EmptyString :: split_on sep s'
      else match split_on sep s' with
           | [] => [String c EmptyString]
           | w :: ws => String c w :: ws
           end
  end.

(** [a[-k]] for [k >= 1]. *)
Definition getitem_from_end {A} (a : list A) (k : nat) : result A :=
  if (length a <? k)%nat then Raise IndexError else getitem a (length a - k).

(** One row of [session_df]. *)
Record file_info := {
  epoch : Z;
  file_extension : string;
  full_path : string
}.

(** The files [read_trodes_datafile] can open. *)
Record file_system := {
  hw_sync_files : list (string * list hw_sync_record);
  tracking_files : list (string * tracking_file)
}.

Record camera := { cam_id : Z; meters_per_pixel : Q }.
Record task := { camera_id : list Z; task_epochs : list Z }.
Record metadata := { cameras : list camera; tasks : list task }.

(** What [add_position] reads of the NWB file. *)
Record nwb_input := {
  time_series : list (string * list Q);
  epochs : list (Q * Q)
}.

Inductive series_name : Type :=
| led_series (led_number : nat) (epoch : Z)
| series (epoch : Z).

Record spatial_series := {
  name : series_name;
  data : list (list (option Z));
  conversion : Q;
  timestamps : list Q
}.

Record time_series_nat := {
  ts_name : series_name;
  ts_data : list nat;
  ts_timestamps : list Q
}.

(** What [add_position] adds to the NWB file. *)
Record nwb_output := {
  position : list spatial_series;
  position_frame_index : list time_series_nat;
  non_repeat_timestamp_labels_module : list time_series_nat
}.

Definition LED_POS_NAMES : list (list string) :=
  [["xloc"; "yloc"]; ["xloc2"; "yloc2"]].

Definition files_of (session_df : list file_info) (e : Z) (extension : string)
  : list string :=
  map full_path
      (List.filter (fun f => (epoch f =? e)%Z
                             && String.eqb (file_extension f) extension)
                   session_df).

(** Lines 705-724, the body of the [try]: the tracking file of the epoch
    and the hardware timestamps file with the same video index. *)
Definition locate_epoch_files (session_df : list file_info) (e : Z)
  : result (string * string) :=
  position_tracking_filepath ←
    getitem (files_of session_df e ".videoPositionTracking") 0;
  video_index ←
    getitem_from_end (split_on "."%char position_tracking_filepath) 2;
  let video_hw_df := files_of session_df e ".cameraHWSync" in
  same_index ←
    mapM (fun path =>
            part ← getitem_from_end (split_on "."%char path) 3;
            Ok (String.eqb part video_index))
         video_hw_df;
  position_timestamps_filepath ← getitem (select video_hw_df same_index) 0;
  Ok (position_tracking_filepath, position_timestamps_filepath).

(** [session_df.epoch.unique()]: in order of first appearance. *)
Fixpoint unique_in_order (seen : list Z) (l : list Z) : list Z :=
  match l with
  | [] => []
  | x :: l' =>
      if existsb (Z.eqb x) seen then unique_in_order seen l'
      else x :: unique_in_order (x :: seen) l'
  end.

(** [get_position_timestamps] called on paths: the timestamps file is
    opened outside any handler, the tracking file inside the [try] that
    swallows [FileNotFoundError] and [TypeError]. *)
Definition get_position_timestamps_of_files
  (fs : file_system) (position_timestamps_filepath : string)
  (position_tracking_filepath : option string)
  (rec_dci_timestamps dio_camera_timestamps : list Q) (sample_count : list Z)
  (ptp_enabled : bool) : logged position_df :=
  match dict_get (hw_sync_files fs) position_timestamps_filepath with
  | Ok position_timestamps =>
      let position_tracking :=
        match position_tracking_filepath with
        | None => None
        | Some path =>
            match dict_get (tracking_files fs) path with
            | Ok file => Some file
            | Raise _ => None
            end
        end in
      get_position_timestamps position_timestamps position_tracking
        rec_dci_timestamps dio_camera_timestamps sample_count ptp_enabled
  | Raise _ => lift (Raise FileNotFoundError)
  end.

Definition df_columns (df : position_df) : list string :=
  match df with PtpFrame c _ | NonPtpFrame c _ => c end.

Definition df_tracked (df : position_df) : list (list (option Z)) :=
  match df with
  | PtpFrame _ rows => map (fun kr => ptp_tracked (snd kr)) rows
  | NonPtpFrame _ rows => map (fun kr => tracked (snd kr)) rows
  end.

Definition df_video_frame_ind (df : position_df) : list nat :=
  match df with
  | PtpFrame _ rows => map (fun kr => ptp_video_frame_ind (snd kr)) rows
  | NonPtpFrame _ rows => map (fun kr => video_frame_ind (snd kr)) rows
  end.

Definition df_labels (df : position_df) : list nat :=
  match df with
  | PtpFrame _ rows => map (fun kr => ptp_non_repeat_timestamp_labels (snd kr)) rows
  | NonPtpFrame _ rows => map (fun kr => non_repeat_timestamp_labels (snd kr)) rows
  end.

Fixpoint position_of (key : string) (columns : list string) : option nat :=
  match columns with
  | [] => None
  | c :: columns' =>
      if String.eqb c key then Some 0%nat else S <$> position_of key columns'
  end.

(** [position_df[key_set]]. *)
Definition df_select (df : position_df) (key_set : list string)
  : list (list (option Z)) :=
  let positions : list nat :=
    omap (fun key => position_of key (df_columns df)) key_set in
  map (fun row : list (option Z) =>
         map (fun j : nat => mjoin (row !! j)) positions)
      (df_tracked df).

(** Lines 673-686 and 753-754: the scale of the first camera of the task
    the epoch belongs to.  [epoch_to_camera_ids] has one row per task and
    entry of its [task_epochs]; [.loc[epoch].camera_id[0]] is the first
    camera id of the task when exactly one row carries the epoch.  With
    several rows it is a lookup of the label 0 in a column indexed by the
    epoch: a [KeyError], unless the epoch is 0, where the rows themselves
    are handed to the dictionary, which cannot hash them.  In the
    dictionary built from the camera list a later entry replaces an
    earlier one with the same id. *)
Definition meters_per_pixel_of (md : metadata) (e : Z) : result Q :=
  match flat_map (fun t => map (fun _ => t)
                               (List.filter (Z.eqb e) (task_epochs t)))
                 (tasks md) with
  | [] => Raise KeyError
  | [t] =>
      cam ← getitem (camera_id t) 0;
      match List.filter (fun c => (cam_id c =? cam)%Z) (cameras md) with
      | [] => Raise KeyError
      | c :: hits => Ok (meters_per_pixel (List.last hits c))
      end
  | _ => if (e =? 0)%Z then Raise TypeError else Raise KeyError
  end.

(** The state carried from one iteration of the loop over the epochs to the
    next: the local [position_timestamps_filepath] ([None] while it has
    never been assigned) and what has been added to the file. *)
Record loop_state := {
  position_timestamps_filepath : option string;
  added : nwb_output
}.

Definition add_series (out : nwb_output) (new_position : list spatial_series)
  (frame_index labels : time_series_nat) : nwb_output :=
  {| position := position out ++ new_position;
     position_frame_index := position_frame_index out ++ [frame_index];
     non_repeat_timestamp_labels_module :=
       non_repeat_timestamp_labels_module out ++ [labels] |}.

(** Lines 756-778. *)
Definition spatial_series_of (e : Z) (position_tracking_filepath : option string)
  (position_df : position_df) (meters_per_pixel : Q) : list spatial_series :=
  match position_tracking_filepath with
  | Some _ =>
      flat_map
        (fun '(led_number, valid_keys) =>
           let key_set :=
             List.filter (fun key => existsb (String.eqb key) valid_keys)
                         (df_columns position_df) in
           if (0 <? length key_set)%nat then
             [{| name := led_series led_number e;
                 data := df_select position_df key_set;
                 conversion := meters_per_pixel;
                 timestamps := position_index position_df |}]
           else [])
        (zip (seq 0 (length LED_POS_NAMES)) LED_POS_NAMES)
  | None =>
      [{| name := series e; data := []; conversion := meters_per_pixel;
          timestamps := position_index position_df |}]
  end.

(** Lines 703-809: one iteration of the loop over the epochs. *)
Definition add_position_epoch
  (fs : file_system) (nwb_file : nwb_input) (md : metadata)
  (session_df : list file_info) (ptp_enabled : bool)
  (rec_dci_timestamps : list Q) (sample_count : list Z)
  (st : loop_state) (e : Z) : logged loop_state :=
  '(position_tracking_filepath, position_timestamps_filepath) ←
    match locate_epoch_files session_df e with
    | Ok (tracking, timestamps) => mret (Some tracking, Some timestamps)
    | Raise IndexError => mret (None, position_timestamps_filepath st)
    | Raise other => lift (Raise other)
    end;
  _ ← logger_info (EpochStarted e);
  timestamps_path ←
    match position_timestamps_filepath with
    | Some path => mret path
    | None => lift (Raise UnboundLocalError)
    end;
  _ ← logger_info (PositionTimestampsFilepath timestamps_path);
  _ ← logger_info (PositionTrackingFilepath position_tracking_filepath);
  dio_camera_timestamps_epoch ←
    (if ptp_enabled then mret []
     else
       '(epoch_start, epoch_end) ←
         lift (if (e - 1 <? 0)%Z then Raise IndexError
               else getitem (epochs nwb_file) (Z.to_nat (e - 1)));
       lift (find_camera_dio_channel_per_epoch
               (time_series nwb_file) epoch_start epoch_end));
  position_df ←
    get_position_timestamps_of_files fs timestamps_path
      position_tracking_filepath rec_dci_timestamps
      dio_camera_timestamps_epoch sample_count ptp_enabled;
  meters_per_pixel ← lift (meters_per_pixel_of md e);
  mret {| position_timestamps_filepath := position_timestamps_filepath;
          added :=
            add_series (added st)
              (spatial_series_of e position_tracking_filepath position_df
                 meters_per_pixel)
              {| ts_name := series e;
                 ts_data := df_video_frame_ind position_df;
                 ts_timestamps := position_index position_df |}
              {| ts_name := series e;
                 ts_data := df_labels position_df;
                 ts_timestamps := position_index position_df |} |}.

Fixpoint add_position_loop
  (fs : file_system) (nwb_file : nwb_input) (md : metadata)
  (session_df : list file_info) (ptp_enabled : bool)
  (rec_dci_timestamps : list Q) (sample_count : list Z)
  (st : loop_state) (epochs_left : list Z) : logged loop_state :=
  match epochs_left with
  | [] => mret st
  | e :: rest =>
      st' ← add_position_epoch fs nwb_file md session_df ptp_enabled
              rec_dci_timestamps sample_count st e;
      add_position_loop fs nwb_file md session_df ptp_enabled
        rec_dci_timestamps sample_count st' rest
  end.

Definition add_position
  (fs : file_system) (nwb_file : nwb_input) (md : metadata)
  (session_df : list file_info) (ptp_enabled : bool)
  (rec_dci_timestamps : list Q) (sample_count : list Z) : logged nwb_output :=
  _ ← lift (if negb ptp_enabled && (length (epochs nwb_file) =? 0)%nat
            then Raise (ValueError
              "add_epochs() must be run before add_position() for non-ptp data")
            else Ok tt);
  st ← add_position_loop fs nwb_file md session_df ptp_enabled
         rec_dci_timestamps sample_count
         {| position_timestamps_filepath := None;
            added := {| position := []; position_frame_index := [];
                        non_repeat_timestamp_labels_module := [] |} |}
         (unique_in_order [] (map epoch session_df));
  mret (added st).

(** ** Vocabulary of the statements *)

Open Scope Q_scope.

(** The gap between two successive nanosecond timestamps lasts more than
    [min_duration] and less than [max_duration] seconds, as the program
    measures it: each timestamp is divided by [1e9] in float64, and the
    float64 difference of the two quotients is greater than the one bound
    and less than the other. *)
Definition gap_in_window (min_duration max_duration a b : Q) : Prop :=
  let duration := float64_sub (seconds64 b) (seconds64 a) in
  float64_lt (float64_of_Q min_duration) duration = true
  /\ float64_lt duration (float64_of_Q max_duration) = true.

(** The same gap in exact arithmetic. *)
Definition exact_gap_in_window (min_duration max_duration a b : Q) : Prop :=
  min_duration < (b - a) / NANOSECONDS_PER_SECOND
  /\ (b - a) / NANOSECONDS_PER_SECOND < max_duration.

(** What a 16-bit hardware counter shows of the true count [t]. *)
Definition counter16 (t : Z) : Z := (t mod 65536)%Z.

(** ** Inputs of the worked examples *)

(** The timestamps of [test_find_acquisition_timing_pause]. *)
Definition pause_example : list Q :=
  [0; 1000000000; 1500000000; 2500000000; 3500000000; 4500000000].

(** An epoch of three frames without a disconnect: the frames are the
    recorded samples 1, 2 and 3, the recorder clock reads 1000, 2000 and
    3000 at the samples that follow them, and the camera pulses were seen at
    900, 1800 and 2700 (the numbers of [test_estimate_camera_to_mcu_lag]). *)
Definition lag_example_data : list hw_sync_record :=
  [ {| PosTimestamp := 1; frameCount := 0; HWTimestamp_raw := 0 |};
    {| PosTimestamp := 2; frameCount := 1; HWTimestamp_raw := 0 |};
    {| PosTimestamp := 3; frameCount := 2; HWTimestamp_raw := 0 |} ].
Definition lag_example_sample_count : list Z := [1; 2; 3; 4]%Z.
Definition lag_example_rec_dci : list Q := [0; 1000; 2000; 3000].
Definition lag_example_dio : list Q := [900; 1800; 2700].

(** A session whose only epoch has a hardware timestamps file and no
    tracking file. *)
Definition untracked_session : list file_info :=
  [ {| epoch := 1; file_extension := ".cameraHWSync";
       full_path := "/data/s_01_r1.1.videoTimeStamps.cameraHWSync" |} ]%string.

(** A session of two epochs: the first one tracked, the second one with a
    hardware timestamps file only. *)
Definition two_epoch_session : list file_info :=
  [ {| epoch := 1; file_extension := ".videoPositionTracking";
       full_path := "/data/s_01_r1.1.videoPositionTracking" |};
    {| epoch := 1; file_extension := ".cameraHWSync";
       full_path := "/data/s_01_r1.1.videoTimeStamps.cameraHWSync" |};
    {| epoch := 2; file_extension := ".cameraHWSync";
       full_path := "/data/s_02_r2.1.videoTimeStamps.cameraHWSync" |} ]%string.

Definition two_epoch_files : file_system :=
  {| hw_sync_files :=
       [ ("/data/s_01_r1.1.videoTimeStamps.cameraHWSync",
          [ {| PosTimestamp := 10; frameCount := 0; HWTimestamp_raw := 0 |};
            {| PosTimestamp := 20; frameCount := 1; HWTimestamp_raw := 1000000000 |};
            {| PosTimestamp := 30; frameCount := 2; HWTimestamp_raw := 1100000000 |};
            {| PosTimestamp := 40; frameCount := 3; HWTimestamp_raw := 1200000000 |} ]);
         ("/data/s_02_r2.1.videoTimeStamps.cameraHWSync",
          [ {| PosTimestamp := 910; frameCount := 0; HWTimestamp_raw := 50000000000 |};
            {| PosTimestamp := 920; frameCount := 1; HWTimestamp_raw := 51000000000 |};
            {| PosTimestamp := 930; frameCount := 2; HWTimestamp_raw := 51100000000 |} ]) ]%string;
     tracking_files :=
       [ ("/data/s_01_r1.1.videoPositionTracking",
          {| tracking_columns := ["xloc"; "yloc"];
             tracking_rows := [ (20, [1; 2]); (30, [3; 4]); (40, [5; 6]) ]%Z |}) ]%string |}.

Definition two_epoch_metadata : metadata :=
  {| cameras := [ {| cam_id := 0; meters_per_pixel := 0.001 |} ];
     tasks := [ {| camera_id := [0%Z]; task_epochs := [1; 2]%Z |} ] |}.

Definition empty_nwb : nwb_input := {| time_series := []; epochs := [] |}.

(** Two pulse channels whose names hold the marker, with 101 ticks each,
    at 1, 2, ..., 101 s, and an epoch from 0 to 200 s. *)
Definition ticks_101 : list Q :=
  map (fun k => inject_Z (Z.of_nat k)) (seq 1 101).
Definition two_camera_channels : list (string * list Q) :=
  [ ("ECU_Din1 camera ticks 1", ticks_101);
    ("ECU_Din2 camera ticks 2", ticks_101) ]%string.

(** The number of ticks of a channel within the bounds of an epoch. *)
Definition ticks_in_epoch (epoch_start epoch_end : Q) (ticks : list Q) : nat :=
  length (List.filter (in_epoch epoch_start epoch_end) ticks).

(** The seconds of a row on the precision clock. *)
Definition ptp_seconds (kr : Z * video_row) : Q :=
  inject_Z (HWTimestamp (snd kr)) / NANOSECONDS_PER_SECOND.

(** The pause of the precision-clock path as the specification words it:
    the gap criterion of the pause locator with its default window, over the
    first 100 samples. *)
Definition ptp_pause_mid_ind_as_specified (ptp_systime : list Q) : result nat :=
  let d := np_diff64 (take 100 (map seconds64 ptp_systime)) in
  pause_start ←
    getitem (np_nonzero
               (map (is_valid_gap default_min_duration default_max_duration) d)) 0;
  Ok (pause_start + 1)%nat.

(** Four frames on the precision clock, at 0, 1.5, 2.0 and 2.03 s. *)
Definition ptp_example_data : list hw_sync_record :=
  [ {| PosTimestamp := 10; frameCount := 0; HWTimestamp_raw := 0 |};
    {| PosTimestamp := 20; frameCount := 1; HWTimestamp_raw := 1500000000 |};
    {| PosTimestamp := 30; frameCount := 2; HWTimestamp_raw := 2000000000 |};
    {| PosTimestamp := 40; frameCount := 3; HWTimestamp_raw := 2030000000 |} ].

(** Three frames on the precision clock, 33 ms apart: no pause. *)
Definition no_pause_data : list hw_sync_record :=
  [ {| PosTimestamp := 10; frameCount := 0; HWTimestamp_raw := 0 |};
    {| PosTimestamp := 20; frameCount := 1; HWTimestamp_raw := 33000000 |};
    {| PosTimestamp := 30; frameCount := 2; HWTimestamp_raw := 66000000 |} ].

(** Two frames 1.5 s apart on the precision clock. *)
Definition frame_at (hw_timestamp : Z) (frame : nat) : Z * video_row :=
  (Z.of_nat (10 * S frame),
   {| HWframeCount := Z.of_nat frame; HWTimestamp := hw_timestamp;
      video_frame_ind := frame; non_repeat_timestamp_labels := 1;
      tracked := [] |}).
Definition two_ptp_rows : list (Z * video_row) :=
  [frame_at 0 0; frame_at 1500000000 1].

(** The recorder clock of the samples 10, 20 and 30. *)
Definition two_rows_sample_count : list Z := [10; 20; 30]%Z.
Definition two_rows_rec_dci : list Q := [0; 1000; 2000; 3000].

(** A camera whose frame counter wraps between the second and the third
    frame of an epoch; the second frame has no tracked position. *)
Definition wrap_data : list hw_sync_record :=
  [ {| PosTimestamp := 1; frameCount := 65534; HWTimestamp_raw := 0 |};
    {| PosTimestamp := 2; frameCount := 65535; HWTimestamp_raw := 0 |};
    {| PosTimestamp := 3; frameCount := 0; HWTimestamp_raw := 0 |};
    {| PosTimestamp := 4; frameCount := 1; HWTimestamp_raw := 0 |} ].
Definition wrap_tracking : tracking_file :=
  {| tracking_columns := ["xloc"; "yloc"]%string;
     tracking_rows := [ (1, [1; 1]); (3, [5; 6]); (4, [7; 8]) ]%Z |}.
Definition wrap_sample_count : list Z := [1; 2; 3; 4; 5]%Z.
Definition wrap_rec_dci : list Q := [0; 10; 20; 30; 40].
Definition wrap_dio : list Q := [9; 19; 29; 39].

(** The table of [wrap_data] before its times are corrected. *)
Definition wrap_rows : list (Z * video_row) :=
  [ (1%Z, {| HWframeCount := 65534; HWTimestamp := 0; video_frame_ind := 0;
             non_repeat_timestamp_labels := 1;
             tracked := [Some 1%Z; Some 1%Z] |});
    (2%Z, {| HWframeCount := 65535; HWTimestamp := 0; video_frame_ind := 1;
             non_repeat_timestamp_labels := 1;
             tracked := [None; None] |});
    (3%Z, {| HWframeCount := 65535; HWTimestamp := 0; video_frame_ind := 2;
             non_repeat_timestamp_labels := 1;
             tracked := [Some 5%Z; Some 6%Z] |});
    (4%Z, {| HWframeCount := 65536; HWTimestamp := 0; video_frame_ind := 3;
             non_repeat_timestamp_labels := 1;
             tracked := [Some 7%Z; Some 8%Z] |}) ].

(** The rows of a frame that carry the time [t], in the order of the
    frame. *)
Definition occurrences {R} (t : Q) (frame : list (Q * R)) : list R :=
  group_rows t frame.


(** ** What [add_position] leaves in the file *)

(** The epoch a series is named after. *)
Definition series_epoch (n : series_name) : Z :=
  match n with
  | led_series _ e => e
  | series e => e
  end.

(** The three modules hold the series of the epochs [es], in that order:
    one frame-index series and one label series per epoch, named after the
    epoch, on the same timestamps and with one value per timestamp; every
    spatial series is on the timestamps of the frame-index series of its
    epoch, with one row per timestamp or no row at all. *)
Definition series_per_epoch (out : nwb_output) (es : list Z) : Prop :=
  map ts_name (position_frame_index out) = map series es
  /\ map ts_name (non_repeat_timestamp_labels_module out) = map series es
  /\ map ts_timestamps (position_frame_index out)
     = map ts_timestamps (non_repeat_timestamp_labels_module out)
  /\ Forall (fun s => length (ts_data s) = length (ts_timestamps s))
            (position_frame_index out)
  /\ Forall (fun s => length (ts_data s) = length (ts_timestamps s))
            (non_repeat_timestamp_labels_module out)
  /\ Forall (fun s =>
               (data s = [] \/ length (data s) = length (timestamps s))
               /\ exists t, In t (position_frame_index out)
                            /\ ts_name t = series (series_epoch (name s))
                            /\ ts_timestamps t = timestamps s)
            (position out).

(** ** Camera time by sample label *)

(** Lines 283-304, [estimate_camera_time_from_mcu_time]: both tables are
    indexed by trodes sample; [mcu_timestamps.loc[labels]] returns, for
    each label in turn, every row of [mcu_timestamps] with that label. *)
Definition estimate_camera_time_from_mcu_time {P R}
  (position_timestamps : list (Z * P)) (mcu_timestamps : list (Z * R))
  : list R * list bool :=
  let is_valid_camera_time :=
    map (fun kr => isinZ (fst kr) (map fst mcu_timestamps))
        position_timestamps in
  let camera_systime :=
    flat_map
      (fun k => map snd (List.filter (fun m => (fst m =? k)%Z) mcu_timestamps))
      (select (map fst position_timestamps) is_valid_camera_time) in
  (camera_systime, is_valid_camera_time).

(** ** The names of the video files *)

Open Scope string_scope.

(** [s.replace(old, new)] for a non-empty [old]: the occurrences of [old]
    are replaced from the left and do not overlap.  [skip] counts the
    characters of an occurrence that are still to be passed over. *)
Fixpoint replace_from (old new : string) (skip : nat) (s : string) : string :=
  match s with
  | EmptyString => EmptyString
  | String c s' =>
      match skip with
      | S skip' => replace_from old new skip' s'
      | O =>
          if String.prefix old s
          then new ++ replace_from old new (String.length old - 1) s'
          else String c (replace_from old new 0 s')
      end
  end.

Definition str_replace (old new s : string) : string :=
  replace_from old new 0 s.

(** Line 857, the name [copy_video_to_directory] returns from both of its
    [return] statements. *)
Definition copied_file_name (file video_directory : string) : result string :=
  base ← getitem_from_end (split_on "/"%char file) 1;
  Ok (video_directory ++ base).

(** Lines 836-837, the name [convert_h264_to_mp4] returns from both of its
    [return] statements. *)
Definition converted_file_name (file video_directory : string)
  : result string :=
  let new_file_name := str_replace ".h264" ".mp4" file in
  base ← getitem_from_end (split_on "/"%char new_file_name) 1;
  Ok (video_directory ++ base).

(** Lines 925-928 and 935 of [add_associated_video_files]: the entry of
    [external_file] of the image series of a video. *)
Definition external_file_of (convert_video : bool)
  (video_path video_directory : string) : result string :=
  video_file_name ←
    (if convert_video then converted_file_name video_path video_directory
     else copied_file_name video_path video_directory);
  getitem_from_end (split_on "/"%char video_file_name) 1.
(** * Properties *)

Open Scope Z_scope.

(** ** Arrays compared with their own shift *)

Lemma zip_removelast_tail {A B} (f : A -> A -> B) (a : A) (l : list A) :
  zip_with f (removelast (a :: l)) l = zip_with f (a :: l) l.
Proof.
  revert a. induction l as [|b l IH]; intros a; [reflexivity|].
  change (removelast (a :: b :: l)) with (a :: removelast (b :: l)).
  simpl. f_equal. apply IH.
Qed.

Lemma length_zip_cons {A B} (f : A -> A -> B) (a : A) (l : list A) :
  length (zip_with f (a :: l) l) = length l.
Proof. rewrite length_zip_with. cbn [length]. lia. Qed.

Lemma lookup_zip_cons {A B} (f : A -> A -> B) (a : A) (l : list A) (i : nat) x y :
  (a :: l) !! i = Some x -> l !! i = Some y ->
  zip_with f (a :: l) l !! i = Some (f x y).
Proof.
  intros Hx Hy. rewrite lookup_zip_with, Hx. simpl. rewrite Hy. reflexivity.
Qed.

(** ** [detect_repeat_timestamps] *)

Lemma detect_repeat_timestamps_cons a ts :
  detect_repeat_timestamps (a :: ts) = false :: zip_with Z.geb (a :: ts) ts.
Proof.
  unfold detect_repeat_timestamps. simpl tail. now rewrite zip_removelast_tail.
Qed.

(** X1.  On a sequence with at least one timestamp the flags are as many as
    the timestamps, the first one is false and flag [i+1] compares timestamp
    [i] with timestamp [i+1]. *)
Lemma detect_repeat_timestamps_nonempty (ts : list Z) :
  ts <> [] ->
  length (detect_repeat_timestamps ts) = length ts
  /\ detect_repeat_timestamps ts !! 0%nat = Some false
  /\ forall i a b, ts !! i = Some a -> ts !! S i = Some b ->
       detect_repeat_timestamps ts !! S i = Some (a >=? b).
Proof.
  destruct ts as [|a ts]; [congruence|]. intros _.
  rewrite detect_repeat_timestamps_cons. repeat split.
  - cbn [length]. now rewrite length_zip_cons.
  - intros i x y Hx Hy. cbn [lookup list_lookup]. now apply lookup_zip_cons.
Qed.

Example detect_repeat_timestamps_test :
  detect_repeat_timestamps [1; 2; 2; 3; 3; 3; 4]
  = [false; false; true; false; true; true; false].
Proof. reflexivity. Qed.

(** C10. The claim asks, for every timestamp sequence and the empty one in
    particular, for as many flags as timestamps.  On the empty sequence the
    function returns the one flag [False]: the flag inserted in front to
    make up for the comparison of neighbours being one short is inserted
    there as well. *)
Theorem detect_repeat_timestamps_empty :
  detect_repeat_timestamps [] = [false]
  /\ length (detect_repeat_timestamps []) <> length (@nil Z).
Proof. split; [reflexivity | discriminate]. Qed.

(** The extra flag reaches the resolver: a tracking file without a row
    yields one flag for no row, and the selection of the rows that are not
    repeats raises [IndexError], which the handler around it does not
    catch. *)
Lemma empty_tracking_file_raises (video_timestamps : list (Z * video_row))
  (columns : list string) :
  merge_position_tracking video_timestamps
    (Some {| tracking_columns := columns; tracking_rows := [] |})
  = Raise IndexError.
Proof. reflexivity. Qed.
(** ** [np.nonzero] and the first position that holds *)

Lemma nonzero_from_first (mask : list bool) (pos i : nat) :
  mask !! i = Some true ->
  (forall j, (j < i)%nat -> mask !! j = Some false) ->
  head (nonzero_from pos mask) = Some (pos + i)%nat.
Proof.
  revert pos i. induction mask as [|b mask IH]; intros pos i Hi Hbefore.
  - discriminate.
  - destruct i as [|i].
    + injection Hi as ->. simpl. f_equal. lia.
    + assert (b = false) as ->.
      { specialize (Hbefore 0%nat ltac:(lia)). now injection Hbefore. }
      simpl. rewrite (IH (S pos) i Hi).
      * f_equal. lia.
      * intros j Hj. apply (Hbefore (S j)). lia.
Qed.

Lemma nonzero_from_none (mask : list bool) (pos : nat) :
  (forall j, mask !! j <> Some true) -> nonzero_from pos mask = [].
Proof.
  revert pos. induction mask as [|b mask IH]; intros pos Hnone; [reflexivity|].
  destruct b.
  - now destruct (Hnone 0%nat).
  - simpl. apply IH. intros j. apply (Hnone (S j)).
Qed.

Lemma getitem_head {A} (l : list A) x : head l = Some x -> getitem l 0 = Ok x.
Proof. destruct l; [discriminate|]. now intros [= ->]. Qed.

Lemma first_true_found (mask : list bool) (i : nat) :
  mask !! i = Some true ->
  (forall j, (j < i)%nat -> mask !! j = Some false) ->
  getitem (np_nonzero mask) 0 = Ok i.
Proof.
  intros Hi Hbefore. apply getitem_head.
  apply (nonzero_from_first mask 0 i Hi Hbefore).
Qed.

Lemma first_true_missing (mask : list bool) :
  (forall j, mask !! j <> Some true) ->
  getitem (np_nonzero mask) 0 = Raise IndexError.
Proof.
  intros Hnone. unfold np_nonzero. now rewrite nonzero_from_none.
Qed.

Open Scope Q_scope.

Lemma Qltb_lt (x y : Q) : Qltb x y = true <-> x < y.
Proof.
  unfold Qltb. rewrite negb_true_iff. split.
  - intros H. apply Qnot_le_lt. intros Hle.
    apply Qle_bool_iff in Hle. congruence.
  - intros H. destruct (Qle_bool y x) eqn:E; [|reflexivity].
    apply Qle_bool_iff in E. now apply Qlt_not_le in H.
Qed.

Lemma Qltb_nlt (x y : Q) : Qltb x y = false <-> ~ x < y.
Proof.
  rewrite <- Qltb_lt. destruct (Qltb x y); split; congruence.
Qed.

Lemma is_valid_gap_window (lo hi a b : Q) :
  is_valid_gap lo hi (float64_sub (seconds64 b) (seconds64 a)) = true
  <-> gap_in_window lo hi a b.
Proof.
  unfold is_valid_gap, gap_in_window. cbn zeta. now rewrite andb_true_iff.
Qed.

Lemma lookup_np_diff64 (l : list float64) (i : nat) :
  np_diff64 l !! i = (x ← l !! i; y ← l !! S i; Some (float64_sub y x)).
Proof.
  unfold np_diff64. rewrite lookup_zip_with, lookup_tail. reflexivity.
Qed.

Lemma lookup_np_diffQ (l : list Q) (i : nat) :
  np_diffQ l !! i = (x ← l !! i; y ← l !! S i; Some (y - x)).
Proof.
  unfold np_diffQ. rewrite lookup_zip_with, lookup_tail. reflexivity.
Qed.

Lemma lookup_map {A B} (f : A -> B) (l : list A) (i : nat) :
  map f l !! i = f <$> l !! i.
Proof.
  revert i. induction l as [|x l IH]; intros [|i]; simpl; auto.
Qed.

(** ** 4.2 [find_acquisition_timing_pause] *)

Section pause_mask.
Variables (ts : list Q) (lo hi : Q) (n : nat).

Let mask : list bool :=
  map (is_valid_gap lo hi) (np_diff64 (map seconds64 (take n ts))).

Lemma pause_mask_lookup (j : nat) (a b : Q) :
  (S j < n)%nat -> ts !! j = Some a -> ts !! S j = Some b ->
  mask !! j
  = Some (is_valid_gap lo hi (float64_sub (seconds64 b) (seconds64 a))).
Proof.
  intros Hn Ha Hb. unfold mask.
  rewrite lookup_map, lookup_np_diff64, !lookup_map.
  rewrite !lookup_take_lt by lia. rewrite Ha, Hb. reflexivity.
Qed.

Lemma pause_mask_inv (j : nat) (v : bool) :
  mask !! j = Some v ->
  exists a b, (S j < n)%nat /\ ts !! j = Some a /\ ts !! S j = Some b
    /\ v = is_valid_gap lo hi (float64_sub (seconds64 b) (seconds64 a)).
Proof.
  unfold mask. rewrite lookup_map, lookup_np_diff64, !lookup_map.
  destruct (take n ts !! j) as [a|] eqn:Ha; [|discriminate].
  destruct (take n ts !! S j) as [b|] eqn:Hb; [|discriminate].
  simpl. intros [= <-].
  apply lookup_take_Some in Ha as [Ha _], Hb as [Hb Hn].
  exists a, b. auto.
Qed.
End pause_mask.

Lemma floor_midpoint (a b : Q) :
  a + floor_divide (b - a) 2 <= (a + b) / 2
  /\ (a + b) / 2 < a + floor_divide (b - a) 2 + 1.
Proof.
  unfold floor_divide.
  assert ((a + b) / 2 == a + (b - a) / 2) as -> by field.
  split.
  - apply Qplus_le_r, Qfloor_le.
  - rewrite <- Qplus_assoc. apply Qplus_lt_r.
    assert (inject_Z (Qfloor ((b - a) / 2)) + 1
            == inject_Z (Qfloor ((b - a) / 2) + 1)) as ->.
    { rewrite inject_Z_plus. reflexivity. }
    apply Qlt_floor.
Qed.

Lemma find_pause_first_gap (dtype : np_dtype) (ts : list Q) (lo hi : Q)
  (n_search : Z) (i : nat) (a b : Q) :
  (0 <= n_search)%Z ->
  ts !! i = Some a -> ts !! S i = Some b ->
  (Z.of_nat (S i) < n_search)%Z ->
  gap_in_window lo hi a b ->
  (forall j a' b', (j < i)%nat -> ts !! j = Some a' -> ts !! S j = Some b' ->
                   ~ gap_in_window lo hi a' b') ->
  find_acquisition_timing_pause dtype ts lo hi n_search
  = pause_mid_time_of dtype a b.
Proof.
  intros Hn Ha Hb Hi Hgap Hfirst.
  unfold find_acquisition_timing_pause, slice_to.
  destruct (Z.ltb_spec n_search 0) as [|_]; [lia|].
  rewrite (first_true_found _ i).
  - cbn [mbind result_bind]. unfold getitem.
    rewrite Ha. replace (i + 1)%nat with (S i) by lia. now rewrite Hb.
  - rewrite (pause_mask_lookup ts lo hi _ i a b) by (auto; lia).
    f_equal. now apply is_valid_gap_window.
  - intros j Hj.
    destruct (lookup_lt_is_Some_2 ts j) as [a' Ha'].
    { apply lookup_lt_Some in Ha. lia. }
    destruct (lookup_lt_is_Some_2 ts (S j)) as [b' Hb'].
    { apply lookup_lt_Some in Ha. lia. }
    rewrite (pause_mask_lookup ts lo hi _ j a' b') by (auto; lia).
    f_equal. apply not_true_is_false. rewrite is_valid_gap_window. eauto.
Qed.

Lemma find_pause_not_found (dtype : np_dtype) (ts : list Q) (lo hi : Q)
  (n_search : Z) :
  (0 <= n_search)%Z ->
  (forall j a' b', (Z.of_nat (S j) < n_search)%Z ->
                   ts !! j = Some a' -> ts !! S j = Some b' ->
                   ~ gap_in_window lo hi a' b') ->
  find_acquisition_timing_pause dtype ts lo hi n_search = Raise IndexError.
Proof.
  intros Hn Hnone.
  unfold find_acquisition_timing_pause, slice_to.
  destruct (Z.ltb_spec n_search 0) as [|_]; [lia|].
  rewrite first_true_missing; [reflexivity|].
  intros j Hj. apply pause_mask_inv in Hj as (a & b & Hlt & Ha & Hb & Hv).
  symmetry in Hv. apply is_valid_gap_window in Hv.
  apply (Hnone j a b); auto. lia.
Qed.

(** The only gap of these two timestamps lasts exactly 1.0 s, which is not
    less than 1.0 s; the float64 quotients 0.4 and 1.4 differ by
    0.9999999999999999, and the pause is found.  A gap of exactly 0.4 s
    after 100 s is measured as 0.4000000000000057 and found as well. *)
Lemma pause_window_is_measured_in_float64 :
  ~ exact_gap_in_window 0.4 1.0 400000000 1400000000
  /\ find_acquisition_timing_pause np_int64 [400000000; 1400000000] 0.4 1.0 100
     = Ok 900000000
  /\ ~ exact_gap_in_window 0.4 1.0 100000000000 100400000000
  /\ find_acquisition_timing_pause np_int64
       [100000000000; 100400000000; 100900000000] 0.4 1.0 100
     = Ok 100200000000.
Proof.
  split; [intros [_ Hhi]; vm_compute in Hhi; discriminate|].
  split; [reflexivity|].
  split; [intros [Hlo _]; vm_compute in Hlo; discriminate|].
  reflexivity.
Qed.

(** C6, amended.  [find_acquisition_timing_pause] looks at the successive
    differences of the first [n_search] samples and returns
    [start + (end - start) // 2] for the two samples that bound the first
    gap whose duration lies strictly between [min_duration] and
    [max_duration], whatever larger gaps follow, the duration being the
    float64 difference of the two timestamps divided by [1e9] in float64;
    without such a gap among the first [n_search] samples it raises
    [IndexError].  On integer timestamps the result is the midpoint in
    whole nanoseconds, rounded down.  The two runs of the repository's
    test give 1.25e9 and 0.5e9. *)
Theorem find_acquisition_timing_pause_correct :
  (forall (dtype : np_dtype) (ts : list Q) (lo hi : Q) (n_search : Z)
          (i : nat) (a b : Q),
      (0 <= n_search)%Z ->
      ts !! i = Some a -> ts !! S i = Some b ->
      (Z.of_nat (S i) < n_search)%Z ->
      gap_in_window lo hi a b ->
      (forall j a' b', (j < i)%nat -> ts !! j = Some a' -> ts !! S j = Some b' ->
                       ~ gap_in_window lo hi a' b') ->
      find_acquisition_timing_pause dtype ts lo hi n_search
      = pause_mid_time_of dtype a b)
  /\ (forall a b : Q,
      pause_mid_time_of np_int64 a b = Ok (a + floor_divide (b - a) 2)
      /\ a + floor_divide (b - a) 2 <= (a + b) / 2
      /\ (a + b) / 2 < a + floor_divide (b - a) 2 + 1)
  /\ (forall (dtype : np_dtype) (ts : list Q) (lo hi : Q) (n_search : Z),
      (0 <= n_search)%Z ->
      (forall j a' b', (Z.of_nat (S j) < n_search)%Z ->
                       ts !! j = Some a' -> ts !! S j = Some b' ->
                       ~ gap_in_window lo hi a' b') ->
      find_acquisition_timing_pause dtype ts lo hi n_search = Raise IndexError)
  /\ (exists m, find_acquisition_timing_pause np_int64 pause_example 0.4 1.0 100
                = Ok m
                /\ m == 1250000000)
  /\ (exists m, find_acquisition_timing_pause np_int64 pause_example 0.4 1.1 100
                = Ok m
                /\ m == 500000000).
Proof.
  split; [|split; [|split; [|split]]].
  - intros dtype ts lo hi n_search i a b. apply find_pause_first_gap.
  - intros a b. split; [reflexivity | apply floor_midpoint].
  - apply find_pause_not_found.
  - eexists. split; [vm_compute; reflexivity | reflexivity].
  - eexists. split; [vm_compute; reflexivity | reflexivity].
Qed.

Lemma find_acquisition_timing_pause_witness :
  find_acquisition_timing_pause np_int64 pause_example 0.4 1.0 100
  = pause_mid_time_of np_int64 1000000000 1500000000.
Proof.
  refine (proj1 find_acquisition_timing_pause_correct
            np_int64 pause_example 0.4 1.0 100%Z 1%nat 1000000000 1500000000
            _ _ _ _ _ _).
  - lia.
  - reflexivity.
  - reflexivity.
  - lia.
  - split; reflexivity.
  - intros j a' b' Hj Ha Hb. assert (j = 0%nat) as -> by lia.
    injection Ha as <-. injection Hb as <-.
    intros [_ H]. vm_compute in H. discriminate.
Defined.

(** ** 4.3 The lag between the camera and the pulse train *)

(** With [n_breaks = 0] the lag is the median of the differences, the
    pulses being cut to the number of camera samples. *)
Lemma estimate_lag_no_break (camera_systime dio_systime : list Q) :
  estimate_camera_to_mcu_lag camera_systime dio_systime 0
  = (difference ← broadcast2 Qminus camera_systime
                    (take (length camera_systime) dio_systime);
     np_median difference).
Proof. reflexivity. Qed.

(** As soon as one segment survives, the number handed over as [n_breaks]
    is positive and the lag is the difference of the first samples. *)
Lemma estimate_lag_of_segments (camera_systime dio_systime : list Q)
  (id : nat) (ids : list nat) :
  estimate_camera_to_mcu_lag camera_systime dio_systime (length (id :: ids))
  = (c0 ← getitem camera_systime 0; d0 ← getitem dio_systime 0; Ok (c0 - d0)).
Proof. reflexivity. Qed.

Example estimate_camera_to_mcu_lag_test :
  (exists lag, estimate_camera_to_mcu_lag [1000; 2000; 3000] [900; 1800; 2700] 0
               = Ok lag /\ lag == 200)
  /\ (exists lag, estimate_camera_to_mcu_lag [1000; 2000; 3000] [900; 1800; 2700] 1
                  = Ok lag /\ lag == 100).
Proof.
  split; eexists; (split; [vm_compute; reflexivity | reflexivity]).
Qed.

(** Only the pulses are cut to the common length: camera samples without a
    pulse make the subtraction fail. *)
Example estimate_lag_camera_longer :
  estimate_camera_to_mcu_lag [1000; 2000; 3000] [900; 1800] 0
  = Raise shape_error.
Proof. reflexivity. Qed.

(** C1. The epoch of [lag_example_data] has exactly one surviving segment
    and the camera and pulse times of the specification's example; the
    claim gives it the lag 200, the median of the differences.
    [get_position_timestamps] hands the number of segments, 1, over as
    [n_breaks]: the lag it logs and uses is the first difference, 100, and
    the returned times are the camera times less 100. *)
Theorem single_segment_lag_is_first_difference :
  let run := get_position_timestamps lag_example_data None
               lag_example_rec_dci lag_example_dio lag_example_sample_count
               false in
  In (INFO, NonRepeatTimestampLabels [1%nat]) (records run)
  /\ exists lag df,
      In (INFO, EstimatedLag (lag / NANOSECONDS_PER_SECOND)) (records run)
      /\ lag == 100 /\ ~ lag == 200
      /\ outcome run = Ok df
      /\ Forall2 Qeq (position_index df) [1000 - 100; 2000 - 100; 3000 - 100].
Proof.
  split.
  - vm_compute. tauto.
  - eexists (1000 - 900), _. split; [|split; [|split; [|split]]].
    + vm_compute. do 4 right. left. reflexivity.
    + reflexivity.
    + discriminate.
    + vm_compute. reflexivity.
    + cbn [position_index map fst]. repeat constructor; reflexivity.
Qed.

(** ** The unwrapping of the frame counter *)

Open Scope Z_scope.

Lemma to_int32_small (z : Z) : - 2 ^ 31 <= z < 2 ^ 31 -> to_int32 z = z.
Proof.
  intros H. unfold to_int32.
  change (2 ^ 31) with 2147483648 in *. change (2 ^ 32) with 4294967296.
  Z.div_mod_to_equations. lia.
Qed.

Lemma to_int32_counter16 (T : list Z) :
  map to_int32 (map counter16 T) = map counter16 T.
Proof.
  induction T as [|t T IH]; [reflexivity|]. simpl. rewrite IH. f_equal.
  apply to_int32_small. unfold counter16.
  change (2 ^ 31) with 2147483648. Z.div_mod_to_equations. lia.
Qed.

Lemma phase_correction (t0 t1 : Z) :
  0 <= t1 - t0 <= 32767 ->
  let d := counter16 t1 - counter16 t0 in
  (if 2 * Z.abs d <? uint16_max then 0
   else (let m := (d - - (uint16_max / 2)) mod uint16_max + - (uint16_max / 2) in
         if (uint16_max mod 2 =? 0) && (m =? - (uint16_max / 2)) && (0 <? d)
         then uint16_max / 2 else m) - d)
  = 65535 * (t1 / 65536 - t0 / 65536).
Proof.
  intros H1. unfold counter16, uint16_max. cbv zeta.
  change (65535 / 2) with 32767. change (65535 mod 2 =? 0) with false.
  cbn [andb].
  destruct (Z.ltb_spec (2 * Z.abs (t1 mod 65536 - t0 mod 65536)) 65535);
    Z.div_mod_to_equations; lia.
Qed.

Lemma unwrap_tail (t0 : Z) (T : list Z) (acc : Z) :
  (forall i a b, (t0 :: T) !! i = Some a -> (t0 :: T) !! S i = Some b ->
                 0 <= b - a <= 32767) ->
  Forall (fun t => 0 <= t < 2 ^ 31) (t0 :: T) ->
  acc = 65535 * (t0 / 65536) ->
  let p := map counter16 (t0 :: T) in
  let dd := np_diff p in
  let ddmod :=
    map (fun d =>
           let m := (d - - (uint16_max / 2)) mod uint16_max + - (uint16_max / 2) in
           if (uint16_max mod 2 =? 0) && (m =? - (uint16_max / 2)) && (0 <? d)
           then uint16_max / 2 else m) dd in
  let ph_correct :=
    zip_with (fun m d => if 2 * Z.abs d <? uint16_max then 0 else m - d) ddmod dd in
  map to_int32 (zip_with Z.add (map counter16 T) (cumsum_from acc ph_correct))
  = map (fun t => t - t / 65536) T.
Proof.
  revert t0 acc. induction T as [|t1 T IH]; intros t0 acc Hstep Hrange Hacc.
  - reflexivity.
  - cbv zeta. cbn [map np_diff tail zip_with cumsum_from].
    pose proof (Hstep 0%nat t0 t1 eq_refl eq_refl) as H01.
    pose proof (phase_correction t0 t1 H01) as Hph. cbv zeta in Hph.
    match goal with
    | |- context [cumsum_from (acc + ?x)] =>
        assert (x = 65535 * (t1 / 65536 - t0 / 65536)) as Hx
    end.
    { rewrite <- Hph.
      destruct (2 * Z.abs (counter16 t1 - counter16 t0) <? uint16_max); reflexivity. }
    rewrite Hx.
    assert (acc + 65535 * (t1 / 65536 - t0 / 65536) = 65535 * (t1 / 65536)) as Hacc'
        by lia.
    rewrite Hacc'. f_equal.
    + inversion Hrange as [|? ? _ Hrest]; inversion Hrest as [|? ? Ht1 _]; subst.
      rewrite to_int32_small; unfold counter16;
        change (2 ^ 31) with 2147483648 in *; Z.div_mod_to_equations; lia.
    + apply (IH t1 (65535 * (t1 / 65536))).
      * intros i a b Ha Hb. apply (Hstep (S i) a b Ha Hb).
      * now inversion Hrange.
      * reflexivity.
Qed.

(** X9.  Under the conditions a camera meets (steps of less than half the
    period, counts that fit 31 bits) the unwrapped count is the true count
    less one for every wrap of the counter: the period handed to
    [np.unwrap] is 65535, the counter's is 65536. *)
Lemma unwrap_loses_one_count_per_wrap (t0 : Z) (T : list Z) :
  0 <= t0 < 65536 ->
  (forall i a b, (t0 :: T) !! i = Some a -> (t0 :: T) !! S i = Some b ->
                 0 <= b - a <= 32767) ->
  Forall (fun t => 0 <= t < 2 ^ 31) (t0 :: T) ->
  unwrap_frame_count (map counter16 (t0 :: T))
  = map (fun t => t - t / 65536) (t0 :: T).
Proof.
  intros H0 Hstep Hrange. unfold unwrap_frame_count.
  rewrite to_int32_counter16. unfold np_unwrap.
  cbn [map]. f_equal.
  - unfold counter16. Z.div_mod_to_equations. lia.
  - apply (unwrap_tail t0 T 0 Hstep Hrange).
    Z.div_mod_to_equations. lia.
Qed.

(** C8. The counter shows 65535 and then 0 when the true count goes from
    65535 to 65536.  The claim asks for the unwrapped count to advance by
    one; [np.unwrap] is given the period 65535 ([np.iinfo(np.uint16).max])
    in place of 65536 and leaves the count at 65535.  With the period 65536
    the same call returns the true counts. *)
Theorem unwrap_frame_count_at_wrap :
  map counter16 [65535; 65536] = [65535; 0]
  /\ unwrap_frame_count [65535; 0] = [65535; 65535]
  /\ np_unwrap (map to_int32 [65535; 0]) 65536 = [65535; 65536].
Proof. repeat split. Qed.

(** A step of half the period or more is taken for a step backwards, with
    or without a wrap. *)
Example unwrap_frame_count_large_step :
  unwrap_frame_count [0; 40000] = [0; -25535].
Proof. reflexivity. Qed.

(** ** [add_position] without a tracking file *)

Open Scope Q_scope.

(** The first epoch of a session comes without a tracking file: the lookup
    of line 710 raises [IndexError] before [position_timestamps_filepath]
    has ever been assigned, and the log line that prints it fails. *)
Lemma add_position_first_epoch_untracked
  (fs : file_system) (nwb_file : nwb_input) (md : metadata)
  (session_df : list file_info) (rec_dci_timestamps : list Q)
  (sample_count : list Z) (e : Z) (rest : list Z) :
  unique_in_order [] (map epoch session_df) = e :: rest ->
  files_of session_df e ".videoPositionTracking" = [] ->
  outcome (add_position fs nwb_file md session_df true
             rec_dci_timestamps sample_count)
  = Raise UnboundLocalError.
Proof.
  intros Hepochs Hnone. unfold add_position. cbn [negb andb lift].
  rewrite Hepochs. cbn [add_position_loop].
  unfold add_position_epoch, locate_epoch_files. rewrite Hnone.
  reflexivity.
Qed.

(** C3. An epoch without a tracking file is to yield an empty position
    series on the time index of the epoch's own timestamps file.
    [add_position] assigns [position_timestamps_filepath] inside the [try]
    only, after the statement that raises for such an epoch.  When the
    epoch is the first one, [add_position] fails with [UnboundLocalError];
    when it follows a tracked epoch, its empty series is stamped with
    the times of that earlier epoch's file (1.0, 1.1 and 1.2 s here, where
    the epoch's own file holds 51.0 and 51.1 s). *)
Theorem add_position_untracked_epoch :
  outcome (add_position two_epoch_files empty_nwb two_epoch_metadata
             untracked_session true [] [])
  = Raise UnboundLocalError
  /\ exists out s1 s2 own,
      outcome (add_position two_epoch_files empty_nwb two_epoch_metadata
                 two_epoch_session true [] [])
      = Ok out
      /\ position out = [s1; s2]
      /\ name s2 = series 2 /\ data s2 = []
      /\ Forall2 Qeq (timestamps s2) [1.0; 1.1; 1.2]
      /\ outcome (get_position_timestamps_of_files two_epoch_files
                    "/data/s_02_r2.1.videoTimeStamps.cameraHWSync" None
                    [] [] [] true)
         = Ok own
      /\ Forall2 Qeq (position_index own) [51.0; 51.1].
Proof.
  split.
  - reflexivity.
  - do 4 eexists. split; [vm_compute; reflexivity|].
    split; [reflexivity|]. split; [reflexivity|]. split; [reflexivity|].
    split; [repeat constructor; reflexivity|].
    split; [vm_compute; reflexivity|].
    repeat constructor; reflexivity.
Qed.

(** ** The camera pulse channel of an epoch *)

Lemma select_map_filter {A} (f : A -> bool) (l : list A) :
  select l (map f l) = List.filter f l.
Proof.
  induction l as [|x l IH]; [reflexivity|].
  simpl. destruct (f x); now rewrite IH.
Qed.

Lemma count_true_map {A} (f : A -> bool) (l : list A) :
  length (List.filter id (map f l)) = length (List.filter f l).
Proof.
  induction l as [|x l IH]; [reflexivity|].
  cbn [map List.filter]. change (id (f x)) with (f x).
  destruct (f x); cbn [length]; [f_equal|]; exact IH.
Qed.

Lemma first_channel_step time_series epoch_start epoch_end camera rest ticks :
  dict_get time_series camera = Ok ticks ->
  first_channel_with_ticks time_series epoch_start epoch_end (camera :: rest)
  = if (100 <? ticks_in_epoch epoch_start epoch_end ticks)%nat
    then Ok (List.filter (in_epoch epoch_start epoch_end) ticks)
    else first_channel_with_ticks time_series epoch_start epoch_end rest.
Proof.
  intros Hget. cbn [first_channel_with_ticks]. rewrite Hget.
  cbn [mbind result_bind]. unfold ticks_in_epoch.
  now rewrite count_true_map, select_map_filter.
Qed.

Lemma dict_get_key {V} (d : list (string * V)) (key : string) :
  In key (map fst d) -> exists v, dict_get d key = Ok v.
Proof.
  induction d as [|[k v] d IH]; [intros []|].
  intros Hin. cbn [dict_get]. destruct (String.eqb_spec k key) as [->|Hne].
  - eauto.
  - destruct Hin as [Heq|Hin]; [contradiction|]. auto.
Qed.

Lemma camera_channel_names_keys {V} (d : list (string * V)) (key : string) :
  In key (camera_channel_names d) -> In key (map fst d).
Proof. unfold camera_channel_names. rewrite filter_In. tauto. Qed.

Section first_channel.
Variables (time_series : list (string * list Q)) (epoch_start epoch_end : Q).

Lemma first_channel_never_ambiguous (names : list string) :
  first_channel_with_ticks time_series epoch_start epoch_end names
  <> Raise multiple_channels.
Proof.
  induction names as [|camera rest IH]; [discriminate|].
  cbn [first_channel_with_ticks].
  destruct (dict_get time_series camera) as [ticks|e] eqn:Hget.
  - cbn [mbind result_bind]. destruct (_ <? _)%nat; [discriminate | exact IH].
  - cbn [mbind result_bind].
    assert (e = KeyError) as ->; [|discriminate].
    clear -Hget. induction time_series as [|[k v] d IHd]; cbn in Hget.
    + congruence.
    + destruct (String.eqb k camera); [discriminate | auto].
Qed.

Lemma first_channel_insufficient (names : list string) :
  (forall camera, In camera names -> In camera (map fst time_series)) ->
  (forall camera ticks, In camera names ->
     dict_get time_series camera = Ok ticks ->
     (ticks_in_epoch epoch_start epoch_end ticks <= 100)%nat) ->
  first_channel_with_ticks time_series epoch_start epoch_end names
  = Raise insufficient_ticks.
Proof.
  induction names as [|camera rest IH]; intros Hkeys Hfew; [reflexivity|].
  destruct (dict_get_key time_series camera) as [ticks Hget].
  { apply Hkeys. now left. }
  rewrite (first_channel_step _ _ _ _ _ _ Hget).
  destruct (Nat.ltb_spec 100 (ticks_in_epoch epoch_start epoch_end ticks)) as [Hmany|_].
  - specialize (Hfew camera ticks (or_introl eq_refl) Hget). lia.
  - apply IH; intros; [apply Hkeys | eapply Hfew]; eauto; now right.
Qed.

Lemma first_channel_found (before after : list string) (camera : string)
  (ticks : list Q) :
  (forall other, In other before -> In other (map fst time_series)) ->
  (forall other ticks', In other before ->
     dict_get time_series other = Ok ticks' ->
     (ticks_in_epoch epoch_start epoch_end ticks' <= 100)%nat) ->
  dict_get time_series camera = Ok ticks ->
  (100 < ticks_in_epoch epoch_start epoch_end ticks)%nat ->
  first_channel_with_ticks time_series epoch_start epoch_end
    (before ++ camera :: after)%list
  = Ok (List.filter (in_epoch epoch_start epoch_end) ticks).
Proof.
  induction before as [|other before IH]; intros Hkeys Hfew Hget Hmany.
  - cbn [app]. rewrite (first_channel_step _ _ _ _ _ _ Hget).
    destruct (Nat.ltb_spec 100 (ticks_in_epoch epoch_start epoch_end ticks));
      [reflexivity | lia].
  - destruct (dict_get_key time_series other) as [ticks' Hget'].
    { apply Hkeys. now left. }
    cbn [app]. rewrite (first_channel_step _ _ _ _ _ _ Hget').
    destruct (Nat.ltb_spec 100 (ticks_in_epoch epoch_start epoch_end ticks'))
      as [Hmany'|_].
    + specialize (Hfew other ticks' (or_introl eq_refl) Hget'). lia.
    + apply IH; intros; [apply Hkeys | eapply Hfew | |]; eauto; now right.
Qed.
End first_channel.

(** The resolver of an epoch does not know the ambiguity error: with two
    channels named after the camera it returns the ticks of the first one
    that has more than 100 of them within the epoch. *)
Lemma per_epoch_resolution_is_not_ambiguous :
  (1 < length (camera_channel_names two_camera_channels))%nat
  /\ find_camera_dio_channel_per_epoch two_camera_channels 0 200 = Ok ticks_101
  /\ find_camera_dio_channel_per_epoch two_camera_channels 0 200
     <> Raise multiple_channels.
Proof.
  split; [vm_compute; lia|].
  assert (find_camera_dio_channel_per_epoch two_camera_channels 0 200
          = Ok ticks_101) as H by (vm_compute; reflexivity).
  split; [exact H | rewrite H; discriminate].
Qed.

(** C5, amended.  [find_camera_dio_channel], which no caller uses, raises
    the ambiguity error when more than one channel name holds
    ["camera ticks"] and the not-found error when none does.  The resolver
    of an epoch, [find_camera_dio_channel_per_epoch], raises the not-found
    error when no name matches and never the ambiguity error; it raises the
    insufficient-data error when every matching channel has fewer than 100
    ticks within [[epoch_start, epoch_end]], and returns the ticks within
    these bounds of the first matching channel that has more than 100 of
    them. *)
Theorem camera_channel_resolution
  (time_series : list (string * list Q)) (epoch_start epoch_end : Q) :
  let names := camera_channel_names time_series in
  ((1 < length names)%nat ->
     find_camera_dio_channel time_series = Raise multiple_channels)
  /\ (names = [] ->
       find_camera_dio_channel time_series = Raise no_channel
       /\ find_camera_dio_channel_per_epoch time_series epoch_start epoch_end
          = Raise no_channel)
  /\ find_camera_dio_channel_per_epoch time_series epoch_start epoch_end
     <> Raise multiple_channels
  /\ (names <> [] ->
       (forall camera ticks, In camera names ->
          dict_get time_series camera = Ok ticks ->
          (ticks_in_epoch epoch_start epoch_end ticks < 100)%nat) ->
       find_camera_dio_channel_per_epoch time_series epoch_start epoch_end
       = Raise insufficient_ticks)
  /\ (forall before camera after ticks,
       names = (before ++ camera :: after)%list ->
       dict_get time_series camera = Ok ticks ->
       (100 < ticks_in_epoch epoch_start epoch_end ticks)%nat ->
       (forall other ticks', In other before ->
          dict_get time_series other = Ok ticks' ->
          (ticks_in_epoch epoch_start epoch_end ticks' <= 100)%nat) ->
       find_camera_dio_channel_per_epoch time_series epoch_start epoch_end
       = Ok (List.filter (in_epoch epoch_start epoch_end) ticks)).
Proof.
  intros names.
  assert (forall camera, In camera names -> In camera (map fst time_series))
    as Hkeys by apply camera_channel_names_keys.
  unfold find_camera_dio_channel, find_camera_dio_channel_per_epoch.
  fold names. split; [|split; [|split; [|split]]].
  - intros Hmany. apply Nat.ltb_lt in Hmany. now rewrite Hmany.
  - now intros ->.
  - destruct names; [discriminate|]. apply first_channel_never_ambiguous.
  - intros Hne Hfew. destruct names as [|camera rest] eqn:E; [congruence|].
    apply first_channel_insufficient; [assumption|].
    intros c ticks Hin Hget. specialize (Hfew c ticks Hin Hget). lia.
  - intros before camera after ticks Hsplit Hget Hmany Hfew.
    assert (forall other, In other before -> In other (map fst time_series))
      as Hbefore.
    { intros other Hin. apply Hkeys. rewrite Hsplit.
      apply in_or_app. now left. }
    rewrite Hsplit.
    transitivity (first_channel_with_ticks time_series epoch_start epoch_end
                    (before ++ camera :: after)%list).
    + now destruct before.
    + now apply first_channel_found.
Qed.

Lemma camera_channel_resolution_witness :
  find_camera_dio_channel_per_epoch two_camera_channels 0 200
  = Ok (List.filter (in_epoch 0 200) ticks_101).
Proof.
  refine (proj2 (proj2 (proj2 (proj2
            (camera_channel_resolution two_camera_channels 0 200))))
            [] "ECU_Din1 camera ticks 1"%string
            ["ECU_Din2 camera ticks 2"%string] ticks_101 _ _ _ _).
  - reflexivity.
  - reflexivity.
  - vm_compute. lia.
  - intros other ticks' [].
Defined.

(** ** The precision-clock path *)

Lemma map_fst_zip {A B} (l : list A) (k : list B) :
  length l = length k -> map fst (zip l k) = l.
Proof.
  revert k. induction l as [|x l IH]; intros [|y k] Hlen;
    try discriminate; [reflexivity|].
  simpl. f_equal. apply IH. now injection Hlen.
Qed.

Lemma zip_map_map {A B C} (f : A -> B) (g : A -> C) (l : list A) :
  zip (map f l) (map g l) = map (fun x => (f x, g x)) l.
Proof. induction l as [|x l IH]; [reflexivity|]. simpl. now rewrite IH. Qed.

Lemma outcome_lift_bind {A B} (r : result A) (k : A -> logged B) :
  outcome (lift r ≫= k) = match r with Ok a => outcome (k a) | Raise e => Raise e end.
Proof.
  destruct r as [a|e]; [|reflexivity].
  unfold lift. cbn [mbind logged_bind]. now destruct (k a).
Qed.

Section ptp_pause.
Variable video_timestamps : list (Z * video_row).

Let ptp_systime : list Q :=
  map (fun kr => inject_Z (HWTimestamp (snd kr))) video_timestamps.

Let time_index : list Q :=
  map (fun t => t / NANOSECONDS_PER_SECOND) ptp_systime.

Lemma ptp_pause_found (lo hi : Q) (i : nat) (ra rb : Z * video_row) :
  (S i < 100)%nat ->
  video_timestamps !! i = Some ra -> video_timestamps !! S i = Some rb ->
  gap_in_window lo hi (inject_Z (HWTimestamp (snd ra)))
                      (inject_Z (HWTimestamp (snd rb))) ->
  (forall j ra' rb', (j < i)%nat ->
     video_timestamps !! j = Some ra' -> video_timestamps !! S j = Some rb' ->
     ~ gap_in_window lo hi (inject_Z (HWTimestamp (snd ra')))
                           (inject_Z (HWTimestamp (snd rb')))) ->
  getitem (np_nonzero
             (map (is_valid_gap lo hi)
                  (np_diff64 (take 100 (map seconds64 ptp_systime))))) 0
  = Ok i.
Proof.
  intros Hi Ha Hb Hgap Hfirst. rewrite firstn_map.
  assert (forall j r, video_timestamps !! j = Some r ->
                      ptp_systime !! j = Some (inject_Z (HWTimestamp (snd r))))
    as Hsys.
  { intros j r Hr. unfold ptp_systime. now rewrite lookup_map, Hr. }
  apply first_true_found.
  - rewrite (pause_mask_lookup ptp_systime lo hi 100 i _ _ Hi
               (Hsys _ _ Ha) (Hsys _ _ Hb)).
    f_equal. now apply is_valid_gap_window.
  - intros j Hj.
    destruct (lookup_lt_is_Some_2 video_timestamps j) as [ra' Ha'].
    { apply lookup_lt_Some in Ha. lia. }
    destruct (lookup_lt_is_Some_2 video_timestamps (S j)) as [rb' Hb'].
    { apply lookup_lt_Some in Ha. lia. }
    rewrite (pause_mask_lookup ptp_systime lo hi 100 j _ _ ltac:(lia)
               (Hsys _ _ Ha') (Hsys _ _ Hb')).
    f_equal. apply not_true_is_false. rewrite is_valid_gap_window. eauto.
Qed.

Lemma ptp_pause_missing (lo hi : Q) :
  (forall j ra' rb', (S j < 100)%nat ->
     video_timestamps !! j = Some ra' -> video_timestamps !! S j = Some rb' ->
     ~ gap_in_window lo hi (inject_Z (HWTimestamp (snd ra')))
                           (inject_Z (HWTimestamp (snd rb')))) ->
  getitem (np_nonzero
             (map (is_valid_gap lo hi)
                  (np_diff64 (take 100 (map seconds64 ptp_systime))))) 0
  = Raise IndexError.
Proof.
  intros Hnone. rewrite firstn_map.
  apply first_true_missing. intros j Hj.
  apply pause_mask_inv in Hj as (a & b & Hlt & Ha & Hb & Hv).
  unfold ptp_systime in Ha, Hb. rewrite lookup_map in Ha, Hb.
  destruct (video_timestamps !! j) as [ra'|] eqn:Ha'; [|discriminate].
  destruct (video_timestamps !! S j) as [rb'|] eqn:Hb'; [|discriminate].
  injection Ha as <-. injection Hb as <-.
  symmetry in Hv. apply is_valid_gap_window in Hv.
  exact (Hnone j ra' rb' Hlt Ha' Hb' Hv).
Qed.

Lemma ptp_time_index :
  map fst (zip time_index (map (fun kr => drop_hw_columns (snd kr)) video_timestamps))
  = time_index.
Proof.
  apply map_fst_zip. unfold time_index, ptp_systime. now rewrite !length_map.
Qed.
End ptp_pause.

(** The first frames of [ptp_example_data] are 1.5 s apart and the next two
    0.5 s.  The criterion of the pause locator with its default window
    (0.4, 1.0) finds the pause after frame 1; the precision-clock path finds
    it after frame 0, its window being (0.4, 2.0), and keeps frame 1. *)
Lemma ptp_window_is_not_the_default :
  let ptp_systime := [0; 1500000000; 2000000000; 2030000000] in
  ptp_pause_mid_ind_as_specified ptp_systime = Ok 2%nat
  /\ ptp_pause_mid_ind ptp_systime = Ok 1%nat
  /\ exists df,
      outcome (get_position_timestamps ptp_example_data None [] [] [] true) = Ok df
      /\ Forall2 Qeq (position_index df) [1.5; 2.0; 2.03].
Proof.
  split; [reflexivity|]. split; [reflexivity|].
  eexists. split; [vm_compute; reflexivity|].
  repeat constructor; reflexivity.
Qed.

(** C4, amended.  On the precision-clock path the hardware timestamps are
    converted from nanoseconds to seconds, the pause is the first
    successive difference among the first 100 converted samples that lasts
    more than 0.4 s and less than 2.0 s, the difference being the float64
    difference of the float64 seconds; the samples up to the one that
    opens the pause are dropped and the remaining rows are returned on
    their converted hardware time: no regression is applied. *)
Theorem precision_clock_path
  (columns : list string) (video_timestamps : list (Z * video_row))
  (i : nat) (ra rb : Z * video_row) :
  (S i < 100)%nat ->
  video_timestamps !! i = Some ra -> video_timestamps !! S i = Some rb ->
  gap_in_window 0.4 2.0 (inject_Z (HWTimestamp (snd ra)))
                        (inject_Z (HWTimestamp (snd rb))) ->
  (forall j ra' rb', (j < i)%nat ->
     video_timestamps !! j = Some ra' -> video_timestamps !! S j = Some rb' ->
     ~ gap_in_window 0.4 2.0 (inject_Z (HWTimestamp (snd ra')))
                             (inject_Z (HWTimestamp (snd rb')))) ->
  outcome (get_position_timestamps_ptp columns video_timestamps)
  = Ok (PtpFrame columns
          (map (fun kr => (ptp_seconds kr, drop_hw_columns (snd kr)))
               (drop (S i) video_timestamps))).
Proof.
  intros Hi Ha Hb Hgap Hfirst. unfold get_position_timestamps_ptp.
  rewrite outcome_lift_bind. unfold ptp_pause_mid_ind.
  rewrite (ptp_pause_found video_timestamps 0.4 2.0 i ra rb) by assumption.
  cbn [mbind result_bind logged_bind logger_info mret logged_ret outcome].
  rewrite Nat.add_1_r. f_equal. f_equal.
  rewrite map_map, zip_map_map. now rewrite skipn_map.
Qed.

Lemma precision_clock_path_witness :
  outcome (get_position_timestamps_ptp [] two_ptp_rows)
  = Ok (PtpFrame []
          [ (ptp_seconds (frame_at 1500000000 1),
             drop_hw_columns (snd (frame_at 1500000000 1))) ]).
Proof.
  refine (precision_clock_path [] two_ptp_rows 0%nat
            (frame_at 0 0) (frame_at 1500000000 1) _ eq_refl eq_refl _ _).
  - lia.
  - split; reflexivity.
  - intros j ra' rb' Hj. lia.
Defined.

(** ** The fallback path without a pause *)

Lemma filter_all {A} (f : A -> bool) (l : list A) :
  Forall (fun x => f x = true) l -> List.filter f l = l.
Proof.
  induction 1 as [|x l Hx _ IH]; [reflexivity|].
  simpl. now rewrite Hx, IH.
Qed.

Lemma select_all_true {A} (l : list A) (mask : list bool) :
  length l = length mask -> Forall (fun b => b = true) mask -> select l mask = l.
Proof.
  revert mask. induction l as [|x l IH]; intros [|b mask] Hlen Hall;
    try discriminate; [reflexivity|].
  inversion Hall as [|? ? -> Hrest]; subst. simpl. f_equal.
  apply IH; [now injection Hlen | assumption].
Qed.

Lemma length_select {A} (l : list A) (mask : list bool) :
  length l = length mask ->
  length (select l mask) = length (List.filter id mask).
Proof.
  revert mask. induction l as [|x l IH]; intros [|b mask] Hlen;
    try discriminate; [reflexivity|].
  injection Hlen as Hlen. cbn [select List.filter].
  change (id b) with b. destruct b; cbn [length]; rewrite (IH mask Hlen);
    reflexivity.
Qed.

Lemma assign_all_true (mask keep : list bool) :
  Forall (fun b => b = true) keep -> assign_where_true mask keep = mask.
Proof.
  revert keep. induction mask as [|b mask IH]; intros keep Hall; [reflexivity|].
  destruct b; cbn [assign_where_true].
  - destruct Hall as [|k keep -> Hrest].
    + f_equal. now apply IH.
    + f_equal. now apply IH.
  - f_equal. now apply IH.
Qed.

Lemma length_mapM {A B} (f : A -> result B) (l : list A) (r : list B) :
  mapM f l = Ok r -> length r = length l.
Proof.
  revert r. induction l as [|x l IH]; intros r.
  - now intros [= <-].
  - cbn [mapM]. destruct (f x) as [y|]; [|discriminate].
    cbn [mbind result_bind]. destruct (mapM f l) as [ys|]; [|discriminate].
    cbn [mbind result_bind]. intros [= <-]. cbn [length]. f_equal. now apply IH.
Qed.

Lemma Forall_Qltb (lo : Q) (l : list Q) :
  Forall (fun t => lo < t)%Q l -> Forall (fun t => Qltb lo t = true) l.
Proof. induction 1; constructor; auto. now apply Qltb_lt. Qed.

Lemma Forall_map_true {A} (f : A -> bool) (l : list A) :
  Forall (fun x => f x = true) l -> Forall (fun b => b = true) (map f l).
Proof. induction 1; constructor; auto. Qed.

Open Scope Q_scope.

(** The precision-clock path has no handler: without a gap among the first
    100 frames [get_position_timestamps] fails with [IndexError].  On the
    fallback path the handler sets the sentinel and writes nothing to the
    log: every record of the run is at level [INFO]. *)
Lemma pause_not_found_is_fatal_with_ptp :
  outcome (get_position_timestamps no_pause_data None [] [] [] true)
  = Raise IndexError
  /\ find_acquisition_timing_pause np_float64
       (map (fun t => t * NANOSECONDS_PER_SECOND) lag_example_dio)
       default_min_duration default_max_duration default_n_search
     = Raise IndexError
  /\ Forall (fun r => fst r = INFO)
       (records (get_position_timestamps lag_example_data None
                   lag_example_rec_dci lag_example_dio
                   lag_example_sample_count false)).
Proof.
  split; [reflexivity|]. split; [reflexivity|].
  vm_compute. repeat constructor.
Qed.

(** C9, amended.  On the fallback path, when no successive difference of
    the first 100 pulse times lasts more than 0.4 s and less than 1.0 s,
    the [IndexError] of the pause locator is caught and the pause time is
    the sentinel [-1]; nothing is logged.  The differences are those the
    locator measures: the float64 differences of the pulse times after
    their float64 product and quotient by [1e9].  The trimming step then
    runs with the sentinel and, all times being later than -1, drops no
    pulse and no frame: the pulses, the frame counts of the valid frames,
    the validity mask and the camera times come back as they went in. *)
Theorem fallback_pause_not_found
  (video_timestamps : list (Z * video_row))
  (rec_dci_timestamps dio_camera_timestamps : list Q) (sample_count : list Z)
  (is_valid_camera_time : list bool) (camera_systime : list Q) :
  (forall j a b, (S j < 100)%nat ->
     dio_camera_timestamps !! j = Some a ->
     dio_camera_timestamps !! S j = Some b ->
     ~ gap_in_window 0.4 1.0 (a * NANOSECONDS_PER_SECOND)
                             (b * NANOSECONDS_PER_SECOND)) ->
  camera_systime_of video_timestamps rec_dci_timestamps sample_count
  = Ok (is_valid_camera_time, camera_systime) ->
  Forall (fun t => -1 < t) dio_camera_timestamps ->
  Forall (fun t => -1 < t) camera_systime ->
  non_ptp_pause_mid_time dio_camera_timestamps = Logged [] (Ok (-1))
  /\ remove_acquisition_timing_pause_non_ptp
       dio_camera_timestamps
       (map (fun kr => HWframeCount (snd kr)) video_timestamps)
       camera_systime is_valid_camera_time (-1)
     = Ok (dio_camera_timestamps,
           select (map (fun kr => HWframeCount (snd kr)) video_timestamps)
                  is_valid_camera_time,
           is_valid_camera_time, camera_systime).
Proof.
  intros Hnone Hcam Hdio Hlater. split.
  - unfold non_ptp_pause_mid_time.
    rewrite find_pause_not_found; [reflexivity | unfold default_n_search; lia |].
    intros j a' b' Hj Ha Hb.
    rewrite lookup_map in Ha, Hb.
    destruct (dio_camera_timestamps !! j) as [a|] eqn:Ea; [|discriminate].
    destruct (dio_camera_timestamps !! S j) as [b|] eqn:Eb; [|discriminate].
    injection Ha as <-. injection Hb as <-.
    apply (Hnone j a b); auto.
    unfold default_n_search in Hj. lia.
  - unfold camera_systime_of in Hcam.
    destruct (mapM _ _) as [cs|] eqn:Hmap; [|discriminate].
    cbn [mbind result_bind] in Hcam. injection Hcam as <- <-.
    apply length_mapM in Hmap.
    set (valid := map (fun kr => isinZ (fst kr) sample_count) video_timestamps) in *.
    set (frame_count := map (fun kr => HWframeCount (snd kr)) video_timestamps).
    assert (length frame_count = length valid) as Hfc.
    { unfold frame_count, valid. now rewrite !length_map. }
    assert (length (List.filter id valid) = length cs) as Hcount.
    { rewrite Hmap. symmetry. apply length_select.
      unfold valid. now rewrite !length_map. }
    assert (length (select frame_count valid) = length cs) as Hsel.
    { now rewrite length_select. }
    assert (Forall (fun b => b = true) (map (Qltb (-1)) cs)) as Hkeep.
    { apply Forall_map_true, Forall_Qltb, Hlater. }
    unfold remove_acquisition_timing_pause_non_ptp, np_mask.
    rewrite Hfc, Nat.eqb_refl. cbn [mbind result_bind].
    rewrite !length_map, Hsel, Hcount, Nat.eqb_refl. cbn [mbind result_bind].
    rewrite select_all_true by (rewrite ?length_map; auto).
    rewrite assign_all_true by assumption.
    rewrite !filter_all by (apply Forall_Qltb; assumption).
    reflexivity.
Qed.

Lemma fallback_pause_not_found_witness :
  non_ptp_pause_mid_time lag_example_dio = Logged [] (Ok (-1)).
Proof.
  refine (proj1 (fallback_pause_not_found two_ptp_rows two_rows_rec_dci
                   lag_example_dio two_rows_sample_count
                   [true; true] [1000; 2000] _ _ _ _)).
  - intros j a b Hj Ha Hb [Hlo Hhi].
    destruct j as [|[|j]].
    + injection Ha as <-. injection Hb as <-. vm_compute in Hhi. discriminate.
    + injection Ha as <-. injection Hb as <-. vm_compute in Hhi. discriminate.
    + discriminate.
  - reflexivity.
  - repeat constructor.
  - repeat constructor.
Defined.

(** ** The collapse of duplicate times *)

Open Scope Q_scope.

Lemma insert_key_In (x : Q) (keys : list Q) (y : Q) :
  In y (insert_key x keys) -> y = x \/ In y keys.
Proof.
  induction keys as [|k keys IH]; cbn [insert_key].
  - intros [<-|[]]. now left.
  - destruct (Qltb x k); [|destruct (Qeq_bool x k)].
    + intros [<-|Hin]; [now left | now right].
    + intros [<-|Hin]; [now left | right; now right].
    + intros [<-|Hin]; [right; now left|].
      destruct (IH Hin) as [->|Hin']; [now left | right; now right].
Qed.

Lemma insert_key_sorted (x : Q) (keys : list Q) :
  StronglySorted Qlt keys -> StronglySorted Qlt (insert_key x keys).
Proof.
  induction 1 as [|k keys Hsorted IH Hlt]; cbn [insert_key].
  - repeat constructor.
  - destruct (Qltb x k) eqn:Hxk; [|destruct (Qeq_bool x k) eqn:Heq].
    + apply Qltb_lt in Hxk. constructor; [now constructor|].
      constructor; [assumption|].
      eapply Forall_impl; [exact Hlt|]. intros y Hy. now apply (Qlt_trans x k y).
    + apply Qeq_bool_iff in Heq. constructor; [assumption|].
      eapply Forall_impl; [exact Hlt|]. intros y Hy. now rewrite Heq.
    + assert (k < x) as Hkx.
      { apply Qltb_nlt in Hxk. apply Qnot_lt_le in Hxk.
        apply Qle_lteq in Hxk as [Hkx|Hkx]; [assumption|].
        apply Qeq_bool_neq in Heq. symmetry in Hkx. contradiction. }
      constructor; [assumption|].
      apply List.Forall_forall. intros y Hy.
      apply insert_key_In in Hy as [->|Hy]; [assumption|].
      rewrite List.Forall_forall in Hlt. now apply Hlt.
Qed.

Lemma insert_key_covers (x : Q) (keys : list Q) (t : Q) :
  t == x \/ Exists (Qeq t) keys -> Exists (Qeq t) (insert_key x keys).
Proof.
  induction keys as [|k keys IH]; cbn [insert_key].
  - intros [Heq|Hex]; [now constructor | inversion Hex].
  - destruct (Qltb x k); [|destruct (Qeq_bool x k) eqn:Heq].
    + intros [Htx|Hex]; [now constructor | now constructor 2].
    + apply Qeq_bool_iff in Heq.
      intros [Htx|Hex]; [now constructor|].
      inversion Hex as [? ? Htk|? ? Hrest]; subst.
      * constructor. now rewrite Htk, Heq.
      * now constructor 2.
    + intros [Htx|Hex].
      * constructor 2. apply IH. now left.
      * inversion Hex as [? ? Htk|? ? Hrest]; subst.
        -- now constructor.
        -- constructor 2. apply IH. now right.
Qed.

Lemma group_keys_sorted (idx : list Q) : StronglySorted Qlt (group_keys idx).
Proof.
  induction idx as [|x idx IH]; [constructor|].
  cbn [group_keys foldr]. now apply insert_key_sorted.
Qed.

Lemma group_keys_In (idx : list Q) (k : Q) : In k (group_keys idx) -> In k idx.
Proof.
  induction idx as [|x idx IH]; [intros []|].
  cbn [group_keys foldr]. intros Hin.
  apply insert_key_In in Hin as [->|Hin]; [now left | right; now apply IH].
Qed.

Lemma group_keys_covers (idx : list Q) (t : Q) :
  Exists (Qeq t) idx -> Exists (Qeq t) (group_keys idx).
Proof.
  induction idx as [|x idx IH]; intros Hex; [inversion Hex|].
  cbn [group_keys foldr]. apply insert_key_covers.
  inversion Hex; subst; [now left | right; now apply IH].
Qed.

Lemma group_rows_nonempty {R} (k : Q) (df : list (Q * R)) :
  In k (map fst df) -> exists first others, group_rows k df = first :: others.
Proof.
  unfold group_rows. induction df as [|[k' r] df IH]; [intros []|].
  cbn [map fst List.filter]. intros [->|Hin].
  - rewrite (proj2 (Qeq_bool_iff k k)) by reflexivity. cbn. eauto.
  - destruct (Qeq_bool k' k); cbn; eauto.
Qed.

Lemma collapse_keys {R S} (f : list R -> option S) (df : list (Q * R))
  (keys : list Q) :
  (forall k, In k keys -> is_Some (f (group_rows k df))) ->
  map fst (omap (fun k => r ← f (group_rows k df); Some (k, r)) keys) = keys.
Proof.
  induction keys as [|k keys IH]; intros Hall; [reflexivity|].
  cbn [omap list_omap]. destruct (Hall k (or_introl eq_refl)) as [r ->].
  cbn. f_equal. apply IH. intros k' Hk'. apply Hall. now right.
Qed.

Lemma collapse_In {R S} (f : list R -> option S) (df : list (Q * R))
  (keys : list Q) (t : Q) (s : S) :
  In (t, s) (omap (fun k => r ← f (group_rows k df); Some (k, r)) keys) ->
  In t keys /\ f (group_rows t df) = Some s.
Proof.
  induction keys as [|k keys IH]; [intros []|].
  cbn [omap list_omap]. destruct (f (group_rows k df)) as [r|] eqn:Hf; cbn.
  - intros [[= <- <-]|Hin]; [split; [now left | assumption]|].
    destruct (IH Hin). split; [now right | assumption].
  - intros Hin. destruct (IH Hin). split; [now right | assumption].
Qed.

Lemma first_valid_spec {A} (column : list (option A)) (v : A) :
  first_valid column = Some v
  <-> exists i, column !! i = Some (Some v)
               /\ forall i', (i' < i)%nat -> column !! i' = Some None.
Proof.
  unfold first_valid. induction column as [|[a|] column IH].
  - split; [discriminate | intros (i & Hi & _); discriminate].
  - cbn. split.
    + intros [= ->]. exists 0%nat. split; [reflexivity | lia].
    + intros ([|i] & Hi & Hbefore).
      * now injection Hi as ->.
      * specialize (Hbefore 0%nat ltac:(lia)). discriminate.
  - cbn. rewrite IH. split.
    + intros (i & Hi & Hbefore). exists (S i). split; [assumption|].
      intros [|i'] Hlt; [reflexivity | apply Hbefore; lia].
    + intros ([|i] & Hi & Hbefore); [discriminate|].
      exists i. split; [assumption|].
      intros i' Hlt. apply (Hbefore (S i')). lia.
Qed.

Lemma with_tracked_same (r : video_row) : with_tracked r (tracked r) = r.
Proof. now destruct r. Qed.

Lemma first_row_complete (first : video_row) (others : list video_row) :
  Forall is_Some (tracked first) ->
  first_row (first :: others) = Some first.
Proof.
  intros Hall. cbn [first_row]. f_equal.
  rewrite <- (with_tracked_same first) at 3. f_equal.
  apply list_eq. intros j. rewrite lookup_map.
  destruct (tracked first !! j) as [cell|] eqn:Hj.
  - assert (j < length (tracked first))%nat as Hlt by now apply lookup_lt_Some in Hj.
    rewrite lookup_seq_lt by assumption. cbn.
    f_equal. rewrite List.Forall_forall in Hall.
    destruct (Hall cell) as [v ->].
    { apply list_elem_of_In. eapply list_elem_of_lookup_2. exact Hj. }
    unfold first_valid. cbn. rewrite Hj. reflexivity.
  - apply lookup_ge_None in Hj. now rewrite lookup_seq_ge.
Qed.

(** At the wrap of the frame counter of [wrap_data] two frames receive the
    same unwrapped count and so the same corrected time, 24.  The first of
    them has no tracked position, the second one has: the row returned for
    24 carries the frame index of the first and the position of the second,
    and is neither of the two rows. *)
Lemma collapse_does_not_keep_first_row :
  exists rows0 frame t r first,
    outcome (load_video_timestamps wrap_data) = Ok (rows0, [1%nat])
    /\ merge_position_tracking rows0 (Some wrap_tracking)
       = Ok (["xloc"; "yloc"]%string, wrap_rows)
    /\ outcome (get_position_timestamps wrap_data (Some wrap_tracking)
                  wrap_rec_dci wrap_dio wrap_sample_count false)
       = Ok (NonPtpFrame ["xloc"; "yloc"]%string frame)
    /\ Forall2 Qeq (map fst frame) [9; 24; 39]
    /\ frame !! 1%nat = Some (t, r)
    /\ wrap_rows !! 1%nat = Some (2%Z, first)
    /\ tracked first = [None; None]
    /\ video_frame_ind r = video_frame_ind first
    /\ tracked r = [Some 5%Z; Some 6%Z]
    /\ r <> first.
Proof.
  do 5 eexists.
  split; [vm_compute; reflexivity|].
  split; [vm_compute; reflexivity|].
  split; [vm_compute; reflexivity|].
  split; [repeat constructor; reflexivity|].
  split; [reflexivity|].
  split; [reflexivity|].
  split; [reflexivity|].
  split; [reflexivity|].
  split; [reflexivity|].
  discriminate.
Qed.

(** C2, amended.  The corrected times of the segments are concatenated in
    the order of the segments and become the time index of the rows.  The
    collapse does not raise on duplicates and returns one row per distinct
    time, in strictly increasing order of time, so without duplicates.  The
    row of a time takes its hardware count, hardware time, frame index and
    segment label from the first row that carries this time, and every
    tracked column from the first row carrying this time in which the
    column is not missing; it is the first occurrence's row when that row
    misses no value. *)
Theorem collapse_duplicate_times
  (video_timestamps : list (Z * video_row)) (corrected : list (list Q)) :
  corrected <> [] ->
  length (concat corrected) = length video_timestamps ->
  let reindexed := zip (concat corrected) (map snd video_timestamps) in
  exists frame,
    reindex_and_collapse video_timestamps corrected = Ok frame
    /\ StronglySorted Qlt (map fst frame)
    /\ (forall t, Exists (Qeq t) (map fst frame)
                  <-> Exists (Qeq t) (concat corrected))
    /\ forall t r, In (t, r) frame ->
         exists first others,
           occurrences t reindexed = first :: others
           /\ HWframeCount r = HWframeCount first
           /\ HWTimestamp r = HWTimestamp first
           /\ video_frame_ind r = video_frame_ind first
           /\ non_repeat_timestamp_labels r = non_repeat_timestamp_labels first
           /\ length (tracked r) = length (tracked first)
           /\ (forall j, (j < length (tracked first))%nat ->
                 tracked r !! j
                 = Some (first_valid
                           (map (fun g => tracked g !! j ≫= id)
                                (first :: others))))
           /\ (Forall is_Some (tracked first) -> r = first).
Proof.
  intros Hne Hlen reindexed.
  assert (map fst reindexed = concat corrected) as Hidx.
  { apply map_fst_zip. now rewrite length_map. }
  exists (groupby_first reindexed). split; [|split; [|split]].
  - unfold reindex_and_collapse, np_concatenate, set_index.
    destruct corrected as [|c corrected']; [congruence|].
    cbn [mbind result_bind]. rewrite <- Hlen, Nat.eqb_refl. reflexivity.
  - unfold groupby_first. rewrite collapse_keys; [apply group_keys_sorted|].
    intros k Hk. apply group_keys_In in Hk.
    destruct (group_rows_nonempty k reindexed Hk) as (first & others & ->).
    cbn [first_row]. eauto.
  - intros t. unfold groupby_first. rewrite collapse_keys, Hidx.
    + split; [|apply group_keys_covers].
      rewrite !List.Exists_exists. intros (k & Hk & Hkt).
      exists k. split; [now apply group_keys_In | assumption].
    + intros k Hk. apply group_keys_In in Hk.
      destruct (group_rows_nonempty k reindexed Hk) as (first & others & ->).
      cbn [first_row]. eauto.
  - intros t r Hin. unfold groupby_first in Hin.
    apply collapse_In in Hin as [Hkey Hrow].
    apply group_keys_In in Hkey.
    destruct (group_rows_nonempty t reindexed Hkey) as (first & others & Hgroup).
    exists first, others. unfold occurrences. split; [assumption|].
    rewrite Hgroup in Hrow.
    assert (Forall is_Some (tracked first) -> r = first) as Hcomplete.
    { intros Hall. rewrite (first_row_complete first others Hall) in Hrow.
      now injection Hrow. }
    cbn [first_row] in Hrow. injection Hrow as <-.
    cbn [with_tracked HWframeCount HWTimestamp video_frame_ind
         non_repeat_timestamp_labels tracked].
    repeat (split; [reflexivity|]).
    split; [now rewrite length_map, length_seq|].
    split; [|assumption].
    intros j Hj. rewrite lookup_map, lookup_seq_lt by assumption. reflexivity.
Qed.

Lemma collapse_duplicate_times_witness :
  exists frame,
    reindex_and_collapse wrap_rows [[9; 24; 24; 39]] = Ok frame
    /\ StronglySorted Qlt (map fst frame).
Proof.
  destruct (collapse_duplicate_times wrap_rows [[9; 24; 24; 39]])
    as (frame & Hrun & Hsorted & _).
  - discriminate.
  - reflexivity.
  - exists frame. split; assumption.
Defined.

(** Whatever the fallback path returns has a strictly increasing time
    index. *)
Lemma outcome_bind_Ok {A B} (m : logged A) (k : A -> logged B) (b : B) :
  outcome (m ≫= k) = Ok b ->
  exists a, outcome m = Ok a /\ outcome (k a) = Ok b.
Proof.
  destruct m as [l [a|e]]; cbn [mbind logged_bind]; [|discriminate].
  destruct (k a) as [l' r] eqn:Hk. cbn [outcome]. intros ->.
  exists a. rewrite Hk. split; reflexivity.
Qed.

Lemma reindex_and_collapse_sorted
  (video_timestamps : list (Z * video_row)) (corrected : list (list Q))
  (frame : list (Q * video_row)) :
  reindex_and_collapse video_timestamps corrected = Ok frame ->
  StronglySorted Qlt (map fst frame).
Proof.
  unfold reindex_and_collapse.
  destruct (np_concatenate corrected) as [times|]; [|discriminate].
  cbn [mbind result_bind].
  destruct (set_index video_timestamps times) as [df|]; [|discriminate].
  cbn [mbind result_bind]. intros [= <-].
  unfold groupby_first. rewrite collapse_keys; [apply group_keys_sorted|].
  intros k Hk. apply group_keys_In in Hk.
  destruct (group_rows_nonempty k df Hk) as (first & others & ->).
  cbn [first_row]. eauto.
Qed.

Lemma fallback_index_increasing
  (columns : list string) (video_timestamps : list (Z * video_row))
  (ids : list nat) (rec_dci_timestamps dio_camera_timestamps : list Q)
  (sample_count : list Z) (df : position_df) :
  outcome (get_position_timestamps_non_ptp columns video_timestamps ids
             rec_dci_timestamps dio_camera_timestamps sample_count)
  = Ok df ->
  StronglySorted Qlt (position_index df).
Proof.
  unfold get_position_timestamps_non_ptp. intros H.
  apply outcome_bind_Ok in H as (pause & _ & H).
  apply outcome_bind_Ok in H as ([valid camera] & _ & H).
  apply outcome_bind_Ok in H as ([[[dio fc] valid'] camera'] & _ & H).
  apply outcome_bind_Ok in H as (rows & _ & H).
  apply outcome_bind_Ok in H as (_ & _ & H).
  apply outcome_bind_Ok in H as (lag & _ & H).
  apply outcome_bind_Ok in H as (_ & _ & H).
  apply outcome_bind_Ok in H as (corrected & _ & H).
  apply outcome_bind_Ok in H as (frame & Hframe & H).
  cbn in H. injection H as <-. cbn [position_index].
  unfold lift in Hframe. cbn [outcome] in Hframe.
  now apply reindex_and_collapse_sorted in Hframe.
Qed.

(** ** 4.1 Segmentation *)

Open Scope list_scope.
Open Scope nat_scope.

(** ** [scipy.ndimage.label] on a row *)

Lemma length_label_from (prev : bool) (cur : nat) (a : list bool) :
  length (label_from prev cur a) = length a.
Proof.
  revert prev cur. induction a as [|[] a IH]; intros prev cur;
    cbn [label_from length]; auto.
Qed.

Lemma label_from_false (prev : bool) (cur : nat) (a : list bool) (i : nat) :
  a !! i = Some false -> label_from prev cur a !! i = Some 0.
Proof.
  revert prev cur i. induction a as [|x a IH]; intros prev cur [|i] Hi;
    try discriminate.
  - injection Hi as ->. reflexivity.
  - destruct x; cbn [label_from]; apply IH; exact Hi.
Qed.

(** A label is 0 or not below the counter; past a [False] it is above it. *)
Lemma label_from_range (prev : bool) (cur : nat) (a : list bool) (x : nat) :
  In x (label_from prev cur a) ->
  x = 0 \/ (if prev then cur <= x else cur < x).
Proof.
  revert prev cur. induction a as [|b a IH]; intros prev cur; [intros []|].
  destruct b; cbn [label_from].
  - intros [<-|Hin].
    + right. destruct prev; lia.
    + destruct (IH _ _ Hin) as [->|Hle]; [now left|].
      right. cbn in Hle. destruct prev; lia.
  - intros [<-|Hin]; [now left|].
    destruct (IH _ _ Hin) as [->|Hlt]; [now left|].
    right. cbn in Hlt. destruct prev; lia.
Qed.

Lemma label_from_app (prev : bool) (cur : nat) (a b : list bool) :
  label_from prev cur (a ++ b)
  = label_from prev cur a
    ++ label_from (default prev (last a))
                  (cur `max` max_list (label_from prev cur a)) b.
Proof.
  revert prev cur. induction a as [|x a IH]; intros prev cur.
  - cbn. now rewrite Nat.max_0_r.
  - assert (default prev (last (x :: a)) = default x (last a)) as ->.
    { rewrite last_cons. now destruct (last a). }
    destruct x; cbn [app label_from]; rewrite IH; cbn [app max_list max_list_with].
    all: f_equal; f_equal; f_equal; unfold id; destruct prev; lia.
Qed.

Lemma label_from_replicate (prev : bool) (cur n : nat) :
  label_from prev cur (replicate n true)
  = replicate n (if prev then cur else S cur).
Proof.
  destruct n as [|n]; [reflexivity|]. cbn [replicate label_from]. f_equal.
  induction n as [|n IH]; [reflexivity|]. cbn [replicate label_from]. now f_equal.
Qed.

Lemma max_list_replicate (n x : nat) : 0 < n -> max_list (replicate n x) = x.
Proof.
  induction n as [|[|n] IH]; intros Hn; [lia | cbn; lia |].
  rewrite replicate_S. cbn [max_list max_list_with]. rewrite IH by lia.
  unfold id. lia.
Qed.

Lemma count_occ_replicate (n x : nat) :
  count_occ Nat.eq_dec (replicate n x) x = n.
Proof.
  induction n as [|n IH]; [reflexivity|]. cbn [replicate count_occ].
  destruct (Nat.eq_dec x x); [now rewrite IH | congruence].
Qed.

Lemma max_list_bound (l : list nat) (x : nat) : In x l -> x <= max_list l.
Proof. intros Hin. apply max_list_elem_of_le. now apply list_elem_of_In. Qed.

(** The labels of a row cut around one maximal run of [True]. *)
Lemma label_run (before after : list bool) (n : nat) :
  0 < n -> last before <> Some true -> head after <> Some true ->
  let c := S (max_list (label before)) in
  label (before ++ replicate n true ++ after)
  = label before ++ replicate n c ++ label_from true c after
  /\ count_occ Nat.eq_dec (label (before ++ replicate n true ++ after)) c = n.
Proof.
  intros Hn Hlast Hhead c.
  assert (label (before ++ replicate n true ++ after)
          = label before ++ replicate n c ++ label_from true c after) as Heq.
  { unfold label. rewrite !label_from_app, label_from_replicate.
    assert (default false (last before) = false) as ->.
    { destruct (last before) as [[]|]; [congruence | reflexivity | reflexivity]. }
    cbn [Nat.max]. fold (label before). fold c. f_equal. f_equal.
    assert (default false (last (replicate n true)) = true) as ->.
    { destruct n; [lia|]. rewrite replicate_S_end, last_snoc. reflexivity. }
    f_equal. rewrite max_list_replicate by assumption. lia. }
  split; [exact Heq|].
  rewrite Heq, !count_occ_app, count_occ_replicate.
  rewrite (proj1 (count_occ_not_In Nat.eq_dec (label before) c)).
  - rewrite (proj1 (count_occ_not_In Nat.eq_dec (label_from true c after) c)); [lia|].
    destruct after as [|[] after]; [intros [] | now destruct Hhead |].
    cbn [label_from]. intros [Hc|Hin]; [subst c; lia|].
    apply label_from_range in Hin. cbn in Hin. lia.
  - intros Hin. apply max_list_bound in Hin. subst c. lia.
Qed.

(** ** [np.unique] *)

Lemma insert_unique_In (x : nat) (l : list nat) (y : nat) :
  In y (insert_unique x l) <-> y = x \/ In y l.
Proof.
  induction l as [|k l IH]; cbn [insert_unique].
  - cbn. intuition.
  - destruct (Nat.ltb_spec x k); [|destruct (Nat.eqb_spec x k)].
    + cbn. intuition.
    + subst. cbn. intuition.
    + cbn [In]. rewrite IH. intuition.
Qed.

Lemma insert_unique_sorted (x : nat) (l : list nat) :
  StronglySorted lt l -> StronglySorted lt (insert_unique x l).
Proof.
  induction 1 as [|k l Hsorted IH Hlt]; cbn [insert_unique].
  - repeat constructor.
  - destruct (Nat.ltb_spec x k); [|destruct (Nat.eqb_spec x k)].
    + constructor; [now constructor|]. constructor; [assumption|].
      eapply Forall_impl; [exact Hlt|]. intros y Hy. cbn in Hy. lia.
    + now constructor.
    + constructor; [assumption|].
      apply List.Forall_forall. intros y Hy.
      apply insert_unique_In in Hy as [->|Hy]; [lia|].
      rewrite List.Forall_forall in Hlt. now apply Hlt.
Qed.

Lemma np_unique_In (a : list nat) (y : nat) : In y (np_unique a) <-> In y a.
Proof.
  induction a as [|x a IH]; [reflexivity|].
  cbn [np_unique foldr]. fold (np_unique a).
  rewrite insert_unique_In, IH. cbn. intuition.
Qed.

Lemma np_unique_sorted (a : list nat) : StronglySorted lt (np_unique a).
Proof.
  induction a as [|x a IH]; [constructor|].
  cbn [np_unique foldr]. now apply insert_unique_sorted.
Qed.

Lemma filter_sorted (f : nat -> bool) (l : list nat) :
  StronglySorted lt l -> StronglySorted lt (List.filter f l).
Proof.
  induction 1 as [|k l Hsorted IH Hlt]; [constructor|].
  cbn [List.filter]. destruct (f k); [|assumption].
  constructor; [assumption|].
  apply List.Forall_forall. intros y Hy. apply filter_In in Hy as [Hy _].
  rewrite List.Forall_forall in Hlt. now apply Hlt.
Qed.

Lemma select_zip_map {A} (g : A -> nat -> bool) (c : A -> nat) (l : list A) :
  select l (zip_with g l (map c l)) = List.filter (fun x => g x (c x)) l.
Proof.
  induction l as [|x l IH]; [reflexivity|].
  cbn [map zip_with select List.filter]. now rewrite IH.
Qed.

Lemma isin_In (x : nat) (l : list nat) : isin x l = true <-> In x l.
Proof.
  unfold isin. rewrite existsb_exists. split.
  - intros (y & Hy & Heq). apply Nat.eqb_eq in Heq. now subst.
  - intros Hin. exists x. split; [assumption | apply Nat.eqb_refl].
Qed.

(** ** The breaks that remain *)

Lemma isin_long_runs (labels : list nat) (lab : nat) :
  isin lab
    (List.filter
       (fun id => negb (id =? 0) && (2 <? count_occ Nat.eq_dec labels id))
       (np_unique labels))
  = negb (lab =? 0) && (2 <? count_occ Nat.eq_dec labels lab).
Proof.
  apply eq_true_iff_eq. rewrite isin_In, filter_In, np_unique_In.
  split; [tauto|]. intros H. split; [|exact H].
  apply andb_true_iff in H as [_ H]. apply Nat.ltb_lt in H.
  apply (count_occ_In Nat.eq_dec). lia.
Qed.

Lemma keep_long_runs_lookup (flags : list bool) (i : nat) (flag : bool)
  (lab : nat) :
  flags !! i = Some flag -> label flags !! i = Some lab ->
  keep_long_runs flags !! i
  = Some (flag && negb (lab =? 0)
          && (2 <? count_occ Nat.eq_dec (label flags) lab)).
Proof.
  intros Hflag Hlab. unfold keep_long_runs, np_unique_counts.
  rewrite select_zip_map, lookup_zip_with, Hflag. cbn [mbind option_bind].
  rewrite Hlab. cbn [mbind option_bind].
  rewrite isin_long_runs. f_equal.
  destruct flag, (negb (lab =? 0)), (2 <? _); reflexivity.
Qed.

Lemma length_keep_long_runs (flags : list bool) :
  length (keep_long_runs flags) = length flags.
Proof.
  unfold keep_long_runs, np_unique_counts.
  rewrite length_zip_with. unfold label. rewrite length_label_from. lia.
Qed.

Lemma lookup_run {A} (before after : list A) (n i : nat) (x : A) :
  length before <= i < length before + n ->
  (before ++ replicate n x ++ after) !! i = Some x.
Proof.
  intros Hi. rewrite lookup_app_r by lia. rewrite lookup_app_l.
  - apply lookup_replicate_2. lia.
  - rewrite length_replicate. lia.
Qed.

Lemma keep_long_runs_unflagged (flags : list bool) (i : nat) :
  flags !! i = Some false -> keep_long_runs flags !! i = Some false.
Proof.
  intros Hflag.
  destruct (lookup_lt_is_Some_2 (label flags) i) as [lab Hlab].
  { unfold label. rewrite length_label_from. now apply lookup_lt_Some in Hflag. }
  now rewrite (keep_long_runs_lookup flags i false lab).
Qed.

Lemma keep_long_runs_run (before after : list bool) (n i : nat) :
  last before <> Some true -> head after <> Some true ->
  length before <= i < length before + n ->
  keep_long_runs (before ++ replicate n true ++ after) !! i = Some (2 <? n).
Proof.
  intros Hlast Hhead Hi.
  destruct (label_run before after n ltac:(lia) Hlast Hhead) as [Hlabel Hcount].
  cbv zeta in Hlabel, Hcount.
  rewrite (keep_long_runs_lookup _ i true (S (max_list (label before)))).
  - rewrite Hcount. reflexivity.
  - now apply lookup_run.
  - rewrite Hlabel. apply lookup_run.
    unfold label. now rewrite length_label_from.
Qed.

(** ** The labels of the segments *)

Lemma last_map {A B} (f : A -> B) (l : list A) : last (map f l) = f <$> last l.
Proof.
  induction l as [|x [|y l] IH]; [reflexivity | reflexivity |].
  change (map f (x :: y :: l)) with (f x :: f y :: map f l).
  rewrite !last_cons_cons. exact IH.
Qed.

Lemma map_replicate {A B} (f : A -> B) (n : nat) (x : A) :
  map f (replicate n x) = replicate n (f x).
Proof. induction n as [|n IH]; [reflexivity|]. cbn. now rewrite IH. Qed.

Lemma label_segments_break (breaks : list bool) (i : nat) :
  breaks !! i = Some true -> fst (label_segments breaks) !! i = Some 0.
Proof.
  intros Hi. cbn [label_segments fst]. apply label_from_false.
  now rewrite lookup_map, Hi.
Qed.

Lemma label_segments_span (before after : list bool) (n i : nat) :
  last before <> Some false -> head after <> Some false ->
  length before <= i < length before + n ->
  let labels := fst (label_segments (before ++ replicate n false ++ after)) in
  labels !! i = Some (S (max_list (take (length before) labels))).
Proof.
  intros Hlast Hhead Hi. cbn [label_segments fst]. cbv zeta.
  rewrite !map_app, map_replicate. cbn [negb].
  destruct (label_run (map negb before) (map negb after) n) as [Hlabel _].
  - lia.
  - rewrite last_map. destruct (last before) as [[]|]; [discriminate | now destruct Hlast | discriminate].
  - destruct after as [|[] after]; [discriminate | discriminate | now destruct Hhead].
  - cbv zeta in Hlabel. rewrite Hlabel.
    rewrite take_app_length'
      by (unfold label; now rewrite length_label_from, length_map).
    apply lookup_run. unfold label. now rewrite length_label_from, length_map.
Qed.

Lemma label_segments_ids (breaks : list bool) :
  let '(labels, ids) := label_segments breaks in
  StronglySorted lt ids /\ forall v, In v ids <-> 0 < v /\ In v labels.
Proof.
  cbn [label_segments]. split.
  - apply filter_sorted, np_unique_sorted.
  - intros v. rewrite filter_In, np_unique_In, negb_true_iff, Nat.eqb_neq.
    intuition lia.
Qed.

(** ** The flags *)

Lemma length_detect_repeat_timestamps (ts : list Z) :
  length (detect_repeat_timestamps ts) = S (length ts - 1).
Proof.
  destruct ts as [|a ts]; [reflexivity|].
  rewrite detect_repeat_timestamps_cons. cbn [length].
  rewrite length_zip_cons. lia.
Qed.

Lemma length_find_large_frame_jumps (frame_count : list Z) (jump : Z) :
  length (find_large_frame_jumps frame_count jump) = S (length frame_count - 1).
Proof.
  unfold find_large_frame_jumps, np_diff. cbn [length].
  rewrite length_map. destruct frame_count as [|a l]; [reflexivity|].
  cbn [tail]. rewrite length_zip_cons. cbn [length]. lia.
Qed.

Lemma repeat_or_jump_flags_union (trodes_time frame_count : list Z) :
  length trodes_time = length frame_count ->
  repeat_or_jump_flags trodes_time frame_count
  = Ok (zip_with orb (detect_repeat_timestamps trodes_time)
                     (find_large_frame_jumps frame_count default_min_frame_jump)).
Proof.
  intros Hlen. unfold repeat_or_jump_flags, np_logical_or, broadcast2.
  rewrite length_detect_repeat_timestamps, length_find_large_frame_jumps, Hlen.
  now rewrite Nat.eqb_refl.
Qed.

Example detect_trodes_time_repeats_or_frame_jumps_test :
  detect_trodes_time_repeats_or_frame_jumps
    [1; 2; 2; 3; 4; 5]%Z [0; 10; 20; 30; 40; 1000]%Z
  = Ok ([1; 1; 1; 1; 1; 1], [1])
  /\ detect_trodes_time_repeats_or_frame_jumps
       [1; 2; 3; 3; 3; 3; 4; 5]%Z [0; 1; 2; 3; 4; 5; 6; 7]%Z
     = Ok ([1; 1; 1; 0; 0; 0; 2; 2], [1; 2]).
Proof. split; reflexivity. Qed.

(** Without a sample each detector still returns one flag, which is
    labelled as a segment of its own; stored in the table without rows it
    makes a row whose other columns are [nan]. *)
Example segmentation_of_no_sample :
  detect_trodes_time_repeats_or_frame_jumps [] [] = Ok ([1], [1])
  /\ outcome (load_video_timestamps []) = Raise NotFinite.
Proof. split; reflexivity. Qed.

(** C7.  For a trodes time column and a frame count column of one length,
    the flags are the union of the repeated-timestamp flags and the
    large-jump flags.  Every maximal run of flagged positions is un-flagged
    as a whole when it has at most 2 members and stays flagged when it has
    more; unflagged positions stay so.  The samples of a remaining break
    are labelled 0; every maximal span of samples outside the breaks
    receives one new label, one more than the largest label to its left,
    hence 1, 2, 3, ... from left to right.  The second result holds the
    positive labels that occur, in increasing order and once each. *)
Theorem segmentation_correct (trodes_time frame_count : list Z) :
  length trodes_time = length frame_count ->
  exists flags breaks labels ids,
    repeat_or_jump_flags trodes_time frame_count = Ok flags
    /\ flags = zip_with orb (detect_repeat_timestamps trodes_time)
                            (find_large_frame_jumps frame_count 15)
    /\ detect_trodes_time_repeats_or_frame_jumps trodes_time frame_count
       = Ok (labels, ids)
    /\ (trodes_time <> [] -> length labels = length trodes_time)
    /\ length breaks = length flags /\ length labels = length flags
    /\ (forall i, flags !! i = Some false -> breaks !! i = Some false)
    /\ (forall before n after i,
          flags = before ++ replicate n true ++ after ->
          last before <> Some true -> head after <> Some true ->
          length before <= i < length before + n ->
          breaks !! i = Some (2 <? n))
    /\ (forall i, breaks !! i = Some true -> labels !! i = Some 0)
    /\ (forall before n after i,
          breaks = before ++ replicate n false ++ after ->
          last before <> Some false -> head after <> Some false ->
          length before <= i < length before + n ->
          labels !! i = Some (S (max_list (take (length before) labels))))
    /\ StronglySorted lt ids
    /\ (forall v, In v ids <-> 0 < v /\ In v labels).
Proof.
  intros Hlen.
  pose proof (repeat_or_jump_flags_union trodes_time frame_count Hlen) as Hflags.
  set (flags := zip_with orb (detect_repeat_timestamps trodes_time)
                  (find_large_frame_jumps frame_count default_min_frame_jump))
    in *.
  set (breaks := keep_long_runs flags).
  exists flags, breaks, (fst (label_segments breaks)), (snd (label_segments breaks)).
  assert (length (fst (label_segments breaks)) = length flags) as Hlabels.
  { cbn [label_segments fst]. unfold label.
    rewrite length_label_from, length_map. apply length_keep_long_runs. }
  split; [exact Hflags|]. split; [reflexivity|].
  split.
  { unfold detect_trodes_time_repeats_or_frame_jumps. rewrite Hflags.
    cbn [mbind result_bind]. fold breaks. now destruct (label_segments breaks). }
  split.
  { intros Hne. rewrite Hlabels. unfold flags.
    rewrite length_zip_with, length_detect_repeat_timestamps,
      length_find_large_frame_jumps, <- Hlen.
    destruct trodes_time; [congruence | cbn [length]; lia]. }
  split; [apply length_keep_long_runs|]. split; [exact Hlabels|].
  split; [apply keep_long_runs_unflagged|].
  split.
  { intros before n after i Hsplit Hlast Hhead Hi. unfold breaks.
    rewrite Hsplit. now apply keep_long_runs_run. }
  split; [apply label_segments_break|].
  split.
  { intros before n after i Hsplit Hlast Hhead Hi. rewrite Hsplit.
    now apply label_segments_span. }
  pose proof (label_segments_ids breaks) as Hids.
  destruct (label_segments breaks) as [labels ids]. exact Hids.
Qed.

Lemma segmentation_correct_witness :
  exists labels ids,
    detect_trodes_time_repeats_or_frame_jumps
      [1; 2; 2; 3; 4; 5]%Z [0; 10; 20; 30; 40; 1000]%Z
    = Ok (labels, ids)
    /\ StronglySorted lt ids.
Proof.
  destruct (segmentation_correct [1; 2; 2; 3; 4; 5]%Z
              [0; 10; 20; 30; 40; 1000]%Z eq_refl)
    as (flags & breaks & labels & ids & _ & _ & Hrun & H).
  exists labels, ids. split; [exact Hrun | apply H].
Defined.

(** * Further properties of the module *)

(** ** The two detectors on a sequence with a first element *)

Open Scope Z_scope.

Lemma detect_repeat_timestamps_nonempty_witness :
  length (detect_repeat_timestamps [3; 3; 4]) = length [3; 3; 4]
  /\ detect_repeat_timestamps [3; 3; 4] !! 0%nat = Some false
  /\ forall i a b, [3; 3; 4] !! i = Some a -> [3; 3; 4] !! S i = Some b ->
       detect_repeat_timestamps [3; 3; 4] !! S i = Some (a >=? b).
Proof. apply (detect_repeat_timestamps_nonempty [3; 3; 4]). discriminate. Defined.

(** X2.  On a frame count column with at least one entry,
    [find_large_frame_jumps] returns as many flags as there are frames, the
    first one false, and flags frame [i+1] exactly when its count exceeds
    the count of frame [i] by more than [min_frame_jump]; a decrease of the
    count, however large, is never flagged when [min_frame_jump] is not
    negative. *)
Theorem find_large_frame_jumps_nonempty (frame_count : list Z) (min_frame_jump : Z) :
  frame_count <> [] ->
  length (find_large_frame_jumps frame_count min_frame_jump) = length frame_count
  /\ find_large_frame_jumps frame_count min_frame_jump !! 0%nat = Some false
  /\ (forall i a b, frame_count !! i = Some a -> frame_count !! S i = Some b ->
        find_large_frame_jumps frame_count min_frame_jump !! S i
        = Some (min_frame_jump <? b - a))
  /\ (0 <= min_frame_jump ->
      forall i a b, frame_count !! i = Some a -> frame_count !! S i = Some b ->
        b <= a ->
        find_large_frame_jumps frame_count min_frame_jump !! S i = Some false).
Proof.
  destruct frame_count as [|c frame_count]; [congruence|]. intros _.
  assert (forall i a b, (c :: frame_count) !! i = Some a ->
            (c :: frame_count) !! S i = Some b ->
            find_large_frame_jumps (c :: frame_count) min_frame_jump !! S i
            = Some (min_frame_jump <? b - a)) as Hflag.
  { intros i a b Ha Hb. unfold find_large_frame_jumps, np_diff.
    cbn [tail].
    change ((map (fun d => min_frame_jump <? d)
               (zip_with (fun x y => y - x) (c :: frame_count) frame_count)) !! i
            = Some (min_frame_jump <? b - a)).
    rewrite lookup_map.
    rewrite (lookup_zip_cons _ c frame_count i a b Ha Hb). reflexivity. }
  split; [|split; [reflexivity|split; [exact Hflag|]]].
  - rewrite length_find_large_frame_jumps. cbn [length]. lia.
  - intros Hmin i a b Ha Hb Hle. rewrite (Hflag i a b Ha Hb). f_equal.
    apply Z.ltb_ge. lia.
Qed.

Lemma find_large_frame_jumps_nonempty_witness :
  find_large_frame_jumps [5; 10; 30; 40; 70] 15 !! 0%nat = Some false.
Proof.
  refine (proj1 (proj2 (find_large_frame_jumps_nonempty [5; 10; 30; 40; 70] 15 _))).
  discriminate.
Defined.

(** ** [np.sort] and [np.median] *)

Open Scope Q_scope.

Lemma insert_sorted_In (x : Q) (l : list Q) (y : Q) :
  In y (insert_sorted x l) <-> y = x \/ In y l.
Proof.
  induction l as [|k l IH]; cbn [insert_sorted].
  - cbn. intuition.
  - destruct (Qle_bool x k); cbn [In]; [|rewrite IH]; intuition.
Qed.

Lemma np_sort_In (a : list Q) (y : Q) : In y (np_sort a) <-> In y a.
Proof.
  induction a as [|x a IH]; [reflexivity|].
  cbn [np_sort foldr]. fold (np_sort a).
  rewrite insert_sorted_In, IH. cbn. intuition.
Qed.

Lemma length_insert_sorted (x : Q) (l : list Q) :
  length (insert_sorted x l) = S (length l).
Proof.
  induction l as [|k l IH]; [reflexivity|].
  cbn [insert_sorted]. destruct (Qle_bool x k); cbn [length]; [|rewrite IH];
    reflexivity.
Qed.

Lemma length_np_sort (a : list Q) : length (np_sort a) = length a.
Proof.
  induction a as [|x a IH]; [reflexivity|].
  cbn [np_sort foldr]. fold (np_sort a).
  rewrite length_insert_sorted. cbn [length]. now rewrite IH.
Qed.

Lemma sorted_entry (a : list Q) (i : nat) (P : Q -> Prop) :
  (i < length a)%nat -> Forall P a ->
  exists x, getitem (np_sort a) i = Ok x /\ P x.
Proof.
  intros Hi Hall.
  destruct (lookup_lt_is_Some_2 (np_sort a) i) as [x Hx].
  { now rewrite length_np_sort. }
  exists x. unfold getitem. rewrite Hx. split; [reflexivity|].
  rewrite List.Forall_forall in Hall. apply Hall, np_sort_In.
  apply list_elem_of_In. eapply list_elem_of_lookup_2. exact Hx.
Qed.

(** The median of an array with at least one entry lies within any bounds
    of its entries. *)
Lemma np_median_bounds (a : list Q) (lo hi : Q) :
  a <> [] -> Forall (fun x => lo <= x /\ x <= hi) a ->
  exists m, np_median a = Ok m /\ lo <= m /\ m <= hi.
Proof.
  intros Hne Hall. unfold np_median.
  assert (0 < length a)%nat as Hlen by (destruct a; [congruence | cbn; lia]).
  destruct (Nat.eqb_spec (length a) 0) as [|_]; [lia|].
  destruct (Nat.odd (length a)) eqn:Hodd.
  - destruct (sorted_entry a (length a / 2) _ ltac:(apply Nat.div_lt; lia) Hall)
      as (x & -> & Hx).
    eauto.
  - assert (2 <= length a)%nat as H2.
    { destruct (length a) as [|[|n]]; [lia | discriminate | lia]. }
    assert (length a / 2 < length a)%nat as Hhi by (apply Nat.div_lt; lia).
    destruct (sorted_entry a (length a / 2 - 1) _ ltac:(lia) Hall)
      as (x & -> & Hxlo & Hxhi).
    destruct (sorted_entry a (length a / 2) _ Hhi Hall) as (y & -> & Hylo & Hyhi).
    cbn [mbind result_bind]. eexists. split; [reflexivity|].
    split.
    + apply Qle_shift_div_l; [reflexivity | lra].
    + apply Qle_shift_div_r; [reflexivity | lra].
Qed.

Lemma np_median_constant (a : list Q) (c : Q) :
  a <> [] -> Forall (fun x => x == c) a ->
  exists m, np_median a = Ok m /\ m == c.
Proof.
  intros Hne Hall.
  destruct (np_median_bounds a c c Hne) as (m & Hm & Hlo & Hhi).
  - eapply Forall_impl; [exact Hall|]. intros x Hx. cbn in Hx.
    rewrite Hx. split; apply Qle_refl.
  - exists m. split; [assumption | now apply Qle_antisym].
Qed.

Lemma length_np_diffQ (a : list Q) : length (np_diffQ a) = (length a - 1)%nat.
Proof.
  unfold np_diffQ. destruct a as [|x a]; [reflexivity|].
  cbn [tail]. rewrite length_zip_cons. cbn [length]. lia.
Qed.

(** ** [get_framerate] *)

(** X3.  For timestamps in nanoseconds that are evenly spaced, at least two
    of them and [step] apart with [step] not zero, [get_framerate] returns
    [1e9 / step] frames per second; with fewer than two timestamps there is
    no difference to take the median of and the result is not a number. *)
Theorem get_framerate_evenly_spaced (timestamps : list Q) (step : Q) :
  ((length timestamps < 2)%nat -> get_framerate timestamps = Raise NotFinite)
  /\ ((2 <= length timestamps)%nat -> ~ step == 0 ->
      (forall i a b, timestamps !! i = Some a -> timestamps !! S i = Some b ->
                     b - a == step) ->
      exists rate, get_framerate timestamps = Ok rate
                   /\ rate == NANOSECONDS_PER_SECOND / step).
Proof.
  split.
  - intros Hlen. unfold get_framerate, np_median.
    rewrite length_np_diffQ.
    destruct (Nat.eqb_spec (length timestamps - 1) 0) as [_|]; [reflexivity | lia].
  - intros Hlen Hstep Heven. unfold get_framerate.
    destruct (np_median_constant (np_diffQ timestamps) step) as (m & -> & Hm).
    + intros Hnil. apply (f_equal length) in Hnil.
      rewrite length_np_diffQ in Hnil. cbn in Hnil. lia.
    + apply Forall_lookup. intros i d Hd. rewrite lookup_np_diffQ in Hd.
      destruct (timestamps !! i) as [a|] eqn:Ha; [|discriminate].
      destruct (timestamps !! S i) as [b|] eqn:Hb; [|discriminate].
      injection Hd as <-. now apply (Heven i).
    + cbn [mbind result_bind].
      destruct (Qeq_bool m 0) eqn:Hzero.
      * apply Qeq_bool_iff in Hzero. rewrite Hm in Hzero. contradiction.
      * eexists. split; [reflexivity|]. now rewrite Hm.
Qed.

Lemma get_framerate_evenly_spaced_witness :
  exists rate,
    get_framerate [0; 1000000000; 2000000000; 3000000000] = Ok rate
    /\ rate == NANOSECONDS_PER_SECOND / 1000000000.
Proof.
  refine (proj2 (get_framerate_evenly_spaced
                   [0; 1000000000; 2000000000; 3000000000] 1000000000) _ _ _).
  - cbn. lia.
  - discriminate.
  - intros [|[|[|i]]] a b Ha Hb; try discriminate;
      injection Ha as <-; injection Hb as <-; reflexivity.
Defined.

(** ** [estimate_camera_to_mcu_lag] on a constant offset *)

(** X4.  When the camera times exceed the pulse times by one and the same
    offset, sample by sample, and there is a pulse for every camera sample,
    [estimate_camera_to_mcu_lag] returns that offset whatever [n_breaks] is:
    the median branch and the first-sample branch agree. *)
Theorem estimate_lag_constant_offset
  (camera_systime dio_systime : list Q) (offset : Q) (n_breaks : nat) :
  camera_systime <> [] ->
  (length camera_systime <= length dio_systime)%nat ->
  (forall i c d, camera_systime !! i = Some c -> dio_systime !! i = Some d ->
                 c - d == offset) ->
  exists lag,
    estimate_camera_to_mcu_lag camera_systime dio_systime n_breaks = Ok lag
    /\ lag == offset.
Proof.
  intros Hne Hlen Hoffset. unfold estimate_camera_to_mcu_lag.
  destruct (n_breaks =? 0)%nat.
  - unfold broadcast2.
    rewrite length_take_le, Nat.eqb_refl by assumption.
    cbn [mbind result_bind]. apply np_median_constant.
    + intros Hnil. apply (f_equal length) in Hnil.
      rewrite length_zip_with, length_take_le in Hnil by assumption.
      destruct camera_systime; [congruence | cbn in Hnil; lia].
    + apply Forall_lookup. intros i x Hx.
      apply lookup_zip_with_Some in Hx as (c & d & -> & Hc & Hd).
      apply lookup_take_Some in Hd as [Hd _]. now apply (Hoffset i).
  - destruct camera_systime as [|c0 camera]; [congruence|].
    destruct dio_systime as [|d0 dio]; [cbn in Hlen; lia|].
    cbn. eexists. split; [reflexivity|]. now apply (Hoffset 0%nat).
Qed.

Lemma estimate_lag_constant_offset_witness :
  exists lag,
    estimate_camera_to_mcu_lag [1000; 2000; 3000] [900; 1900; 2900; 3900] 0 = Ok lag
    /\ lag == 100.
Proof.
  refine (estimate_lag_constant_offset [1000; 2000; 3000]
            [900; 1900; 2900; 3900] 100 0 _ _ _).
  - discriminate.
  - cbn. lia.
  - intros [|[|[|i]]] c d Hc Hd; try discriminate;
      injection Hc as <-; injection Hd as <-; reflexivity.
Defined.

(** ** [remove_acquisition_timing_pause_non_ptp] *)

Lemma length_assign_where_true (mask keep : list bool) :
  length (assign_where_true mask keep) = length mask.
Proof.
  revert keep. induction mask as [|[] mask IH]; intros keep; [reflexivity| |].
  - destruct keep; cbn [assign_where_true length]; now rewrite IH.
  - cbn [assign_where_true length]. now rewrite IH.
Qed.

Lemma assign_where_true_only_clears (mask keep : list bool) (i : nat) :
  assign_where_true mask keep !! i = Some true -> mask !! i = Some true.
Proof.
  revert keep i. induction mask as [|b mask IH]; intros keep i; [discriminate|].
  destruct b; cbn [assign_where_true].
  - destruct i as [|i]; [reflexivity|].
    destruct keep as [|k keep]; cbn [lookup list_lookup]; apply IH.
  - destruct i as [|i]; [discriminate|]. cbn [lookup list_lookup]. apply IH.
Qed.

Lemma count_assign_where_true (mask keep : list bool) :
  length (List.filter id mask) = length keep ->
  length (List.filter id (assign_where_true mask keep))
  = length (List.filter id keep).
Proof.
  revert keep. induction mask as [|b mask IH]; intros keep Hlen.
  - destruct keep; [reflexivity | discriminate].
  - destruct b; cbn [assign_where_true List.filter] in *.
    + change (id true) with true in Hlen. cbn iota in Hlen.
      destruct keep as [|k keep]; [discriminate|].
      injection Hlen as Hlen. cbn [List.filter].
      change (id k) with k. destruct k; cbn [length]; rewrite (IH keep Hlen);
        reflexivity.
    + change (id false) with false in *. cbn iota in *. now apply IH.
Qed.

Lemma select_assign_where_true {A} (l : list A) (mask keep : list bool) :
  length l = length mask ->
  length (List.filter id mask) = length keep ->
  select l (assign_where_true mask keep) = select (select l mask) keep.
Proof.
  revert mask keep. induction l as [|x l IH]; intros [|b mask] keep Hl Hk;
    try discriminate.
  - destruct keep; [reflexivity | discriminate].
  - injection Hl as Hl. destruct b; cbn [assign_where_true select List.filter] in *.
    + change (id true) with true in Hk. cbn iota in Hk.
      destruct keep as [|k keep]; [discriminate|]. injection Hk as Hk.
      cbn [select]. destruct k; rewrite (IH mask keep Hl Hk); reflexivity.
    + change (id false) with false in Hk. cbn iota in Hk. now apply IH.
Qed.

Lemma Forall_filter_Qltb (lo : Q) (l : list Q) :
  Forall (fun t => lo < t) (List.filter (Qltb lo) l).
Proof.
  apply List.Forall_forall. intros t Ht. apply filter_In in Ht as [_ Ht].
  now apply Qltb_lt.
Qed.

(** X5.  When there is one frame count per validity flag and one camera
    time per valid frame, [remove_acquisition_timing_pause_non_ptp] succeeds
    and keeps its four results aligned: the pulses and the camera times
    that remain are all later than the pause, the mask keeps its length and
    only loses flags, and the frame counts and camera times that remain are
    those of the frames the new mask marks, as many of one as of the
    other. *)
Theorem remove_pause_keeps_alignment
  (dio_systime : list Q) (frame_count : list Z) (camera_systime : list Q)
  (is_valid_camera_time : list bool) (pause_mid_time : Q) :
  length frame_count = length is_valid_camera_time ->
  length (List.filter id is_valid_camera_time) = length camera_systime ->
  exists dio' frame_count' valid' camera',
    remove_acquisition_timing_pause_non_ptp dio_systime frame_count
      camera_systime is_valid_camera_time pause_mid_time
    = Ok (dio', frame_count', valid', camera')
    /\ Forall (fun t => pause_mid_time < t) dio'
    /\ Forall (fun t => pause_mid_time < t) camera'
    /\ length valid' = length is_valid_camera_time
    /\ (forall i, valid' !! i = Some true ->
                  is_valid_camera_time !! i = Some true)
    /\ frame_count' = select frame_count valid'
    /\ camera' = select camera_systime (map (Qltb pause_mid_time) camera_systime)
    /\ length frame_count' = length camera'
    /\ length (List.filter id valid') = length camera'.
Proof.
  intros Hfc Hcam.
  set (keep := map (Qltb pause_mid_time) camera_systime).
  assert (length keep = length camera_systime) as Hkeep
      by (unfold keep; now rewrite length_map).
  assert (length (select frame_count is_valid_camera_time) = length keep) as Hsel.
  { rewrite length_select by assumption. congruence. }
  unfold remove_acquisition_timing_pause_non_ptp, np_mask. fold keep.
  rewrite Hfc, Nat.eqb_refl. cbn [mbind result_bind].
  rewrite Hsel, Nat.eqb_refl. cbn [mbind result_bind].
  rewrite Hcam, <- Hkeep, Nat.eqb_refl. cbn [mbind result_bind].
  do 4 eexists. split; [reflexivity|].
  split; [apply Forall_filter_Qltb|]. split; [apply Forall_filter_Qltb|].
  split; [apply length_assign_where_true|].
  split; [intros i; apply assign_where_true_only_clears|].
  split; [symmetry; apply select_assign_where_true; congruence|].
  split; [unfold keep; now rewrite select_map_filter|].
  assert (length (List.filter (Qltb pause_mid_time) camera_systime)
          = length (List.filter id keep)) as Hcount.
  { unfold keep. now rewrite count_true_map. }
  split.
  - rewrite length_select by assumption. now rewrite Hcount.
  - rewrite count_assign_where_true by congruence. now rewrite Hcount.
Qed.

Lemma remove_pause_keeps_alignment_witness :
  exists dio' frame_count' valid' camera',
    remove_acquisition_timing_pause_non_ptp [100; 200; 300] [5; 10; 15]%Z
      [50; 150; 250] [true; true; true] 150
    = Ok (dio', frame_count', valid', camera')
    /\ length frame_count' = length camera'.
Proof.
  destruct (remove_pause_keeps_alignment [100; 200; 300] [5; 10; 15]%Z
              [50; 150; 250] [true; true; true] 150 eq_refl eq_refl)
    as (dio' & fc' & valid' & camera' & Hrun & _ & _ & _ & _ & _ & _ & Hlen & _).
  exists dio', fc', valid', camera'. split; assumption.
Defined.

(** ** [correct_timestamps_for_camera_to_mcu_lag] *)

Open Scope list_scope.
Open Scope Q_scope.

Lemma count_Q (n : nat) :
  inject_Z (Z.of_nat (S n)) == inject_Z (Z.of_nat n) + 1.
Proof. rewrite Nat2Z.inj_succ. unfold Z.succ. now rewrite inject_Z_plus. Qed.

Lemma count_Q_pos (n : nat) : (0 < n)%nat -> 0 < inject_Z (Z.of_nat n).
Proof.
  intros Hn. change 0 with (inject_Z 0). rewrite <- Zlt_Qlt. lia.
Qed.

Lemma sum_affine (a b : Q) (x y : list Q) :
  Forall2 (fun u v => v == a + b * u) x y ->
  foldr Qplus 0 y == a * inject_Z (Z.of_nat (length x)) + b * foldr Qplus 0 x.
Proof.
  induction 1 as [|u v x y Huv _ IH].
  - cbn. ring.
  - cbn [foldr length]. rewrite count_Q, IH, Huv. ring.
Qed.

Lemma sum_products (b xm ym : Q) (a : Q) (x y : list Q) :
  ym == a + b * xm ->
  Forall2 (fun u v => v == a + b * u) x y ->
  foldr Qplus 0 (zip_with (fun u v => (u - xm) * (v - ym)) x y)
  == b * foldr Qplus 0 (map (fun u => (u - xm) * (u - xm)) x).
Proof.
  intros Hym. induction 1 as [|u v x y Huv _ IH].
  - cbn. ring.
  - cbn [zip_with map foldr]. rewrite IH, Huv, Hym. ring.
Qed.

Lemma Qsquare_pos (q : Q) : ~ q == 0 -> 0 < q * q.
Proof.
  intros Hne. destruct (Q_dec q 0) as [[Hlt|Hgt]|Heq]; [| |contradiction].
  - assert (q * q == (- q) * (- q)) as -> by ring.
    apply Qmult_lt_0_compat; lra.
  - now apply Qmult_lt_0_compat.
Qed.

Lemma Qsquare_nonneg (q : Q) : 0 <= q * q.
Proof.
  destruct (Qeq_dec q 0) as [->|Hne]; [discriminate|].
  apply Qlt_le_weak. now apply Qsquare_pos.
Qed.

Lemma sum_squares_nonneg (xm : Q) (x : list Q) :
  0 <= foldr Qplus 0 (map (fun u => (u - xm) * (u - xm)) x).
Proof.
  induction x as [|u x IH]; [apply Qle_refl|].
  cbn [map foldr]. pose proof (Qsquare_nonneg (u - xm)). lra.
Qed.

Lemma sum_squares_pos (xm : Q) (x : list Q) (u : Q) :
  In u x -> ~ u == xm ->
  0 < foldr Qplus 0 (map (fun u => (u - xm) * (u - xm)) x).
Proof.
  induction x as [|w x IH]; [intros []|].
  intros [->|Hin] Hne; cbn [map foldr].
  - pose proof (sum_squares_nonneg xm x) as Hrest.
    assert (0 < (u - xm) * (u - xm)); [|lra].
    apply Qsquare_pos. intros Heq. apply Hne. lra.
  - specialize (IH Hin Hne). pose proof (Qsquare_nonneg (w - xm)). lra.
Qed.

Lemma np_mean_sum (l : list Q) (n : nat) :
  length l = n -> np_mean l = foldr Qplus 0 l / inject_Z (Z.of_nat n).
Proof. intros <-. reflexivity. Qed.

Lemma linregress_exact (x y : list Q) (a b : Q) :
  Forall2 (fun u v => v == a + b * u) x y ->
  (exists u w, In u x /\ In w x /\ ~ u == w) ->
  exists slope intercept,
    linregress x y = Ok (slope, intercept) /\ slope == b /\ intercept == a.
Proof.
  intros Hline (u & w & Hu & Hw & Huw).
  pose proof (Forall2_length _ _ _ Hline) as Hlen.
  assert (forallb (fun v => Qeq_bool v (hd 0 x)) x = false) as Hdistinct.
  { apply not_true_is_false. intros Hall.
    rewrite forallb_forall in Hall. apply Huw.
    transitivity (hd 0 x); [|symmetry]; apply Qeq_bool_iff, Hall; assumption. }
  assert (2 <= length x)%nat as Hn.
  { destruct x as [|x0 [|x1 x]]; [destruct Hu | | cbn; lia].
    destruct Hu as [<-|[]], Hw as [<-|[]]. now destruct Huw. }
  set (n := inject_Z (Z.of_nat (length x))).
  assert (0 < n) as Hpos by (apply count_Q_pos; lia).
  unfold linregress.
  destruct (Nat.eqb_spec (length x) 0) as [|_]; [lia|].
  destruct (Nat.eqb_spec (length y) 0) as [|_]; [lia|].
  cbn [orb]. rewrite Hdistinct, andb_false_r.
  rewrite <- Hlen, Nat.eqb_refl. cbn [negb].
  destruct (Nat.eqb_spec (length x) 1) as [|_]; [lia|].
  rewrite (np_mean_sum x (length x) eq_refl).
  rewrite (np_mean_sum y (length x)) by congruence.
  rewrite (np_mean_sum (map _ x) (length x)) by now rewrite length_map.
  rewrite (np_mean_sum (zip_with _ x y) (length x))
    by (rewrite length_zip_with; lia).
  fold n.
  set (xm := foldr Qplus 0 x / n).
  set (ym := foldr Qplus 0 y / n).
  assert (ym == a + b * xm) as Hym.
  { unfold ym, xm. rewrite (sum_affine a b x y Hline). fold n. field. lra. }
  pose proof (sum_products b xm ym a x y Hym Hline) as Hxy.
  assert (0 < foldr Qplus 0 (map (fun u => (u - xm) * (u - xm)) x)) as Hxx.
  { destruct (Qeq_dec u xm) as [Heq|Hne].
    - apply (sum_squares_pos xm x w Hw). intros Hweq. apply Huw.
      now rewrite Heq, Hweq.
    - now apply (sum_squares_pos xm x u Hu). }
  set (sxx := foldr Qplus 0 (map (fun u => (u - xm) * (u - xm)) x)) in *.
  set (sxy := foldr Qplus 0 (zip_with (fun u v => (u - xm) * (v - ym)) x y)) in *.
  assert (sxy / n / (sxx / n) == b) as Hslope.
  { rewrite Hxy. field. split; lra. }
  do 2 eexists. split; [reflexivity|]. split; [exact Hslope|].
  rewrite Hslope, Hym. ring.
Qed.

Lemma Forall2_map_both {A B C D} (R : C -> D -> Prop) (R' : A -> B -> Prop)
  (f : A -> C) (g : B -> D) (l : list A) (k : list B) :
  (forall x y, R' x y -> R (f x) (g y)) ->
  Forall2 R' l k -> Forall2 R (map f l) (map g k).
Proof. intros Himp. induction 1; constructor; auto. Qed.

(** X6.  When the camera times less the lag lie exactly on a line
    [a + b * frame_count] and at least two frame counts differ,
    [correct_timestamps_for_camera_to_mcu_lag] finds that line: every
    corrected time is [a + b * frame_count], the camera time less the
    lag. *)
Theorem correction_recovers_line
  (frame_count : list Z) (camera_systime : list Q) (lag a b : Q) :
  Forall2 (fun c t => t - lag == a + b * inject_Z c) frame_count camera_systime ->
  (exists i j ci cj, frame_count !! i = Some ci /\ frame_count !! j = Some cj
                     /\ ci <> cj) ->
  exists corrected,
    correct_timestamps_for_camera_to_mcu_lag frame_count camera_systime lag
    = Ok corrected
    /\ Forall2 (fun c t' => t' == a + b * inject_Z c) frame_count corrected
    /\ Forall2 (fun t t' => t' == t - lag) camera_systime corrected.
Proof.
  intros Hline (i & j & ci & cj & Hi & Hj & Hne).
  unfold correct_timestamps_for_camera_to_mcu_lag.
  destruct (linregress_exact (map inject_Z frame_count)
              (map (fun t => t - lag) camera_systime) a b)
    as (slope & intercept & -> & Hslope & Hintercept).
  - eapply Forall2_map_both; [|exact Hline]. auto.
  - exists (inject_Z ci), (inject_Z cj).
    split; [|split].
    + apply in_map, list_elem_of_In. eapply list_elem_of_lookup_2. exact Hi.
    + apply in_map, list_elem_of_In. eapply list_elem_of_lookup_2. exact Hj.
    + intros Heq. apply Hne. apply inject_Z_injective. exact Heq.
  - cbn [mbind result_bind]. eexists. split; [reflexivity|].
    assert (forall c, intercept + inject_Z c * slope == a + b * inject_Z c) as Hc.
    { intros c. rewrite Hslope, Hintercept. ring. }
    split.
    + rewrite map_map. clear -Hc.
      induction frame_count; constructor; auto.
    + rewrite map_map. clear -Hc Hline.
      induction Hline as [|c t fc cam Hct _ IH]; constructor; [|exact IH].
      rewrite Hc. now symmetry.
Qed.

Lemma correction_recovers_line_witness :
  exists corrected,
    correct_timestamps_for_camera_to_mcu_lag [0; 1; 2; 3; 4]%Z
      [10; 20; 30; 40; 50] 10
    = Ok corrected
    /\ Forall2 (fun t t' => t' == t - 10) [10; 20; 30; 40; 50] corrected.
Proof.
  destruct (correction_recovers_line [0; 1; 2; 3; 4]%Z
              [10; 20; 30; 40; 50] 10 0 10)
    as (corrected & Hrun & _ & Hsame).
  - repeat constructor.
  - exists 0%nat, 1%nat, 0%Z, 1%Z. repeat split. discriminate.
  - exists corrected. split; assumption.
Defined.

(** X7.  Whenever the correction of a segment succeeds it returns one time
    per frame, and two frames with the same frame count receive the same
    time: frames that share a count are the duplicates the resolver
    collapses afterwards. *)
Theorem correction_same_count_same_time
  (frame_count : list Z) (camera_systime : list Q) (lag : Q)
  (corrected : list Q) :
  correct_timestamps_for_camera_to_mcu_lag frame_count camera_systime lag
  = Ok corrected ->
  length corrected = length frame_count
  /\ forall i j c, frame_count !! i = Some c -> frame_count !! j = Some c ->
       corrected !! i = corrected !! j /\ is_Some (corrected !! i).
Proof.
  unfold correct_timestamps_for_camera_to_mcu_lag.
  destruct (linregress _ _) as [[slope intercept]|]; [|discriminate].
  cbn [mbind result_bind]. intros [= <-]. split.
  - now rewrite !length_map.
  - intros i j c Hi Hj. rewrite !lookup_map, Hi, Hj. cbn. eauto.
Qed.

Lemma correction_same_count_same_time_witness :
  exists corrected,
    correct_timestamps_for_camera_to_mcu_lag [7; 8; 8; 9]%Z [9; 19; 29; 39] 1
    = Ok corrected
    /\ corrected !! 1%nat = corrected !! 2%nat.
Proof.
  destruct (correct_timestamps_for_camera_to_mcu_lag
              [7; 8; 8; 9]%Z [9; 19; 29; 39] 1) as [corrected|e] eqn:Hrun;
    [|vm_compute in Hrun; discriminate].
  exists corrected. split; [reflexivity|].
  exact (proj1 (proj2 (correction_same_count_same_time
                         [7; 8; 8; 9]%Z [9; 19; 29; 39] 1 corrected Hrun)
                 1%nat 2%nat 8%Z eq_refl eq_refl)).
Defined.

(** X8.  The correction of a segment fails on a segment it cannot fit: with
    [ValueError] when the segment has no frame, with [ValueError] when it has
    two frames or more that all carry the same frame count, and with a slope
    that is not a number when it has a single frame. *)
Theorem correction_of_degenerate_segment
  (frame_count : list Z) (camera_systime : list Q) (lag : Q) (c : Z) :
  (frame_count = [] ->
   correct_timestamps_for_camera_to_mcu_lag frame_count camera_systime lag
   = Raise (ValueError "Inputs must not be empty."))
  /\ (camera_systime <> [] -> (2 <= length frame_count)%nat ->
      Forall (fun c' => c' = c) frame_count ->
      correct_timestamps_for_camera_to_mcu_lag frame_count camera_systime lag
      = Raise (ValueError
          "Cannot calculate a linear regression if all x values are identical"))
  /\ (length camera_systime = 1%nat -> frame_count = [c] ->
      correct_timestamps_for_camera_to_mcu_lag frame_count camera_systime lag
      = Raise NotFinite).
Proof.
  split; [|split].
  - now intros ->.
  - intros Hcam Hlen Hsame.
    unfold correct_timestamps_for_camera_to_mcu_lag, linregress.
    rewrite !length_map.
    destruct (Nat.eqb_spec (length frame_count) 0) as [|_]; [lia|].
    destruct (Nat.eqb_spec (length camera_systime) 0) as [Hzero|_].
    { destruct camera_systime; [congruence | discriminate]. }
    cbn [orb].
    destruct (Nat.ltb_spec 1 (length frame_count)) as [_|]; [|lia].
    cbn [andb].
    assert (forallb (fun v => Qeq_bool v (hd 0 (map inject_Z frame_count)))
                    (map inject_Z frame_count) = true) as ->; [|reflexivity].
    apply forallb_forall. intros v Hv. apply Qeq_bool_iff.
    apply in_map_iff in Hv as (c' & <- & Hc').
    rewrite List.Forall_forall in Hsame. rewrite (Hsame c' Hc').
    destruct frame_count as [|c0 rest]; [destruct Hc'|].
    cbn [map hd]. rewrite (Hsame c0 (or_introl eq_refl)). reflexivity.
  - intros Hcam ->.
    unfold correct_timestamps_for_camera_to_mcu_lag, linregress.
    rewrite !length_map, Hcam. reflexivity.
Qed.

Lemma correction_of_degenerate_segment_witness :
  correct_timestamps_for_camera_to_mcu_lag [8; 8]%Z [19; 29] 1
  = Raise (ValueError
      "Cannot calculate a linear regression if all x values are identical").
Proof.
  refine (proj1 (proj2 (correction_of_degenerate_segment
                          [8; 8]%Z [19; 29] 1 8%Z)) _ _ _).
  - discriminate.
  - cbn. lia.
  - repeat constructor.
Defined.

(** ** The unwrapped frame count *)

Open Scope Z_scope.

Lemma unwrap_loses_one_count_per_wrap_witness :
  unwrap_frame_count (map counter16 [65535; 65536; 65540])
  = map (fun t => t - t / 65536) [65535; 65536; 65540].
Proof.
  refine (unwrap_loses_one_count_per_wrap 65535 [65536; 65540] _ _ _).
  - lia.
  - intros [|[|i]] a b Ha Hb; try discriminate;
      injection Ha as <-; injection Hb as <-; lia.
  - repeat constructor; cbn; lia.
Defined.

Lemma unwrap_frame_count_formula (t0 : Z) (T : list Z) :
  0 <= t0 < 65536 ->
  (forall i a b, (t0 :: T) !! i = Some a -> (t0 :: T) !! S i = Some b ->
                 0 <= b - a <= 32767) ->
  Forall (fun t => 0 <= t < 2 ^ 31) (t0 :: T) ->
  unwrap_frame_count (map counter16 (t0 :: T))
  = map (fun t => t - t / 65536) (t0 :: T).
Proof.
  intros H0 Hstep Hrange. unfold unwrap_frame_count.
  rewrite to_int32_counter16. unfold np_unwrap.
  cbn [map]. f_equal.
  - unfold counter16. Z.div_mod_to_equations. lia.
  - apply (unwrap_tail t0 T 0 Hstep Hrange).
    Z.div_mod_to_equations. lia.
Qed.

Lemma nondecreasing_lookup (l : list Z) :
  (forall i a b, l !! i = Some a -> l !! S i = Some b -> a <= b) ->
  nondecreasing l = true.
Proof.
  induction l as [|x [|y l] IH]; intros Hstep; [reflexivity | reflexivity |].
  cbn [nondecreasing]. apply andb_true_iff. split.
  - apply Z.leb_le. exact (Hstep 0%nat x y eq_refl eq_refl).
  - apply IH. intros i a b Ha Hb. exact (Hstep (S i) a b Ha Hb).
Qed.

(** X10.  For true counts that start below 65536, advance by steps of 0 to
    32767 and fit 31 bits, the count unwrapped from the 16-bit counter is
    non-decreasing; as long as the true counts stay below 65536, so that
    the counter never wraps, it is the count the counter shows. *)
Theorem unwrap_frame_count_nondecreasing (t0 : Z) (T : list Z) :
  0 <= t0 < 65536 ->
  (forall i a b, (t0 :: T) !! i = Some a -> (t0 :: T) !! S i = Some b ->
                 0 <= b - a <= 32767) ->
  Forall (fun t => 0 <= t < 2 ^ 31) (t0 :: T) ->
  nondecreasing (unwrap_frame_count (map counter16 (t0 :: T))) = true
  /\ (Forall (fun t => t < 65536) (t0 :: T) ->
      unwrap_frame_count (t0 :: T) = t0 :: T).
Proof.
  intros H0 Hstep Hrange.
  pose proof (unwrap_frame_count_formula t0 T H0 Hstep Hrange) as Hformula.
  split.
  - rewrite Hformula. apply nondecreasing_lookup. intros i a b Ha Hb.
    rewrite lookup_map in Ha, Hb.
    destruct ((t0 :: T) !! i) as [ta|] eqn:Hta; [|discriminate].
    destruct ((t0 :: T) !! S i) as [tb|] eqn:Htb; [|discriminate].
    injection Ha as <-. injection Hb as <-.
    pose proof (Hstep i ta tb Hta Htb).
    assert (0 <= ta) by (rewrite Forall_lookup in Hrange; apply (Hrange i ta Hta)).
    Z.div_mod_to_equations. lia.
  - intros Hsmall.
    assert (forall l : list Z, Forall (fun t => 0 <= t < 65536) l ->
              map counter16 l = l /\ map (fun t => t - t / 65536) l = l) as Hid.
    { induction 1 as [|t l Ht _ [IH1 IH2]]; [split; reflexivity|].
      cbn [map]. rewrite IH1, IH2. unfold counter16.
      split; f_equal; Z.div_mod_to_equations; lia. }
    destruct (Hid (t0 :: T)) as [Hraw Hsame].
    { rewrite Forall_lookup in Hrange, Hsmall. apply Forall_lookup.
      intros i t Ht. specialize (Hrange i t Ht). specialize (Hsmall i t Ht).
      cbn in *. lia. }
    rewrite <- Hraw at 1. rewrite Hformula. exact Hsame.
Qed.

Lemma unwrap_frame_count_nondecreasing_witness :
  nondecreasing (unwrap_frame_count (map counter16 [65535; 65536; 65540])) = true.
Proof.
  refine (proj1 (unwrap_frame_count_nondecreasing 65535 [65536; 65540] _ _ _)).
  - lia.
  - intros [|[|i]] a b Ha Hb; try discriminate;
      injection Ha as <-; injection Hb as <-; lia.
  - repeat constructor; cbn; lia.
Defined.

(** ** What [get_position_timestamps] returns *)

Open Scope Q_scope.

(** X11.  Whatever table [get_position_timestamps] returns on the fallback
    path, from whatever files, its time index is strictly increasing: no
    time occurs twice and no time is out of order. *)
Theorem fallback_table_increasing
  (position_timestamps : list hw_sync_record)
  (position_tracking : option tracking_file)
  (rec_dci_timestamps dio_camera_timestamps : list Q) (sample_count : list Z)
  (df : position_df) :
  outcome (get_position_timestamps position_timestamps position_tracking
             rec_dci_timestamps dio_camera_timestamps sample_count false)
  = Ok df ->
  StronglySorted Qlt (position_index df).
Proof.
  unfold get_position_timestamps. intros H.
  apply outcome_bind_Ok in H as ([rows ids] & _ & H).
  apply outcome_bind_Ok in H as ([columns merged] & _ & H).
  now apply fallback_index_increasing in H.
Qed.

Lemma fallback_table_increasing_witness :
  exists df,
    outcome (get_position_timestamps wrap_data (Some wrap_tracking)
               wrap_rec_dci wrap_dio wrap_sample_count false)
    = Ok df
    /\ StronglySorted Qlt (position_index df).
Proof.
  destruct (outcome (get_position_timestamps wrap_data (Some wrap_tracking)
                       wrap_rec_dci wrap_dio wrap_sample_count false))
    as [df|e] eqn:Hrun; [|vm_compute in Hrun; discriminate].
  exists df. split; [reflexivity|].
  exact (fallback_table_increasing _ _ _ _ _ _ Hrun).
Defined.

(** ** The first position that holds, read backwards *)

Lemma nonzero_from_head (mask : list bool) (pos k : nat) :
  head (nonzero_from pos mask) = Some k ->
  exists i, k = (pos + i)%nat /\ mask !! i = Some true
            /\ forall j, (j < i)%nat -> mask !! j = Some false.
Proof.
  revert pos. induction mask as [|b mask IH]; intros pos; [discriminate|].
  destruct b; cbn [nonzero_from].
  - intros [= <-]. exists 0%nat. split; [lia|]. split; [reflexivity | lia].
  - intros Hhead. destruct (IH (S pos) Hhead) as (i & -> & Hi & Hbefore).
    exists (S i). split; [lia|]. split; [exact Hi|].
    intros [|j] Hj; [reflexivity | apply Hbefore; lia].
Qed.

Lemma first_true_inv (mask : list bool) (i : nat) :
  getitem (np_nonzero mask) 0 = Ok i ->
  mask !! i = Some true /\ forall j, (j < i)%nat -> mask !! j = Some false.
Proof.
  unfold getitem, np_nonzero. rewrite <- head_lookup.
  destruct (head (nonzero_from 0 mask)) as [k|] eqn:Hhead; [|discriminate].
  intros [= ->]. apply nonzero_from_head in Hhead as (j & -> & Hj & Hbefore).
  split; assumption.
Qed.

(** X12.  Whenever the precision-clock path returns a table, the table is
    the input rows from some frame on, on their hardware time in seconds:
    between 1 and 99 leading frames were dropped, the last dropped frame
    and the first kept one are more than 0.4 s and less than 2.0 s apart
    as the program measures it (the float64 difference of their float64
    seconds), no earlier pair of neighbours is, and at least the frame
    that closes the pause is kept. *)
Theorem precision_clock_result
  (columns : list string) (video_timestamps : list (Z * video_row))
  (df : position_df) :
  outcome (get_position_timestamps_ptp columns video_timestamps) = Ok df ->
  exists i ra rb,
    (S i < 100)%nat
    /\ video_timestamps !! i = Some ra /\ video_timestamps !! S i = Some rb
    /\ gap_in_window 0.4 2.0 (inject_Z (HWTimestamp (snd ra)))
                             (inject_Z (HWTimestamp (snd rb)))
    /\ (forall j ra' rb', (j < i)%nat ->
          video_timestamps !! j = Some ra' ->
          video_timestamps !! S j = Some rb' ->
          ~ gap_in_window 0.4 2.0 (inject_Z (HWTimestamp (snd ra')))
                                  (inject_Z (HWTimestamp (snd rb'))))
    /\ df = PtpFrame columns
              (map (fun kr => (ptp_seconds kr, drop_hw_columns (snd kr)))
                   (drop (S i) video_timestamps)).
Proof.
  unfold get_position_timestamps_ptp. rewrite outcome_lift_bind.
  unfold ptp_pause_mid_ind. rewrite firstn_map.
  set (sys := map (fun kr => inject_Z (HWTimestamp (snd kr))) video_timestamps).
  destruct (getitem _ 0) as [i|e] eqn:Hfirst; [|discriminate].
  cbn [mbind result_bind logged_bind logger_info mret logged_ret outcome].
  intros [= <-].
  apply first_true_inv in Hfirst as [Hi Hbefore].
  assert (forall j v, map (is_valid_gap 0.4 2.0)
                        (np_diff64 (map seconds64 (take 100 sys))) !! j
                    = Some v ->
            exists ra rb, (S j < 100)%nat
              /\ video_timestamps !! j = Some ra
              /\ video_timestamps !! S j = Some rb
              /\ (v = true <->
                  gap_in_window 0.4 2.0 (inject_Z (HWTimestamp (snd ra)))
                                        (inject_Z (HWTimestamp (snd rb)))))
    as Hinv.
  { intros j v Hj.
    apply pause_mask_inv in Hj as (a & b & Hlt & Ha & Hb & ->).
    unfold sys in Ha, Hb. rewrite lookup_map in Ha, Hb.
    destruct (video_timestamps !! j) as [ra|] eqn:Hra; [|discriminate].
    destruct (video_timestamps !! S j) as [rb|] eqn:Hrb; [|discriminate].
    injection Ha as <-. injection Hb as <-.
    exists ra, rb. split; [exact Hlt|]. split; [reflexivity|].
    split; [reflexivity|]. apply is_valid_gap_window. }
  destruct (Hinv i true Hi) as (ra & rb & Hlt & Hra & Hrb & Hgap).
  exists i, ra, rb. split; [exact Hlt|]. split; [exact Hra|]. split; [exact Hrb|].
  split; [now apply Hgap|]. split.
  - intros j ra' rb' Hj Hra' Hrb' Hwin.
    destruct (Hinv j false (Hbefore j Hj)) as (ra2 & rb2 & _ & Hra2 & Hrb2 & Hiff).
    rewrite Hra' in Hra2. rewrite Hrb' in Hrb2.
    injection Hra2 as <-. injection Hrb2 as <-.
    apply Hiff in Hwin. discriminate.
  - rewrite Nat.add_1_r. f_equal. unfold sys.
    rewrite map_map, zip_map_map. now rewrite skipn_map.
Qed.

Lemma precision_clock_result_witness :
  exists df i,
    outcome (get_position_timestamps_ptp [] two_ptp_rows) = Ok df
    /\ (S i < 100)%nat
    /\ df = PtpFrame []
              (map (fun kr => (ptp_seconds kr, drop_hw_columns (snd kr)))
                   (drop (S i) two_ptp_rows)).
Proof.
  destruct (outcome (get_position_timestamps_ptp [] two_ptp_rows))
    as [df|e] eqn:Hrun; [|vm_compute in Hrun; discriminate].
  destruct (precision_clock_result [] two_ptp_rows df Hrun)
    as (i & ra & rb & Hi & _ & _ & _ & _ & Hdf).
  exists df, i. repeat split; assumption.
Defined.

(** ** What the channel resolver of an epoch returns *)

Open Scope list_scope.
Open Scope Q_scope.

Lemma first_channel_sound (time_series : list (string * list Q))
  (epoch_start epoch_end : Q) (names : list string) (ticks : list Q) :
  first_channel_with_ticks time_series epoch_start epoch_end names = Ok ticks ->
  exists camera all_ticks,
    In camera names
    /\ dict_get time_series camera = Ok all_ticks
    /\ ticks = List.filter (in_epoch epoch_start epoch_end) all_ticks
    /\ (100 < ticks_in_epoch epoch_start epoch_end all_ticks)%nat.
Proof.
  induction names as [|camera rest IH]; [discriminate|].
  cbn [first_channel_with_ticks].
  destruct (dict_get time_series camera) as [all_ticks|] eqn:Hget; [|discriminate].
  cbn [mbind result_bind]. rewrite count_true_map, select_map_filter.
  destruct (Nat.ltb_spec 100
              (length (List.filter (in_epoch epoch_start epoch_end) all_ticks)))
    as [Hmany|_].
  - intros [= <-]. exists camera, all_ticks.
    split; [now left|]. repeat split; assumption.
  - intros Hrest. destruct (IH Hrest) as (c & t & Hin & Hrest').
    exists c, t. split; [now right | exact Hrest'].
Qed.

(** X13.  Whenever [find_camera_dio_channel_per_epoch] returns, it returns
    the ticks of one channel whose name contains ["camera ticks"], cut to the
    epoch: more than 100 ticks, each of them within
    [[epoch_start, epoch_end]], in the order of the channel. *)
Theorem per_epoch_channel_sound (time_series : list (string * list Q))
  (epoch_start epoch_end : Q) (ticks : list Q) :
  find_camera_dio_channel_per_epoch time_series epoch_start epoch_end = Ok ticks ->
  (100 < length ticks)%nat
  /\ Forall (fun t => epoch_start <= t /\ t <= epoch_end) ticks
  /\ exists camera all_ticks,
      contains camera_marker camera = true
      /\ dict_get time_series camera = Ok all_ticks
      /\ ticks = List.filter (in_epoch epoch_start epoch_end) all_ticks.
Proof.
  unfold find_camera_dio_channel_per_epoch. intros Hrun.
  assert (first_channel_with_ticks time_series epoch_start epoch_end
            (camera_channel_names time_series) = Ok ticks) as Hfirst.
  { destruct (camera_channel_names time_series); [discriminate | exact Hrun]. }
  apply first_channel_sound in Hfirst
    as (camera & all_ticks & Hin & Hget & -> & Hmany).
  split; [exact Hmany|]. split.
  - apply List.Forall_forall. intros t Ht. apply filter_In in Ht as [_ Ht].
    unfold in_epoch in Ht. apply andb_true_iff in Ht as [Hlo Hhi].
    split; now apply Qle_bool_iff.
  - exists camera, all_ticks. split; [|split; [exact Hget | reflexivity]].
    unfold camera_channel_names in Hin. now apply filter_In in Hin as [_ Hin].
Qed.

Lemma per_epoch_channel_sound_witness :
  (100 < length ticks_101)%nat
  /\ Forall (fun t => 0 <= t /\ t <= 200) ticks_101.
Proof.
  destruct (per_epoch_channel_sound two_camera_channels 0 200 ticks_101)
    as (Hmany & Hbounds & _).
  - vm_compute. reflexivity.
  - split; assumption.
Defined.

(** ** What the pause locator returns *)

(** X14.  Whenever [find_acquisition_timing_pause] returns a time, with
    [n_search] not negative, that time is [start + (end - start) // 2] for
    the two samples that bound the first gap of the search window whose
    duration, measured in float64, lies in the window: no result comes
    from a gap that the test rejects or from beyond the first [n_search]
    samples.  On integer timestamps that increase over the gap the time
    is not before the sample that opens the gap and is before the sample
    that closes it, so that cutting at the returned time separates the
    two. *)
Theorem find_pause_sound (dtype : np_dtype) (ts : list Q) (lo hi : Q)
  (n_search : Z) (m : Q) :
  (0 <= n_search)%Z ->
  find_acquisition_timing_pause dtype ts lo hi n_search = Ok m ->
  exists i a b,
    ts !! i = Some a /\ ts !! S i = Some b
    /\ (Z.of_nat (S i) < n_search)%Z
    /\ gap_in_window lo hi a b
    /\ (forall j a' b', (j < i)%nat -> ts !! j = Some a' -> ts !! S j = Some b' ->
                        ~ gap_in_window lo hi a' b')
    /\ pause_mid_time_of dtype a b = Ok m
    /\ (dtype = np_int64 -> a < b -> a <= m /\ m < b).
Proof.
  intros Hn. unfold find_acquisition_timing_pause, slice_to.
  destruct (Z.ltb_spec n_search 0) as [|_]; [lia|].
  destruct (getitem (np_nonzero _) 0) as [i|] eqn:Hfirst; [|discriminate].
  cbn [mbind result_bind].
  apply first_true_inv in Hfirst as [Hi Hbefore].
  apply pause_mask_inv in Hi as (a & b & Hlt & Ha & Hb & Hv).
  symmetry in Hv. apply is_valid_gap_window in Hv.
  unfold getitem. rewrite Ha.
  replace (i + 1)%nat with (S i) by lia. rewrite Hb.
  cbn [mbind result_bind]. intros Hmid.
  exists i, a, b. split; [exact Ha|]. split; [exact Hb|]. split; [lia|].
  split; [exact Hv|]. split; [|split; [exact Hmid|]].
  - intros j a' b' Hj Ha' Hb' Hgap.
    specialize (Hbefore j Hj).
    rewrite (pause_mask_lookup ts lo hi _ j a' b') in Hbefore by (auto; lia).
    apply is_valid_gap_window in Hgap. congruence.
  - intros -> Hpos. injection Hmid as <-.
    destruct (floor_midpoint a b) as [Hle Hlt'].
    split.
    + unfold floor_divide.
      assert (0 <= inject_Z (Qfloor ((b - a) / 2))) as Hfloor.
      { change 0 with (inject_Z 0). rewrite <- Zle_Qle.
        change 0%Z with (Qfloor 0). apply Qfloor_resp_le.
        apply Qle_shift_div_l; [reflexivity | lra]. }
      lra.
    + assert ((a + b) / 2 < b); [|lra].
      apply Qlt_shift_div_r; [reflexivity | lra].
Qed.

Lemma find_pause_sound_witness :
  exists m, find_acquisition_timing_pause np_int64 pause_example 0.4 1.0 100
            = Ok m
            /\ exists a b,
                 gap_in_window 0.4 1.0 a b
                 /\ pause_mid_time_of np_int64 a b = Ok m.
Proof.
  destruct (find_acquisition_timing_pause np_int64 pause_example 0.4 1.0 100)
    as [m|e] eqn:Hrun; [|vm_compute in Hrun; discriminate].
  exists m. split; [reflexivity|].
  destruct (find_pause_sound np_int64 pause_example 0.4 1.0 100 m) as
    (i & a & b & _ & _ & _ & Hgap & _ & Hmid & _).
  - lia.
  - exact Hrun.
  - exists a, b. split; assumption.
Defined.

(** ** The rows [get_position_timestamps] starts from *)

Open Scope list_scope.
Open Scope nat_scope.

Lemma length_cumsum_from (acc : Z) (a : list Z) :
  length (cumsum_from acc a) = length a.
Proof.
  revert acc. induction a as [|x a IH]; intros acc; [reflexivity|].
  cbn [cumsum_from length]. now rewrite IH.
Qed.

Lemma length_np_diff (a : list Z) : length (np_diff a) = length a - 1.
Proof.
  unfold np_diff. destruct a as [|x a]; [reflexivity|].
  cbn [tail]. rewrite length_zip_cons. cbn [length]. lia.
Qed.

Lemma length_np_unwrap (p : list Z) (period : Z) :
  length (np_unwrap p period) = length p.
Proof.
  unfold np_unwrap. destruct p as [|p0 rest]; [reflexivity|].
  cbn [length]. f_equal.
  rewrite length_map, length_zip_with. unfold np_cumsum.
  rewrite length_cumsum_from, length_zip_with, length_map, length_np_diff.
  cbn [length]. lia.
Qed.

Lemma length_unwrap_frame_count (frameCount : list Z) :
  length (unwrap_frame_count frameCount) = length frameCount.
Proof. unfold unwrap_frame_count. now rewrite length_np_unwrap, length_map. Qed.

Lemma load_video_timestamps_outcome (data : list hw_sync_record) :
  outcome (load_video_timestamps data)
  = match detect_trodes_time_repeats_or_frame_jumps
            (map PosTimestamp data) (unwrap_frame_count (map frameCount data)) with
    | Ok (labels, ids) =>
        if negb (length labels =? length data) then Raise NotFinite
        else
          Ok (List.filter
                (fun kr => 0 <? non_repeat_timestamp_labels (snd kr))
                (zip_with
                   (fun '(d, fc) '(ind, lab) =>
                      (PosTimestamp d,
                       {| HWframeCount := fc; HWTimestamp := HWTimestamp_raw d;
                          video_frame_ind := ind;
                          non_repeat_timestamp_labels := lab;
                          tracked := [] |}))
                   (zip data (unwrap_frame_count (map frameCount data)))
                   (zip (seq 0 (length data)) labels)),
              ids)
    | Raise e => Raise e
    end.
Proof.
  unfold load_video_timestamps.
  cbn [mbind logged_bind logger_info lift].
  destruct (detect_trodes_time_repeats_or_frame_jumps _ _) as [[labels ids]|e];
    [|reflexivity].
  cbn [app]. destruct (negb (length labels =? length data)); reflexivity.
Qed.

Lemma StronglySorted_seq (start len : nat) : StronglySorted lt (seq start len).
Proof.
  revert start. induction len as [|len IH]; intros start; [constructor|].
  cbn [seq]. constructor; [apply IH|].
  apply List.Forall_forall. intros x Hx. apply in_seq in Hx. lia.
Qed.

Lemma filter_map_sorted {A} (h : A -> nat) (f : A -> bool) (l : list A) :
  StronglySorted lt (map h l) -> StronglySorted lt (map h (List.filter f l)).
Proof.
  induction l as [|x l IH]; [constructor|].
  cbn [map List.filter]. intros Hsorted.
  apply StronglySorted_inv in Hsorted as [Hrest Hlt].
  destruct (f x); [|now apply IH].
  cbn [map]. constructor; [now apply IH|].
  apply List.Forall_forall. intros y Hy.
  apply in_map_iff in Hy as (z & <- & Hz). apply filter_In in Hz as [Hz _].
  rewrite List.Forall_forall in Hlt. apply Hlt. now apply in_map.
Qed.

Section loaded_rows.
Variables (data : list hw_sync_record) (counts : list Z) (labels : list nat).
Hypothesis Hcounts : length counts = length data.
Hypothesis Hlabels : length labels = length data.

Let table : list (Z * video_row) :=
  zip_with
    (fun '(d, fc) '(ind, lab) =>
       (PosTimestamp d,
        {| HWframeCount := fc; HWTimestamp := HWTimestamp_raw d;
           video_frame_ind := ind; non_repeat_timestamp_labels := lab;
           tracked := [] |}))
    (zip data counts) (zip (seq 0 (length data)) labels).

Lemma table_lookup (i : nat) (kr : Z * video_row) :
  table !! i = Some kr <->
  exists d fc lab,
    data !! i = Some d /\ counts !! i = Some fc /\ labels !! i = Some lab
    /\ kr = (PosTimestamp d,
             {| HWframeCount := fc; HWTimestamp := HWTimestamp_raw d;
                video_frame_ind := i; non_repeat_timestamp_labels := lab;
                tracked := [] |}).
Proof.
  unfold table. rewrite lookup_zip_with_Some. split.
  - intros ([d fc] & [ind lab] & -> & Hleft & Hright).
    apply lookup_zip_with_Some in Hleft as (d' & fc' & [= <- <-] & Hd & Hfc).
    apply lookup_zip_with_Some in Hright as (ind' & lab' & [= <- <-] & Hind & Hlab).
    apply lookup_seq in Hind as [-> _].
    exists d, fc, lab. auto.
  - intros (d & fc & lab & Hd & Hfc & Hlab & ->).
    exists (d, fc), (i, lab). split; [reflexivity|]. split.
    + apply lookup_zip_with_Some. exists d, fc. auto.
    + apply lookup_zip_with_Some. exists i, lab. split; [reflexivity|].
      split; [|exact Hlab]. apply lookup_seq. split; [reflexivity|].
      now apply lookup_lt_Some in Hd.
Qed.

Lemma table_frame_indices :
  map (fun kr => video_frame_ind (snd kr)) table = seq 0 (length data).
Proof.
  apply list_eq. intros i. rewrite lookup_map.
  destruct (decide (i < length data)) as [Hi|Hi].
  - destruct (lookup_lt_is_Some_2 data i Hi) as [d Hd].
    destruct (lookup_lt_is_Some_2 counts i ltac:(lia)) as [fc Hfc].
    destruct (lookup_lt_is_Some_2 labels i ltac:(lia)) as [lab Hlab].
    rewrite (proj2 (table_lookup i _)
               (ex_intro _ d (ex_intro _ fc (ex_intro _ lab
                  (conj Hd (conj Hfc (conj Hlab eq_refl))))))).
    cbn. now rewrite lookup_seq_lt.
  - rewrite lookup_seq_ge by lia.
    destruct (table !! i) as [kr|] eqn:Hkr; [|reflexivity].
    apply table_lookup in Hkr as (d & _ & _ & Hd & _).
    apply lookup_lt_Some in Hd. lia.
Qed.
End loaded_rows.

(** X15.  On a timestamps file with at least one frame, whenever
    [load_video_timestamps] succeeds, the segmentation returned one label
    per frame and the rows it keeps are exactly the frames with a positive
    label, in the order of the file: a row carries the position of its
    frame in the file as [video_frame_ind], the trodes time and hardware
    time of that frame, its unwrapped frame count and its label, and no
    tracked value yet. *)
Theorem load_video_timestamps_rows
  (data : list hw_sync_record) (rows : list (Z * video_row)) (ids : list nat) :
  data <> [] ->
  outcome (load_video_timestamps data) = Ok (rows, ids) ->
  exists labels,
    detect_trodes_time_repeats_or_frame_jumps
      (map PosTimestamp data) (unwrap_frame_count (map frameCount data))
    = Ok (labels, ids)
    /\ length labels = length data
    /\ (forall k r, In (k, r) rows ->
          0 < non_repeat_timestamp_labels r
          /\ labels !! video_frame_ind r = Some (non_repeat_timestamp_labels r)
          /\ (exists d, data !! video_frame_ind r = Some d
                        /\ PosTimestamp d = k
                        /\ HWTimestamp r = HWTimestamp_raw d)
          /\ unwrap_frame_count (map frameCount data) !! video_frame_ind r
             = Some (HWframeCount r)
          /\ tracked r = [])
    /\ (forall i lab, labels !! i = Some lab -> 0 < lab ->
          exists k r, In (k, r) rows /\ video_frame_ind r = i)
    /\ StronglySorted lt (map (fun kr => video_frame_ind (snd kr)) rows).
Proof.
  intros _. rewrite load_video_timestamps_outcome.
  destruct (detect_trodes_time_repeats_or_frame_jumps _ _)
    as [[labels ids']|] eqn:Hdetect; [|discriminate].
  destruct (Nat.eqb_spec (length labels) (length data)) as [Hlabels|];
    [|discriminate].
  cbn [negb]. intros [= <- <-].
  assert (length (unwrap_frame_count (map frameCount data)) = length data)
    as Hcounts by now rewrite length_unwrap_frame_count, length_map.
  exists labels. split; [reflexivity|]. split; [exact Hlabels|].
  split; [|split].
  - intros k r Hin. apply filter_In in Hin as [Hin Hpos].
    apply Nat.ltb_lt in Hpos. cbn [snd] in Hpos.
    apply list_elem_of_In, list_elem_of_lookup in Hin as [i Hi].
    apply table_lookup in Hi as (d & fc & lab & Hd & Hfc & Hlab & [= -> ->]).
    cbn in *. split; [exact Hpos|]. split; [exact Hlab|].
    split; [exists d; auto|]. split; [exact Hfc | reflexivity].
  - intros i lab Hlab Hpos.
    destruct (lookup_lt_is_Some_2 data i) as [d Hd].
    { apply lookup_lt_Some in Hlab. lia. }
    destruct (lookup_lt_is_Some_2 (unwrap_frame_count (map frameCount data)) i)
      as [fc Hfc].
    { apply lookup_lt_Some in Hlab. lia. }
    exists (PosTimestamp d),
      {| HWframeCount := fc; HWTimestamp := HWTimestamp_raw d;
         video_frame_ind := i; non_repeat_timestamp_labels := lab;
         tracked := [] |}.
    split; [|reflexivity].
    apply filter_In. split.
    + apply list_elem_of_In. apply (list_elem_of_lookup_2 _ i).
      apply table_lookup; [assumption..|]. exists d, fc, lab. auto.
    + cbn [snd non_repeat_timestamp_labels]. now apply Nat.ltb_lt.
  - apply filter_map_sorted.
    rewrite table_frame_indices by assumption. apply StronglySorted_seq.
Qed.

Lemma load_video_timestamps_rows_witness :
  exists rows ids labels,
    outcome (load_video_timestamps wrap_data) = Ok (rows, ids)
    /\ detect_trodes_time_repeats_or_frame_jumps
         (map PosTimestamp wrap_data)
         (unwrap_frame_count (map frameCount wrap_data))
       = Ok (labels, ids)
    /\ StronglySorted lt (map (fun kr => video_frame_ind (snd kr)) rows).
Proof.
  destruct (outcome (load_video_timestamps wrap_data))
    as [[rows ids]|e] eqn:Hrun; [|vm_compute in Hrun; discriminate].
  destruct (load_video_timestamps_rows wrap_data rows ids ltac:(discriminate)
              Hrun)
    as (labels & Hdetect & _ & _ & _ & Hsorted).
  exists rows, ids, labels. repeat split; assumption.
Defined.

(** ** Frames on the recorder clock *)

Open Scope Z_scope.

Lemma isinZ_In (x : Z) (values : list Z) : isinZ x values = true <-> In x values.
Proof.
  unfold isinZ. rewrite existsb_exists. split.
  - intros (y & Hy & Heq). apply Z.eqb_eq in Heq. now subst.
  - intros Hin. exists x. split; [assumption | apply Z.eqb_refl].
Qed.

Lemma increasing_nondecreasing (bins : list Z) :
  StronglySorted Z.lt bins -> nondecreasing bins = true.
Proof.
  induction 1 as [|x bins Hsorted IH Hlt]; [reflexivity|].
  destruct bins as [|y bins]; [reflexivity|].
  change (nondecreasing (x :: y :: bins))
    with ((x <=? y) && nondecreasing (y :: bins)).
  rewrite IH, andb_true_r.
  apply Z.leb_le. inversion Hlt; subst. lia.
Qed.

Lemma count_at_or_below_sample (bins : list Z) (j : nat) (x : Z) :
  StronglySorted Z.lt bins -> bins !! j = Some x ->
  length (List.filter (fun b => b <=? x) bins) = S j.
Proof.
  intros Hsorted. revert j.
  induction Hsorted as [|b bins Hsorted IH Hlt]; intros j Hj; [discriminate|].
  cbn [List.filter]. destruct j as [|j].
  - injection Hj as ->. rewrite Z.leb_refl. cbn [length]. f_equal.
    clear IH Hsorted.
    induction Hlt as [|y bins Hy _ IHb]; [reflexivity|].
    cbn [List.filter]. destruct (Z.leb_spec y x); [lia|]. exact IHb.
  - change (bins !! j = Some x) in Hj.
    assert (b < x) as Hbx.
    { rewrite List.Forall_forall in Hlt. apply Hlt.
      now apply list_elem_of_In, list_elem_of_lookup_2 with j. }
    destruct (Z.leb_spec b x); [|lia]. cbn [length]. f_equal. now apply IH.
Qed.

Lemma np_digitize_sample (bins : list Z) (j : nat) (x : Z) :
  StronglySorted Z.lt bins -> bins !! j = Some x ->
  np_digitize x bins = Ok (S j).
Proof.
  intros Hsorted Hj. unfold np_digitize.
  rewrite increasing_nondecreasing by assumption.
  now rewrite (count_at_or_below_sample bins j x).
Qed.

Lemma mapM_Forall2 {A B} (f : A -> result B) (P : A -> B -> Prop)
  (l : list A) (r : list B) :
  (forall a b, In a l -> f a = Ok b -> P a b) ->
  mapM f l = Ok r -> Forall2 P l r.
Proof.
  revert r. induction l as [|x l IH]; intros r Hf.
  - intros [= <-]. constructor.
  - cbn [mapM]. destruct (f x) as [y|] eqn:Hy; [|discriminate].
    cbn [mbind result_bind]. destruct (mapM f l) as [ys|]; [|discriminate].
    cbn [mbind result_bind]. intros [= <-]. constructor.
    + apply Hf; [now left | assumption].
    + apply IH; [|reflexivity]. intros a b Ha. apply Hf. now right.
Qed.

Lemma mapM_raises {A B} (f : A -> result B) (e : exn) (l : list A) :
  (forall a, In a l -> (exists b, f a = Ok b) \/ f a = Raise e) ->
  (exists a, In a l /\ f a = Raise e) ->
  mapM f l = Raise e.
Proof.
  induction l as [|x l IH]; intros Hall (a & Ha & Hraise); [destruct Ha|].
  cbn [mapM]. destruct (Hall x (or_introl eq_refl)) as [[b Hb]| ->];
    [|reflexivity].
  rewrite Hb. cbn [mbind result_bind]. rewrite IH; [reflexivity| |].
  - intros a' Ha'. apply Hall. now right.
  - destruct Ha as [->|Ha]; [congruence|]. now exists a.
Qed.

(** X16.  With a strictly increasing sample count, [np.digitize] sends the
    sample at position [j] to bin [j + 1]: every frame that is kept as
    valid is dated with the recorder timestamp one position after its own
    sample, not with the timestamp of that sample. *)
Theorem camera_systime_is_next_sample
  (video_timestamps : list (Z * video_row))
  (rec_dci_timestamps : list Q) (sample_count : list Z)
  (is_valid_camera_time : list bool) (camera_systime : list Q) :
  StronglySorted Z.lt sample_count ->
  camera_systime_of video_timestamps rec_dci_timestamps sample_count
  = Ok (is_valid_camera_time, camera_systime) ->
  is_valid_camera_time
  = map (fun kr => isinZ (fst kr) sample_count) video_timestamps
  /\ Forall2
       (fun k t => exists j, sample_count !! j = Some k
                             /\ rec_dci_timestamps !! S j = Some t)
       (List.filter (fun k => isinZ k sample_count) (map fst video_timestamps))
       camera_systime.
Proof.
  intros Hsorted. unfold camera_systime_of.
  destruct (mapM _ _) as [cs|] eqn:HmapM; [|discriminate].
  cbn [mbind result_bind]. intros [= <- <-]. split; [reflexivity|].
  rewrite <- (map_map fst (fun k => isinZ k sample_count)), select_map_filter
    in HmapM.
  revert HmapM. apply mapM_Forall2. intros k t Hk.
  apply filter_In in Hk as [_ Hk]. apply isinZ_In in Hk.
  apply list_elem_of_In, list_elem_of_lookup in Hk as [j Hj].
  rewrite (np_digitize_sample sample_count j k) by assumption.
  cbn [mbind result_bind]. unfold getitem.
  destruct (rec_dci_timestamps !! S j) as [t'|] eqn:Ht; [|discriminate].
  intros [= <-]. now exists j.
Qed.

(** X17.  A frame taken at the last recorded sample is looked up one
    position past the end: when the recorder timestamps are no longer
    than the sample counts, the lookup raises [IndexError]. *)
Theorem camera_systime_last_sample_raises
  (video_timestamps : list (Z * video_row))
  (rec_dci_timestamps : list Q) (sample_count : list Z) (k : Z) :
  StronglySorted Z.lt sample_count ->
  last sample_count = Some k ->
  In k (map fst video_timestamps) ->
  (length rec_dci_timestamps <= length sample_count)%nat ->
  camera_systime_of video_timestamps rec_dci_timestamps sample_count
  = Raise IndexError.
Proof.
  intros Hsorted Hlast Hin Hlen. unfold camera_systime_of.
  rewrite <- (map_map fst (fun k => isinZ k sample_count)), select_map_filter.
  rewrite (mapM_raises _ IndexError); [reflexivity| |].
  - intros a Ha. apply filter_In in Ha as [_ Ha]. apply isinZ_In in Ha.
    apply list_elem_of_In, list_elem_of_lookup in Ha as [j Hj].
    rewrite (np_digitize_sample sample_count j a) by assumption.
    cbn [mbind result_bind]. unfold getitem.
    destruct (rec_dci_timestamps !! S j) as [t|]; [left; now exists t | now right].
  - rewrite last_lookup in Hlast.
    exists k. split.
    + apply filter_In. split; [assumption|]. apply isinZ_In.
      now apply list_elem_of_In, list_elem_of_lookup_2 with (pred (length sample_count)).
    + rewrite (np_digitize_sample sample_count (pred (length sample_count)) k)
        by assumption.
      cbn [mbind result_bind]. unfold getitem.
      rewrite lookup_ge_None_2; [reflexivity|].
      apply lookup_lt_Some in Hlast. lia.
Qed.

Lemma camera_systime_is_next_sample_witness :
  exists is_valid_camera_time camera_systime,
    camera_systime_of two_ptp_rows two_rows_rec_dci two_rows_sample_count
    = Ok (is_valid_camera_time, camera_systime)
    /\ Forall2
         (fun k t => exists j, two_rows_sample_count !! j = Some k
                               /\ two_rows_rec_dci !! S j = Some t)
         (List.filter (fun k => isinZ k two_rows_sample_count)
                      (map fst two_ptp_rows))
         camera_systime.
Proof.
  destruct (camera_systime_of two_ptp_rows two_rows_rec_dci
              two_rows_sample_count) as [[valid cs]|e] eqn:Hrun;
    [|vm_compute in Hrun; discriminate].
  exists valid, cs. split; [reflexivity|].
  refine (proj2 (camera_systime_is_next_sample two_ptp_rows two_rows_rec_dci
                   two_rows_sample_count valid cs _ Hrun)).
  unfold two_rows_sample_count.
  repeat (constructor; try reflexivity).
Defined.

Lemma camera_systime_last_sample_raises_witness :
  camera_systime_of two_ptp_rows [0%Q; 1000%Q] [10; 20] = Raise IndexError.
Proof.
  apply (camera_systime_last_sample_raises two_ptp_rows [0%Q; 1000%Q] [10; 20] 20).
  - repeat (constructor; try reflexivity).
  - reflexivity.
  - right; left; reflexivity.
  - simpl; lia.
Defined.

(** ** Joining the tracked positions *)

Open Scope Z_scope.

Lemma increasing_has_no_repeat (ts : list Z) :
  StronglySorted Z.lt ts ->
  Forall (fun b => b = true) (map negb (detect_repeat_timestamps ts)).
Proof.
  destruct ts as [|a ts]; [repeat constructor|].
  rewrite detect_repeat_timestamps_cons. cbn [map negb].
  intros Hsorted. constructor; [reflexivity|].
  revert a Hsorted. induction ts as [|b ts IH]; intros a Hsorted; [constructor|].
  change (zip_with Z.geb (a :: b :: ts) (b :: ts))
    with ((a >=? b) :: zip_with Z.geb (b :: ts) ts).
  apply StronglySorted_inv in Hsorted as [Hrest Hlt].
  cbn [map]. constructor; [|now apply IH].
  inversion Hlt; subst. apply negb_true_iff. rewrite Z.geb_leb.
  apply Z.leb_gt. lia.
Qed.

Lemma np_mask_no_repeat {A} (rows : list (Z * A)) :
  rows <> [] ->
  StronglySorted Z.lt (map fst rows) ->
  np_mask rows (map negb (detect_repeat_timestamps (map fst rows))) = Ok rows.
Proof.
  intros Hne Hsorted. unfold np_mask.
  assert (length rows
          = length (map negb (detect_repeat_timestamps (map fst rows)))) as Hlen.
  { rewrite length_map, length_detect_repeat_timestamps, length_map.
    destruct rows; [congruence | cbn [length]; lia]. }
  rewrite <- Hlen, Nat.eqb_refl. f_equal.
  apply select_all_true; [exact Hlen | now apply increasing_has_no_repeat].
Qed.

Lemma filter_increasing_find {A} (k : Z) (rows : list (Z * A)) :
  StronglySorted Z.lt (map fst rows) ->
  List.filter (fun tr => fst tr =? k) rows
  = match List.find (fun tr => fst tr =? k) rows with
    | Some tr => [tr]
    | None => []
    end.
Proof.
  induction rows as [|tr rows IH]; [reflexivity|].
  cbn [map]. intros Hsorted. apply StronglySorted_inv in Hsorted as [Hrest Hlt].
  cbn [List.filter List.find]. destruct (Z.eqb_spec (fst tr) k) as [Heq|Hneq];
    [|now apply IH].
  f_equal. clear IH Hrest.
  induction rows as [|tr' rows IH]; [reflexivity|].
  cbn [map] in Hlt. inversion Hlt; subst.
  cbn [List.filter]. destruct (Z.eqb_spec (fst tr') (fst tr)); [lia|].
  now apply IH.
Qed.

(** ** The order of the joined rows *)

Lemma insert_by_index_perm {R} (x : Z * R) (df : list (Z * R)) :
  Permutation (insert_by_index x df) (x :: df).
Proof.
  induction df as [|y df IH]; [reflexivity|].
  cbn [insert_by_index]. destruct (fst x <=? fst y); [reflexivity|].
  rewrite IH. apply perm_swap.
Qed.

Lemma sort_by_index_perm {R} (df : list (Z * R)) :
  Permutation (sort_by_index df) df.
Proof.
  induction df as [|x df IH]; [reflexivity|].
  change (sort_by_index (x :: df)) with (insert_by_index x (sort_by_index df)).
  rewrite insert_by_index_perm. now constructor.
Qed.

Lemma nondecreasing_sorted (a : list Z) :
  nondecreasing a = true -> StronglySorted Z.le a.
Proof.
  intros Hsorted. apply Sorted_StronglySorted; [intros x y z; lia|].
  induction a as [|x [|y a] IH]; [constructor | repeat constructor|].
  change (nondecreasing (x :: y :: a))
    with ((x <=? y) && nondecreasing (y :: a)) in Hsorted.
  apply andb_true_iff in Hsorted as [Hxy Hrest].
  constructor; [now apply IH|]. constructor. now apply Z.leb_le.
Qed.

Lemma sort_by_index_sorted {R} (df : list (Z * R)) :
  StronglySorted Z.le (map fst df) -> sort_by_index df = df.
Proof.
  induction df as [|x df IH]; [reflexivity|].
  cbn [map]. intros Hsorted. apply StronglySorted_inv in Hsorted as [Hrest Hle].
  change (sort_by_index (x :: df)) with (insert_by_index x (sort_by_index df)).
  rewrite IH by assumption.
  destruct df as [|y df]; [reflexivity|].
  cbn [insert_by_index]. cbn [map] in Hle. inversion Hle; subst.
  now rewrite (proj2 (Z.leb_le _ _)).
Qed.

Lemma StronglySorted_app (l1 l2 : list Z) :
  StronglySorted Z.le l1 -> StronglySorted Z.le l2 ->
  (forall x y, In x l1 -> In y l2 -> x <= y) ->
  StronglySorted Z.le (l1 ++ l2).
Proof.
  intros H1 H2 Hle. induction H1 as [|x l1 H1 IH Hx]; [exact H2|].
  cbn [app]. constructor.
  - apply IH. intros a b Ha. apply Hle. now right.
  - apply Forall_app. split; [exact Hx|].
    apply List.Forall_forall. intros y Hy. apply Hle; [now left | exact Hy].
Qed.

Lemma constant_sorted (k : Z) (l : list Z) :
  Forall (fun x => x = k) l -> StronglySorted Z.le l.
Proof.
  induction 1 as [|x l -> Hall IH]; constructor; [exact IH|].
  eapply List.Forall_impl; [|exact Hall]. intros y ->. lia.
Qed.

Lemma join_rows_cons (k : Z) (r : video_row) (left : list (Z * video_row))
  (right : tracking_file) :
  join_rows ((k, r) :: left) right
  = join_rows [(k, r)] right ++ join_rows left right.
Proof. unfold join_rows. cbn [flat_map]. now rewrite app_nil_r. Qed.

Lemma join_row_spec (k : Z) (r : video_row) (right : tracking_file) :
  join_rows [(k, r)] right <> []
  /\ Forall (fun kr' => fst kr' = k
                        /\ snd kr' = with_tracked r (tracked (snd kr')))
            (join_rows [(k, r)] right).
Proof.
  unfold join_rows. cbn [flat_map]. rewrite app_nil_r.
  destruct (List.filter (fun tr => fst tr =? k) (tracking_rows right))
    as [|tr hits].
  - split; [discriminate|]. repeat constructor.
  - split; [discriminate|].
    apply List.Forall_forall. intros kr' Hin.
    apply in_map_iff in Hin as (tr' & <- & _). split; reflexivity.
Qed.

Lemma join_rows_In (left : list (Z * video_row)) (right : tracking_file)
  (k : Z) (r' : video_row) :
  In (k, r') (join_rows left right) ->
  exists r, In (k, r) left /\ r' = with_tracked r (tracked r').
Proof.
  induction left as [|[k0 r0] left IH]; [intros []|].
  rewrite join_rows_cons. intros Hin. apply in_app_or in Hin as [Hin|Hin].
  - destruct (join_row_spec k0 r0 right) as [_ Hall].
    rewrite List.Forall_forall in Hall. destruct (Hall _ Hin) as [Hk Hr].
    cbn [fst snd] in Hk, Hr. subst k0. exists r0. split; [now left | exact Hr].
  - destruct (IH Hin) as (r & Hr & Hsame). exists r. split; [now right | exact Hsame].
Qed.

Lemma join_rows_sorted (left : list (Z * video_row)) (right : tracking_file) :
  StronglySorted Z.le (map fst left) ->
  StronglySorted Z.le (map fst (join_rows left right)).
Proof.
  induction left as [|[k r] left IH]; [constructor|].
  cbn [map fst]. intros Hsorted.
  apply StronglySorted_inv in Hsorted as [Hrest Hle].
  rewrite join_rows_cons, map_app.
  destruct (join_row_spec k r right) as [_ Hrow].
  rewrite List.Forall_forall in Hrow.
  apply StronglySorted_app; [|now apply IH|].
  - apply (constant_sorted k). apply List.Forall_forall. intros x Hx.
    apply in_map_iff in Hx as (kr' & <- & Hkr'). now destruct (Hrow kr' Hkr').
  - intros x y Hx Hy.
    apply in_map_iff in Hx as (kr1 & <- & Hkr1).
    apply in_map_iff in Hy as ([k2 r2] & <- & Hkr2).
    destruct (Hrow kr1 Hkr1) as [-> _].
    apply join_rows_In in Hkr2 as (r3 & Hr3 & _).
    rewrite List.Forall_forall in Hle. apply Hle.
    apply in_map_iff. now exists (k2, r3).
Qed.

Lemma merge_left_order (left : list (Z * video_row)) (right : tracking_file) :
  merge_left left right = join_rows left right
  \/ merge_left left right = sort_by_index (join_rows left right).
Proof.
  unfold merge_left. destruct (map fst (tracking_rows right)); [now left|].
  destruct (negb (is_unique (map fst left)) && negb (is_unique (z :: l)));
    [now right|].
  destruct (negb (is_unique (map fst left)) || negb (is_unique (z :: l)));
    [|now left].
  destruct (is_monotonic_increasing (map fst left)
            && is_monotonic_increasing (z :: l)); [now left | now right].
Qed.

Lemma merge_left_monotonic (left : list (Z * video_row)) (right : tracking_file) :
  is_monotonic_increasing (map fst left) = true ->
  merge_left left right = join_rows left right.
Proof.
  intros Hsorted. destruct (merge_left_order left right) as [->| ->];
    [reflexivity|].
  apply sort_by_index_sorted, join_rows_sorted.
  now apply nondecreasing_sorted.
Qed.

Lemma merge_left_In (left : list (Z * video_row)) (right : tracking_file)
  (k : Z) (r' : video_row) :
  In (k, r') (merge_left left right) ->
  exists r, In (k, r) left /\ r' = with_tracked r (tracked r').
Proof.
  intros Hin. apply (join_rows_In left right).
  destruct (merge_left_order left right) as [Heq|Heq]; rewrite Heq in Hin;
    [exact Hin|].
  eapply Permutation_in; [apply sort_by_index_perm | exact Hin].
Qed.

Lemma is_unique_increasing (idx : list Z) :
  StronglySorted Z.lt idx -> is_unique idx = true.
Proof.
  induction 1 as [|k idx Hsorted IH Hlt]; [reflexivity|].
  cbn [is_unique]. rewrite IH, andb_true_r. apply negb_true_iff.
  apply not_true_is_false. intros Hin.
  apply existsb_exists in Hin as (x & Hx & Heq). apply Z.eqb_eq in Heq.
  subst x. rewrite List.Forall_forall in Hlt. specialize (Hlt k Hx). lia.
Qed.

Lemma join_rows_increasing (left : list (Z * video_row)) (right : tracking_file) :
  StronglySorted Z.lt (map fst (tracking_rows right)) ->
  join_rows left right
  = map (fun kr =>
           (fst kr,
            with_tracked (snd kr)
              match List.find (fun tr => fst tr =? fst kr)
                              (tracking_rows right) with
              | Some tr => map Some (snd tr)
              | None => map (fun _ => None) (tracking_columns right)
              end))
        left.
Proof.
  intros Hsorted. unfold join_rows.
  induction left as [|[k r] rest IH]; [reflexivity|].
  cbn [flat_map]. rewrite filter_increasing_find by assumption.
  cbn [map fst snd].
  destruct (List.find _ _) as [tr|]; cbn [map app]; f_equal; exact IH.
Qed.

(** X18.  When the tracking file has at least one row and its times
    increase strictly, no row of it is dropped as a repeat and the left
    join returns one row per video frame: a frame carries the tracked
    values of the tracking row with its trodes time, and a missing value
    in every tracked column when there is no such row.  The frames come
    in their own order when no two of them have the same trodes time or
    when their trodes times never decrease; otherwise they come sorted by
    trodes time, frames of one time in their own order. *)
Theorem merge_tracking_one_row_per_frame
  (video_timestamps : list (Z * video_row)) (file : tracking_file) :
  tracking_rows file <> [] ->
  StronglySorted Z.lt (map fst (tracking_rows file)) ->
  let rows :=
    map (fun kr =>
           (fst kr,
            with_tracked (snd kr)
              match List.find (fun tr => fst tr =? fst kr)
                              (tracking_rows file) with
              | Some tr => map Some (snd tr)
              | None => map (fun _ => None) (tracking_columns file)
              end))
        video_timestamps in
  merge_position_tracking video_timestamps (Some file)
  = Ok (tracking_columns file,
        if is_unique (map fst video_timestamps)
           || is_monotonic_increasing (map fst video_timestamps)
        then rows
        else sort_by_index rows).
Proof.
  intros Hne Hsorted rows. unfold merge_position_tracking.
  rewrite np_mask_no_repeat by assumption.
  cbn [mbind result_bind]. do 2 f_equal.
  assert (join_rows video_timestamps
            {| tracking_columns := tracking_columns file;
               tracking_rows := tracking_rows file |} = rows) as Hrows
    by now apply join_rows_increasing.
  unfold merge_left. rewrite Hrows. cbn [tracking_rows tracking_columns].
  destruct (map fst (tracking_rows file)) as [|t0 times] eqn:Htimes.
  { destruct (tracking_rows file); [congruence | discriminate]. }
  rewrite (is_unique_increasing (t0 :: times)) by assumption.
  unfold is_monotonic_increasing at 2.
  rewrite (increasing_nondecreasing (t0 :: times)) by assumption.
  cbn [negb]. rewrite andb_false_r, orb_false_r, andb_true_r.
  destruct (is_unique (map fst video_timestamps)); cbn [negb orb];
    [reflexivity|].
  destruct (is_monotonic_increasing (map fst video_timestamps)); reflexivity.
Qed.

Lemma merge_tracking_one_row_per_frame_witness :
  exists frame,
    merge_position_tracking
      [(3, {| HWframeCount := 65534; HWTimestamp := 0; video_frame_ind := 0;
              non_repeat_timestamp_labels := 1; tracked := [] |});
       (2, {| HWframeCount := 65535; HWTimestamp := 0; video_frame_ind := 1;
              non_repeat_timestamp_labels := 1; tracked := [] |});
       (2, {| HWframeCount := 65536; HWTimestamp := 0; video_frame_ind := 2;
              non_repeat_timestamp_labels := 1; tracked := [] |})]
      (Some wrap_tracking)
    = Ok (tracking_columns wrap_tracking, frame)
    /\ map (fun kr => video_frame_ind (snd kr)) frame = [1; 2; 0]%nat
    /\ map (fun kr => tracked (snd kr)) frame
       = [[None; None]; [None; None]; [Some 5; Some 6]].
Proof.
  eexists. split.
  - apply merge_tracking_one_row_per_frame.
    + discriminate.
    + repeat (constructor; try reflexivity).
  - split; reflexivity.
Defined.

(** X19.  Whatever the times of a tracking file with at least one row,
    the join neither drops nor invents a video frame: its rows are, for
    each row of the video table, one row or more with the trodes time,
    frame count, hardware time, frame index and label of that row, only
    the tracked values being filled in.  These rows come in the order of
    the video table, or sorted by trodes time with the rows of one time
    in that order; they come in the order of the video table whenever the
    trodes times of the video table never decrease. *)
Theorem merge_tracking_keeps_frames
  (video_timestamps : list (Z * video_row)) (file : tracking_file) :
  tracking_rows file <> [] ->
  exists groups frame,
    merge_position_tracking video_timestamps (Some file)
    = Ok (tracking_columns file, frame)
    /\ Forall2
         (fun kr group =>
            group <> []
            /\ Forall (fun kr' =>
                         fst kr' = fst kr
                         /\ snd kr' = with_tracked (snd kr) (tracked (snd kr')))
                      group)
         video_timestamps groups
    /\ (frame = concat groups \/ frame = sort_by_index (concat groups))
    /\ Permutation frame (concat groups)
    /\ (is_monotonic_increasing (map fst video_timestamps) = true ->
        frame = concat groups).
Proof.
  intros Hne. unfold merge_position_tracking, np_mask.
  rewrite length_map, length_detect_repeat_timestamps, length_map.
  destruct (tracking_rows file) as [|tr0 rows0] eqn:Hrows; [congruence|].
  cbn [length Nat.sub]. rewrite Nat.sub_0_r, Nat.eqb_refl.
  cbn [mbind result_bind].
  set (kept := {| tracking_columns := tracking_columns file;
                  tracking_rows := select _ _ |}).
  exists (map (fun kr => join_rows [kr] kept) video_timestamps),
         (merge_left video_timestamps kept).
  assert (concat (map (fun kr => join_rows [kr] kept) video_timestamps)
          = join_rows video_timestamps kept) as Hconcat.
  { induction video_timestamps as [|[k r] rest IH]; [reflexivity|].
    cbn [map concat]. now rewrite (join_rows_cons k r rest), IH. }
  rewrite Hconcat.
  split; [reflexivity|]. split; [|split; [|split]].
  - clear Hconcat.
    induction video_timestamps as [|[k r] rest IH]; [constructor|].
    cbn [map]. constructor; [|exact IH]. apply join_row_spec.
  - apply merge_left_order.
  - destruct (merge_left_order video_timestamps kept) as [->| ->];
      [reflexivity | apply sort_by_index_perm].
  - apply merge_left_monotonic.
Qed.

Lemma merge_tracking_keeps_frames_witness :
  exists groups frame,
    merge_position_tracking two_ptp_rows (Some wrap_tracking)
    = Ok (tracking_columns wrap_tracking, frame)
    /\ length groups = length two_ptp_rows
    /\ Permutation frame (concat groups).
Proof.
  destruct (merge_tracking_keeps_frames two_ptp_rows wrap_tracking)
    as (groups & frame & Hrun & Hgroups & _ & Hperm & _); [discriminate|].
  exists groups, frame. split; [assumption|]. split; [|assumption].
  symmetry. exact (Forall2_length _ _ _ Hgroups).
Defined.

(** ** The series [add_position] adds *)

Open Scope nat_scope.

Lemma unique_in_order_spec (seen l : list Z) :
  List.NoDup (unique_in_order seen l)
  /\ forall x, In x (unique_in_order seen l) -> In x l /\ ~ In x seen.
Proof.
  revert seen. induction l as [|x l IH]; intros seen.
  - split; [constructor | intros x []].
  - cbn [unique_in_order]. destruct (existsb (Z.eqb x) seen) eqn:Hseen.
    + destruct (IH seen) as [Hnodup Hin]. split; [assumption|].
      intros y Hy. destruct (Hin y Hy). split; [now right | assumption].
    + destruct (IH (x :: seen)) as [Hnodup Hin]. split.
      * apply List.NoDup_cons; [|assumption].
        intros Hx. apply Hin in Hx as [_ Hx]. apply Hx. now left.
      * intros y [<-|Hy].
        -- split; [now left|]. intros Hx.
           assert (existsb (Z.eqb x) seen = true) as Htrue; [|congruence].
           apply existsb_exists. exists x. split; [assumption | apply Z.eqb_refl].
        -- destruct (Hin y Hy) as [Hl Hnot]. split; [now right|].
           intros Hs. apply Hnot. now right.
Qed.

Lemma length_df_video_frame_ind (df : position_df) :
  length (df_video_frame_ind df) = length (position_index df).
Proof. destruct df; cbn; now rewrite !length_map. Qed.

Lemma length_df_labels (df : position_df) :
  length (df_labels df) = length (position_index df).
Proof. destruct df; cbn; now rewrite !length_map. Qed.

Lemma length_df_select (df : position_df) (key_set : list string) :
  length (df_select df key_set) = length (position_index df).
Proof. unfold df_select. destruct df; cbn; now rewrite !length_map. Qed.

Lemma spatial_series_of_epoch (e : Z) (path : option string)
  (df : position_df) (scale : Q) :
  Forall (fun s =>
            (data s = [] \/ length (data s) = length (timestamps s))
            /\ series_epoch (name s) = e
            /\ timestamps s = position_index df)
         (spatial_series_of e path df scale).
Proof.
  unfold spatial_series_of. destruct path as [p|].
  - apply List.Forall_forall. intros s Hs.
    apply in_flat_map in Hs as ([led keys] & _ & Hs).
    cbn beta iota in Hs.
    destruct (0 <? length _); [|destruct Hs].
    destruct Hs as [<-|[]]. cbn [data timestamps name series_epoch].
    split; [right; apply length_df_select | split; reflexivity].
  - repeat constructor.
Qed.

Section one_epoch.
Variables (fs : file_system) (nwb_file : nwb_input) (md : metadata)
          (session_df : list file_info) (ptp_enabled : bool)
          (rec_dci_timestamps : list Q) (sample_count : list Z).

Lemma add_position_epoch_added (st st' : loop_state) (e : Z) :
  outcome (add_position_epoch fs nwb_file md session_df ptp_enabled
             rec_dci_timestamps sample_count st e) = Ok st' ->
  exists path df scale,
    added st'
    = add_series (added st) (spatial_series_of e path df scale)
        {| ts_name := series e; ts_data := df_video_frame_ind df;
           ts_timestamps := position_index df |}
        {| ts_name := series e; ts_data := df_labels df;
           ts_timestamps := position_index df |}.
Proof.
  unfold add_position_epoch. intros Hrun.
  apply outcome_bind_Ok in Hrun as ([path stamps] & _ & Hrun).
  apply outcome_bind_Ok in Hrun as (_ & _ & Hrun).
  apply outcome_bind_Ok in Hrun as (timestamps_path & _ & Hrun).
  apply outcome_bind_Ok in Hrun as (_ & _ & Hrun).
  apply outcome_bind_Ok in Hrun as (_ & _ & Hrun).
  apply outcome_bind_Ok in Hrun as (dio & _ & Hrun).
  apply outcome_bind_Ok in Hrun as (df & _ & Hrun).
  apply outcome_bind_Ok in Hrun as (scale & _ & Hrun).
  injection Hrun as <-. cbn [added]. now exists path, df, scale.
Qed.

Lemma add_series_per_epoch (out : nwb_output) (done : list Z) (e : Z)
  (path : option string) (df : position_df) (scale : Q) :
  series_per_epoch out done ->
  series_per_epoch
    (add_series out (spatial_series_of e path df scale)
       {| ts_name := series e; ts_data := df_video_frame_ind df;
          ts_timestamps := position_index df |}
       {| ts_name := series e; ts_data := df_labels df;
          ts_timestamps := position_index df |})
    (done ++ [e]).
Proof.
  intros (Hindex & Hlabels & Hshared & Hlen_index & Hlen_labels & Hposition).
  unfold series_per_epoch, add_series.
  cbn [position position_frame_index non_repeat_timestamp_labels_module].
  rewrite !map_app, Hindex, Hlabels, Hshared. cbn [map ts_name ts_timestamps].
  split; [reflexivity|]. split; [reflexivity|]. split; [reflexivity|].
  split; [|split].
  - apply Forall_app. split; [assumption|]. constructor; [|constructor].
    apply length_df_video_frame_ind.
  - apply Forall_app. split; [assumption|]. constructor; [|constructor].
    apply length_df_labels.
  - apply Forall_app. split.
    + eapply List.Forall_impl; [|exact Hposition].
      intros s [Hdata (t & Ht & Hname & Htime)]. split; [assumption|].
      exists t. split; [apply in_or_app; now left | now split].
    + eapply List.Forall_impl; [|apply spatial_series_of_epoch].
      intros s (Hdata & Hepoch & Htime). split; [assumption|].
      eexists. split; [apply in_or_app; right; now left|].
      cbn [ts_name ts_timestamps]. rewrite Hepoch, Htime. now split.
Qed.

Lemma add_position_loop_series (es done : list Z) (st st' : loop_state) :
  outcome (add_position_loop fs nwb_file md session_df ptp_enabled
             rec_dci_timestamps sample_count st es) = Ok st' ->
  series_per_epoch (added st) done ->
  series_per_epoch (added st') (done ++ es).
Proof.
  revert done st. induction es as [|e es IH]; intros done st.
  - cbn [add_position_loop]. intros [= <-]. now rewrite app_nil_r.
  - cbn [add_position_loop]. intros Hrun Hdone.
    apply outcome_bind_Ok in Hrun as (st1 & Hstep & Hrun).
    apply add_position_epoch_added in Hstep as (path & df & scale & Hstep).
    rewrite (app_assoc done [e] es : done ++ e :: es = (done ++ [e]) ++ es).
    apply (IH _ st1); [assumption|]. rewrite Hstep.
    now apply add_series_per_epoch.
Qed.
End one_epoch.

(** X20.  When [add_position] returns, the file holds one frame-index
    series and one label series per epoch of the session, named after
    the epoch and in the order in which the epochs first appear in the
    session table, so no name is used twice in a module; the two series
    of an epoch have the same timestamps and one value per timestamp,
    and every spatial series is on the timestamps of the frame-index
    series of its epoch. *)
Theorem add_position_series_per_epoch
  (fs : file_system) (nwb_file : nwb_input) (md : metadata)
  (session_df : list file_info) (ptp_enabled : bool)
  (rec_dci_timestamps : list Q) (sample_count : list Z) (out : nwb_output) :
  outcome (add_position fs nwb_file md session_df ptp_enabled
             rec_dci_timestamps sample_count) = Ok out ->
  series_per_epoch out (unique_in_order [] (map epoch session_df))
  /\ List.NoDup (unique_in_order [] (map epoch session_df)).
Proof.
  unfold add_position. intros Hrun.
  apply outcome_bind_Ok in Hrun as (_ & _ & Hrun).
  apply outcome_bind_Ok in Hrun as (st & Hloop & Hrun).
  injection Hrun as <-. split; [|apply unique_in_order_spec].
  apply (add_position_loop_series _ _ _ _ _ _ _ _ [] _ _ Hloop).
  cbn [added]. unfold series_per_epoch.
  cbn [position position_frame_index non_repeat_timestamp_labels_module map].
  repeat split; constructor.
Qed.

Lemma add_position_series_per_epoch_witness :
  exists out,
    outcome (add_position two_epoch_files empty_nwb two_epoch_metadata
               two_epoch_session true [] []) = Ok out
    /\ series_per_epoch out (unique_in_order [] (map epoch two_epoch_session))
    /\ List.NoDup (unique_in_order [] (map epoch two_epoch_session)).
Proof.
  destruct (outcome (add_position two_epoch_files empty_nwb two_epoch_metadata
                       two_epoch_session true [] []))
    as [out|e] eqn:Hrun; [|vm_compute in Hrun; discriminate].
  exists out. split; [reflexivity|].
  exact (add_position_series_per_epoch two_epoch_files empty_nwb
           two_epoch_metadata two_epoch_session true [] [] out Hrun).
Defined.

(** ** The files of an epoch *)

Open Scope string_scope.

Lemma files_of_In (session_df : list file_info) (e : Z) (extension path : string) :
  In path (files_of session_df e extension) <->
  exists f, In f session_df /\ epoch f = e /\ file_extension f = extension
            /\ full_path f = path.
Proof.
  unfold files_of. rewrite in_map_iff. split.
  - intros (f & Hpath & Hf). apply filter_In in Hf as [Hf Hkeep].
    apply andb_true_iff in Hkeep as [He Hext].
    apply Z.eqb_eq in He. apply String.eqb_eq in Hext. now exists f.
  - intros (f & Hf & He & Hext & Hpath). exists f. split; [assumption|].
    apply filter_In. split; [assumption|].
    apply andb_true_iff. split; [now apply Z.eqb_eq | now apply String.eqb_eq].
Qed.

Lemma mapM_select_In {A} (f : A -> result bool) (l : list A) (r : list bool)
  (a : A) :
  mapM f l = Ok r -> In a (select l r) -> In a l /\ f a = Ok true.
Proof.
  revert r. induction l as [|x l IH]; intros r.
  - intros [= <-] [].
  - cbn [mapM]. destruct (f x) as [b|] eqn:Hb; [|discriminate].
    cbn [mbind result_bind]. destruct (mapM f l) as [bs|]; [|discriminate].
    cbn [mbind result_bind]. intros [= <-]. cbn [select].
    destruct b.
    + intros [<-|Ha]; [split; [now left | assumption]|].
      destruct (IH bs eq_refl Ha). split; [now right | assumption].
    + intros Ha. destruct (IH bs eq_refl Ha). split; [now right | assumption].
Qed.

Lemma getitem_In {A} (l : list A) (i : nat) (a : A) :
  getitem l i = Ok a -> In a l.
Proof.
  unfold getitem. destruct (l !! i) eqn:Hi; [|discriminate].
  intros [= <-]. now apply list_elem_of_In, list_elem_of_lookup_2 with i.
Qed.

Lemma getitem_first {A} (l : list A) (a : A) :
  getitem l 0 = Ok a -> head l = Some a.
Proof. destruct l as [|x l]; [discriminate|]. now intros [= <-]. Qed.

(** X21.  When the files of an epoch are found, the tracking file is the
    first [.videoPositionTracking] file of that epoch in the session
    table, and the timestamps file is a [.cameraHWSync] file of the same
    epoch whose third dotted component from the end is the second dotted
    component from the end of the tracking file: both belong to the same
    video. *)
Theorem locate_epoch_files_sound
  (session_df : list file_info) (e : Z) (tracking stamps : string) :
  locate_epoch_files session_df e = Ok (tracking, stamps) ->
  head (files_of session_df e ".videoPositionTracking") = Some tracking
  /\ (exists f, In f session_df /\ epoch f = e
                /\ file_extension f = ".cameraHWSync"
                /\ full_path f = stamps)
  /\ exists video_index,
       getitem_from_end (split_on "."%char tracking) 2 = Ok video_index
       /\ getitem_from_end (split_on "."%char stamps) 3 = Ok video_index.
Proof.
  unfold locate_epoch_files.
  destruct (getitem (files_of session_df e ".videoPositionTracking") 0)
    as [path|] eqn:Hpath; [|discriminate].
  apply getitem_first in Hpath.
  cbn [mbind result_bind].
  destruct (getitem_from_end (split_on "."%char path) 2) as [video_index|]
    eqn:Hindex; [|discriminate].
  cbn [mbind result_bind].
  destruct (mapM _ _) as [same_index|] eqn:Hsame; [|discriminate].
  cbn [mbind result_bind].
  destruct (getitem _ 0) as [found|] eqn:Hfound; [|discriminate].
  cbn [mbind result_bind]. intros [= <- <-].
  apply getitem_In in Hfound.
  apply (mapM_select_In _ _ _ _ Hsame) in Hfound as [Hin Hpart].
  split; [exact Hpath|]. split; [now apply files_of_In|].
  exists video_index. split; [exact Hindex|].
  destruct (getitem_from_end (split_on "."%char found) 3) as [part|];
    [|discriminate].
  cbn [mbind result_bind] in Hpart. injection Hpart as Hpart.
  apply String.eqb_eq in Hpart. now subst.
Qed.

Lemma locate_epoch_files_sound_witness :
  exists tracking stamps video_index,
    locate_epoch_files two_epoch_session 1 = Ok (tracking, stamps)
    /\ getitem_from_end (split_on "."%char tracking) 2 = Ok video_index
    /\ getitem_from_end (split_on "."%char stamps) 3 = Ok video_index.
Proof.
  destruct (locate_epoch_files two_epoch_session 1)
    as [[tracking stamps]|err] eqn:Hrun; [|vm_compute in Hrun; discriminate].
  destruct (locate_epoch_files_sound two_epoch_session 1 tracking stamps Hrun)
    as (_ & _ & video_index & Htracking & Hstamps).
  exists tracking, stamps, video_index. repeat split; assumption.
Defined.

(** ** Camera time by sample label *)

Open Scope Z_scope.

Lemma filter_unique_key {R} (k : Z) (mcu : list (Z * R)) :
  List.NoDup (map fst mcu) -> In k (map fst mcu) ->
  exists t, In (k, t) mcu
            /\ List.filter (fun m => fst m =? k) mcu = [(k, t)].
Proof.
  induction mcu as [|[k' t'] mcu IH]; [intros _ []|].
  cbn [map fst]. intros Hnodup Hin.
  apply List.NoDup_cons_iff in Hnodup as [Hfresh Hnodup].
  cbn [List.filter fst]. destruct (Z.eqb_spec k' k) as [->|Hneq].
  - exists t'. split; [now left|]. f_equal.
    clear IH Hin Hnodup. induction mcu as [|[k'' t''] mcu IH]; [reflexivity|].
    cbn [List.filter fst map] in *.
    destruct (Z.eqb_spec k'' k) as [->|_]; [exfalso; apply Hfresh; now left|].
    apply IH. intros Hk. apply Hfresh. now right.
  - destruct Hin as [Heq|Hin]; [congruence|].
    destruct (IH Hnodup Hin) as (t & Ht & Hfilter).
    exists t. split; [now right | assumption].
Qed.

(** X22.  When no sample label occurs twice in [mcu_timestamps],
    [estimate_camera_time_from_mcu_time] flags the frames whose label is
    in [mcu_timestamps] and returns one time per flagged frame, in the
    order of the frames: the time stored under the label of the frame. *)
Theorem camera_time_by_label {P R}
  (position_timestamps : list (Z * P)) (mcu_timestamps : list (Z * R)) :
  List.NoDup (map fst mcu_timestamps) ->
  forall camera_systime is_valid_camera_time,
  estimate_camera_time_from_mcu_time position_timestamps mcu_timestamps
  = (camera_systime, is_valid_camera_time) ->
  Forall2 (fun kr valid => valid = true <-> In (fst kr) (map fst mcu_timestamps))
          position_timestamps is_valid_camera_time
  /\ Forall2 (fun k t => In (k, t) mcu_timestamps)
             (select (map fst position_timestamps) is_valid_camera_time)
             camera_systime
  /\ length camera_systime = length (List.filter id is_valid_camera_time).
Proof.
  intros Hnodup camera_systime is_valid_camera_time.
  unfold estimate_camera_time_from_mcu_time.
  set (valid := map (fun kr => isinZ (fst kr) (map fst mcu_timestamps))
                    position_timestamps).
  intros [= <- <-].
  assert (Forall2 (fun k t => In (k, t) mcu_timestamps)
            (select (map fst position_timestamps) valid)
            (flat_map
               (fun k => map snd (List.filter (fun m => fst m =? k) mcu_timestamps))
               (select (map fst position_timestamps) valid))) as Htimes.
  { assert (Forall (fun k => In k (map fst mcu_timestamps))
              (select (map fst position_timestamps) valid)) as Hkeys.
    { subst valid.
      rewrite <- (map_map fst (fun k => isinZ k (map fst mcu_timestamps))).
      rewrite select_map_filter. apply List.Forall_forall. intros k Hk.
      apply filter_In in Hk as [_ Hk]. now apply isinZ_In. }
    induction Hkeys as [|k keys Hk _ IH]; [constructor|].
    cbn [flat_map].
    destruct (filter_unique_key k mcu_timestamps Hnodup Hk) as (t & Ht & ->).
    cbn [map snd app]. now constructor. }
  split; [|split].
  - clear Htimes. subst valid.
    induction position_timestamps as [|kr rest IH]; [constructor|].
    cbn [map]. constructor; [apply isinZ_In | exact IH].
  - exact Htimes.
  - rewrite <- (Forall2_length _ _ _ Htimes). apply length_select.
    subst valid. now rewrite !length_map.
Qed.

Lemma camera_time_by_label_witness :
  exists camera_systime is_valid_camera_time,
    estimate_camera_time_from_mcu_time
      [(1, 10%Q); (2, 20%Q); (3, 30%Q)] [(1, 15%Q); (3, 25%Q)]
    = (camera_systime, is_valid_camera_time)
    /\ camera_systime = [15%Q; 25%Q]
    /\ length camera_systime = length (List.filter id is_valid_camera_time).
Proof.
  eexists _, _. split; [reflexivity|]. split; [reflexivity|].
  refine (proj2 (proj2 (camera_time_by_label
                          [(1, 10%Q); (2, 20%Q); (3, 30%Q)]
                          [(1, 15%Q); (3, 25%Q)] _ _ _ eq_refl))).
  repeat constructor; cbn; intuition discriminate.
Defined.

(** ** What the precision-clock conversion does not read *)

Lemma add_position_loop_ptp_ignores
  (fs : file_system) (nwb_file nwb_file' : nwb_input) (md : metadata)
  (session_df : list file_info)
  (rec_dci_timestamps rec_dci_timestamps' : list Q)
  (sample_count sample_count' : list Z)
  (epochs_left : list Z) (st : loop_state) :
  add_position_loop fs nwb_file md session_df true
    rec_dci_timestamps sample_count st epochs_left
  = add_position_loop fs nwb_file' md session_df true
      rec_dci_timestamps' sample_count' st epochs_left.
Proof.
  revert st. induction epochs_left as [|e rest IH]; intros st; [reflexivity|].
  cbn [add_position_loop].
  change (add_position_epoch fs nwb_file md session_df true
            rec_dci_timestamps sample_count st e)
    with (add_position_epoch fs nwb_file' md session_df true
            rec_dci_timestamps' sample_count' st e).
  destruct (add_position_epoch _ _ _ _ _ _ _ st e) as [l [st'|err]];
    cbn [mbind logged_bind]; [|reflexivity].
  now rewrite IH.
Qed.

(** X23.  With the precision clock enabled, [add_position] reads neither
    the recorder timestamps, nor the sample counts, nor the epochs and
    pulse channels of the file: its result and its log are the same
    whatever they are. *)
Theorem add_position_ptp_ignores_recorder
  (fs : file_system) (nwb_file nwb_file' : nwb_input) (md : metadata)
  (session_df : list file_info)
  (rec_dci_timestamps rec_dci_timestamps' : list Q)
  (sample_count sample_count' : list Z) :
  add_position fs nwb_file md session_df true rec_dci_timestamps sample_count
  = add_position fs nwb_file' md session_df true
      rec_dci_timestamps' sample_count'.
Proof.
  unfold add_position. cbn [negb andb].
  now rewrite (add_position_loop_ptp_ignores fs nwb_file nwb_file' md
                 session_df rec_dci_timestamps rec_dci_timestamps'
                 sample_count sample_count').
Qed.

(** ** The outcomes of the pulse channel of an epoch *)

Open Scope nat_scope.

Section channel_outcomes.
Variables (time_series : list (string * list Q)) (epoch_start epoch_end : Q).

Lemma first_channel_insufficient_iff (names : list string) :
  (forall camera, In camera names -> In camera (map fst time_series)) ->
  first_channel_with_ticks time_series epoch_start epoch_end names
  = Raise insufficient_ticks
  <-> forall camera ticks, In camera names ->
        dict_get time_series camera = Ok ticks ->
        ticks_in_epoch epoch_start epoch_end ticks <= 100.
Proof.
  induction names as [|camera rest IH]; intros Hkeys.
  - split; [intros _ camera ticks [] | reflexivity].
  - destruct (dict_get_key time_series camera (Hkeys camera (or_introl eq_refl)))
      as [ticks Hget].
    rewrite (first_channel_step _ _ _ _ _ _ Hget).
    assert (forall c, In c rest -> In c (map fst time_series)) as Hrest
      by (intros c Hc; apply Hkeys; now right).
    destruct (Nat.ltb_spec 100 (ticks_in_epoch epoch_start epoch_end ticks))
      as [Hmany|Hfew].
    + split; [discriminate|].
      intros Hall. specialize (Hall camera ticks (or_introl eq_refl) Hget). lia.
    + rewrite (IH Hrest). split.
      * intros Hall c t [<-|Hc] Hc_get; [|now apply (Hall c)].
        rewrite Hget in Hc_get. now injection Hc_get as <-.
      * intros Hall c t Hc. apply Hall. now right.
Qed.

Lemma first_channel_outcomes (names : list string) :
  (forall camera, In camera names -> In camera (map fst time_series)) ->
  (exists ticks,
     first_channel_with_ticks time_series epoch_start epoch_end names = Ok ticks)
  \/ first_channel_with_ticks time_series epoch_start epoch_end names
     = Raise insufficient_ticks.
Proof.
  induction names as [|camera rest IH]; intros Hkeys; [now right|].
  destruct (dict_get_key time_series camera (Hkeys camera (or_introl eq_refl)))
    as [ticks Hget].
  rewrite (first_channel_step _ _ _ _ _ _ Hget).
  destruct (100 <? ticks_in_epoch epoch_start epoch_end ticks); [left; eauto|].
  apply IH. intros c Hc. apply Hkeys. now right.
Qed.
End channel_outcomes.

(** X24.  [find_camera_dio_channel_per_epoch] has three outcomes and no
    other: it returns the ticks of a channel, or it raises the not-found
    error, which it does exactly when no channel name contains
    ["camera ticks"], or it raises the insufficient-data error, which it
    does exactly when there are such channels and each of them has at
    most 100 ticks within the epoch.  A channel with exactly 100 ticks in
    the epoch is not enough. *)
Theorem per_epoch_channel_outcomes
  (time_series : list (string * list Q)) (epoch_start epoch_end : Q) :
  let names := camera_channel_names time_series in
  let result :=
    find_camera_dio_channel_per_epoch time_series epoch_start epoch_end in
  ((exists ticks, result = Ok ticks)
   \/ result = Raise no_channel \/ result = Raise insufficient_ticks)
  /\ (result = Raise no_channel <-> names = [])
  /\ (result = Raise insufficient_ticks
      <-> names <> []
          /\ forall camera ticks, In camera names ->
               dict_get time_series camera = Ok ticks ->
               ticks_in_epoch epoch_start epoch_end ticks <= 100).
Proof.
  cbn zeta. unfold find_camera_dio_channel_per_epoch.
  pose proof (camera_channel_names_keys time_series) as Hkeys.
  pose proof (first_channel_outcomes time_series epoch_start epoch_end
                (camera_channel_names time_series) Hkeys) as Houtcomes.
  pose proof (first_channel_insufficient_iff time_series epoch_start epoch_end
                (camera_channel_names time_series) Hkeys) as Hinsufficient.
  destruct (camera_channel_names time_series) as [|camera rest] eqn:Hnames.
  - split; [right; now left|]. split; [tauto|].
    split; [discriminate | intros [Hne _]; congruence].
  - split; [destruct Houtcomes as [Hok|Hraise]; [now left | right; now right]|].
    split.
    + split; [|discriminate]. intros Hnone.
      destruct Houtcomes as [[ticks Hok]|Hraise]; [congruence|].
      rewrite Hraise in Hnone. discriminate.
    + rewrite Hinsufficient. split; [intros Hall; split; [discriminate|exact Hall]|].
      now intros [_ Hall].
Qed.

Lemma per_epoch_channel_outcomes_witness :
  find_camera_dio_channel_per_epoch two_camera_channels 0 200
  = Raise no_channel
  <-> camera_channel_names two_camera_channels = [].
Proof.
  exact (proj1 (proj2 (per_epoch_channel_outcomes two_camera_channels 0 200))).
Defined.

(** ** A recording without a break *)

Open Scope Z_scope.

Lemma all_false_replicate (l : list bool) :
  Forall (fun b => b = false) l -> l = replicate (length l) false.
Proof.
  induction 1 as [|b l -> _ IH]; [reflexivity|].
  cbn [length replicate]. now f_equal.
Qed.

Lemma no_repeat_flags (ts : list Z) :
  StronglySorted Z.lt ts ->
  detect_repeat_timestamps ts = replicate (S (length ts - 1)) false.
Proof.
  intros Hsorted. rewrite <- length_detect_repeat_timestamps.
  apply all_false_replicate.
  pose proof (increasing_has_no_repeat ts Hsorted) as Hall.
  induction (detect_repeat_timestamps ts) as [|b l IH]; [constructor|].
  cbn [map] in Hall. inversion Hall as [|? ? Hb Hl]; subst.
  constructor; [now destruct b | now apply IH].
Qed.

Lemma no_jump_flags (frame_count : list Z) (jump : Z) :
  (forall i a b, frame_count !! i = Some a -> frame_count !! S i = Some b ->
                 b - a <= jump) ->
  find_large_frame_jumps frame_count jump
  = replicate (S (length frame_count - 1)) false.
Proof.
  intros Hsteps. rewrite <- length_find_large_frame_jumps with (jump := jump).
  apply all_false_replicate. unfold find_large_frame_jumps.
  constructor; [reflexivity|].
  apply Forall_lookup. intros i flag Hflag.
  rewrite list_lookup_fmap in Hflag.
  destruct (np_diff frame_count !! i) as [d|] eqn:Hd; [|discriminate].
  injection Hflag as <-. unfold np_diff in Hd.
  apply lookup_zip_with_Some in Hd as (a & b & -> & Ha & Hb).
  rewrite lookup_tail in Hb. apply Z.ltb_ge. now apply (Hsteps i).
Qed.

Lemma keep_long_runs_no_flag (n : nat) :
  keep_long_runs (replicate n false) = replicate n false.
Proof.
  rewrite <- (length_replicate n false) at 2.
  rewrite <- length_keep_long_runs. apply all_false_replicate.
  apply Forall_lookup. intros i flag Hflag.
  assert (i < n)%nat as Hi.
  { apply lookup_lt_Some in Hflag.
    now rewrite length_keep_long_runs, length_replicate in Hflag. }
  rewrite (keep_long_runs_unflagged (replicate n false) i) in Hflag
    by now apply lookup_replicate_2.
  now injection Hflag as <-.
Qed.

Lemma np_unique_replicate (n x : nat) :
  np_unique (replicate (S n) x) = [x].
Proof.
  induction n as [|n IH]; [reflexivity|].
  change (np_unique (replicate (S (S n)) x))
    with (insert_unique x (np_unique (replicate (S n) x))).
  rewrite IH. cbn [insert_unique]. now rewrite Nat.ltb_irrefl, Nat.eqb_refl.
Qed.

(** X25.  On a recording without a break, where the trodes time increases
    strictly and the frame count never advances by more than 15 from one
    frame to the next, [detect_trodes_time_repeats_or_frame_jumps] puts
    every frame in segment 1 and returns the single segment id 1. *)
Theorem segmentation_of_clean_recording (trodes_time frame_count : list Z) :
  trodes_time <> [] ->
  length trodes_time = length frame_count ->
  StronglySorted Z.lt trodes_time ->
  (forall i a b, frame_count !! i = Some a -> frame_count !! S i = Some b ->
                 b - a <= 15) ->
  detect_trodes_time_repeats_or_frame_jumps trodes_time frame_count
  = Ok (replicate (length trodes_time) 1%nat, [1%nat]).
Proof.
  intros Hne Hlen Hsorted Hsteps.
  unfold detect_trodes_time_repeats_or_frame_jumps.
  rewrite repeat_or_jump_flags_union by assumption.
  cbn [mbind result_bind]. unfold default_min_frame_jump.
  rewrite no_repeat_flags, no_jump_flags by assumption.
  rewrite <- Hlen.
  destruct trodes_time as [|t ts]; [congruence|].
  cbn [length Nat.sub]. rewrite Nat.sub_0_r.
  rewrite zip_with_replicate. cbn [orb].
  rewrite keep_long_runs_no_flag. unfold label_segments.
  rewrite map_replicate. cbn [negb]. unfold label.
  rewrite label_from_replicate, np_unique_replicate. reflexivity.
Qed.

Lemma segmentation_of_clean_recording_witness :
  detect_trodes_time_repeats_or_frame_jumps [1; 2; 3; 4] [0; 10; 20; 30]
  = Ok ([1; 1; 1; 1]%nat, [1%nat]).
Proof.
  apply (segmentation_of_clean_recording [1; 2; 3; 4] [0; 10; 20; 30]).
  - discriminate.
  - reflexivity.
  - repeat (constructor; try reflexivity).
  - intros [|[|[|[|i]]]] a b Ha Hb; try discriminate;
      injection Ha as <-; injection Hb as <-; lia.
Defined.

(** ** The names of the video files *)

Open Scope string_scope.
Open Scope nat_scope.

Lemma split_on_nonempty (sep : ascii) (s : string) : split_on sep s <> [].
Proof.
  destruct s as [|c s]; [discriminate|]. cbn [split_on].
  destruct (Ascii.eqb c sep); [discriminate|].
  destruct (split_on sep s); discriminate.
Qed.

Lemma getitem_from_end_last {A} (l : list A) (d : A) :
  l <> [] -> getitem_from_end l 1 = Ok (List.last l d).
Proof.
  intros Hne. unfold getitem_from_end, getitem.
  destruct l as [|x l]; [congruence|].
  cbn [length]. rewrite (proj2 (Nat.ltb_ge _ _)) by lia.
  replace (S (length l) - 1) with (length l) by lia.
  clear Hne. revert x. induction l as [|y l IH]; intros x; [reflexivity|].
  change ((x :: y :: l) !! length (y :: l)) with ((y :: l) !! length l).
  change (List.last (x :: y :: l) d) with (List.last (y :: l) d).
  apply IH.
Qed.

(** The component after the last separator holds no separator. *)
Lemma last_component_whole (sep : ascii) (s : string) :
  split_on sep (List.last (split_on sep s) "") = [List.last (split_on sep s) ""].
Proof.
  induction s as [|c s IH]; [reflexivity|].
  cbn [split_on]. destruct (Ascii.eqb c sep) eqn:Hc.
  - pose proof (split_on_nonempty sep s) as Hne.
    destruct (split_on sep s) as [|w ws]; [congruence|]. exact IH.
  - pose proof (split_on_nonempty sep s) as Hne.
    destruct (split_on sep s) as [|w ws]; [congruence|].
    destruct ws as [|x xs]; [|exact IH].
    cbn [List.last] in *. cbn [split_on]. rewrite Hc, IH. reflexivity.
Qed.

Lemma split_on_app (sep : ascii) (a b : string) :
  split_on sep b = [b] ->
  split_on sep (a ++ b)
  = (removelast (split_on sep a)
       ++ [(List.last (split_on sep a) "" ++ b)%string])%list.
Proof.
  intros Hb. induction a as [|c a IH]; [exact Hb|].
  cbn [append split_on]. rewrite IH.
  pose proof (split_on_nonempty sep a) as Hne.
  destruct (split_on sep a) as [|w ws]; [congruence|].
  destruct (Ascii.eqb c sep).
  - reflexivity.
  - destruct ws as [|x xs]; reflexivity.
Qed.

Lemma last_snoc_default {A} (l : list A) (x d : A) :
  List.last (l ++ [x]) d = x.
Proof. apply last_last. Qed.

Lemma split_on_only_empty (sep : ascii) (s : string) :
  split_on sep s = [""] -> s = "".
Proof.
  destruct s as [|c s]; [reflexivity|]. cbn [split_on].
  pose proof (split_on_nonempty sep s) as Hne.
  destruct (Ascii.eqb c sep).
  - destruct (split_on sep s); [congruence | discriminate].
  - destruct (split_on sep s); [congruence | discriminate].
Qed.

Lemma append_nonempty (a : string) (c : ascii) : a ++ String c "" <> "".
Proof. destruct a; discriminate. Qed.

(** The last component is empty for the empty string and for a string that
    ends in the separator, and for no other. *)
Lemma last_component_empty (sep : ascii) (s : string) :
  List.last (split_on sep s) "" = ""
  <-> s = "" \/ exists prefix, s = prefix ++ String sep "".
Proof.
  induction s as [|c s IH].
  - split; [now left | reflexivity].
  - cbn [split_on].
    pose proof (split_on_nonempty sep s) as Hne.
    pose proof (split_on_only_empty sep s) as Honly.
    destruct (split_on sep s) as [|w ws] eqn:Hsplit; [congruence|].
    destruct (Ascii.eqb_spec c sep) as [->|Hc].
    + change (List.last ("" :: w :: ws) "") with (List.last (w :: ws) "").
      rewrite IH. split.
      * intros [->|[prefix ->]]; right.
        -- now exists "".
        -- now exists (String sep prefix).
      * intros [Hnil|[[|c' prefix] Heq]]; [discriminate| |].
        -- injection Heq as ->. now left.
        -- injection Heq as _ ->. right. now exists prefix.
    + split.
      * intros Hlast. destruct ws as [|x xs]; [discriminate|].
        change (List.last (String c w :: x :: xs) "")
          with (List.last (w :: x :: xs) "") in Hlast.
        right. apply IH in Hlast as [->|[prefix ->]]; [discriminate|].
        now exists (String c prefix).
      * intros [Hnil|[[|c' prefix] Heq]]; [discriminate| |].
        -- injection Heq as -> _. congruence.
        -- injection Heq as _ ->.
           assert (List.last (w :: ws) "" = "") as Hlast
             by (apply IH; right; now exists prefix).
           destruct ws as [|x xs]; [|exact Hlast].
           cbn [List.last] in Hlast. subst w.
           exfalso. exact (append_nonempty prefix sep (Honly eq_refl)).
Qed.

Lemma string_length_append (a b : string) :
  String.length (a ++ b) = String.length a + String.length b.
Proof. induction a as [|c a IH]; [reflexivity|]. cbn. now rewrite IH. Qed.

(** X26.  Neither way of naming the stored video can fail, and the name
    recorded as [external_file] is not always the file name of the
    video: it is the text after the last ["/"] of [video_directory]
    followed by the file name of the video (with every [".h264"] turned
    into [".mp4"] first when the video is converted).  It is the bare file
    name exactly when [video_directory] is empty or ends in ["/"]. *)
Theorem external_file_name
  (convert_video : bool) (video_path video_directory : string) :
  let source :=
    if convert_video then str_replace ".h264" ".mp4" video_path
    else video_path in
  exists directory_tail base,
    getitem_from_end (split_on "/"%char video_directory) 1 = Ok directory_tail
    /\ getitem_from_end (split_on "/"%char source) 1 = Ok base
    /\ (if convert_video then converted_file_name video_path video_directory
        else copied_file_name video_path video_directory)
       = Ok (video_directory ++ base)
    /\ external_file_of convert_video video_path video_directory
       = Ok (directory_tail ++ base)
    /\ (external_file_of convert_video video_path video_directory = Ok base
        <-> directory_tail = "")
    /\ (directory_tail = ""
        <-> video_directory = ""
            \/ exists prefix, video_directory = prefix ++ "/").
Proof.
  cbn zeta.
  set (source := if convert_video then _ else video_path).
  exists (List.last (split_on "/"%char video_directory) ""),
         (List.last (split_on "/"%char source) "").
  assert (getitem_from_end (split_on "/"%char source) 1
          = Ok (List.last (split_on "/"%char source) "")) as Hbase
    by apply getitem_from_end_last, split_on_nonempty.
  assert ((if convert_video
           then converted_file_name video_path video_directory
           else copied_file_name video_path video_directory)
          = Ok (video_directory ++ List.last (split_on "/"%char source) ""))
    as Hname.
  { subst source. destruct convert_video;
      unfold converted_file_name, copied_file_name; cbn zeta;
      rewrite Hbase; reflexivity. }
  assert (external_file_of convert_video video_path video_directory
          = Ok (List.last (split_on "/"%char video_directory) ""
                ++ List.last (split_on "/"%char source) "")) as Hexternal.
  { unfold external_file_of. rewrite Hname. cbn [mbind result_bind].
    rewrite split_on_app by apply last_component_whole.
    rewrite (getitem_from_end_last _ "").
    - now rewrite last_snoc_default.
    - intros Hnil. apply app_eq_nil in Hnil as [_ Hnil]. discriminate. }
  split; [apply getitem_from_end_last, split_on_nonempty|].
  split; [exact Hbase|]. split; [exact Hname|]. split; [exact Hexternal|].
  split; [|apply last_component_empty].
  rewrite Hexternal. split.
  - intros [= Heq].
    destruct (List.last (split_on "/"%char video_directory) "") as [|c tl];
      [reflexivity|].
    exfalso. apply (f_equal String.length) in Heq.
    cbn [append String.length] in Heq. rewrite string_length_append in Heq. lia.
  - intros ->. reflexivity.
Qed.

(** ** The frames of the fallback table *)

Open Scope nat_scope.

Lemma load_video_timestamps_In
  (data : list hw_sync_record) (rows : list (Z * video_row)) (ids : list nat)
  (k : Z) (r : video_row) :
  outcome (load_video_timestamps data) = Ok (rows, ids) ->
  In (k, r) rows ->
  0 < non_repeat_timestamp_labels r
  /\ (exists d, data !! video_frame_ind r = Some d
                /\ PosTimestamp d = k
                /\ HWTimestamp r = HWTimestamp_raw d)
  /\ unwrap_frame_count (map frameCount data) !! video_frame_ind r
     = Some (HWframeCount r).
Proof.
  rewrite load_video_timestamps_outcome.
  destruct (detect_trodes_time_repeats_or_frame_jumps _ _)
    as [[labels ids']|]; [|discriminate].
  destruct (negb (length labels =? length data)); [discriminate|].
  intros [= <- <-] Hin. apply filter_In in Hin as [Hin Hpos].
  apply Nat.ltb_lt in Hpos. cbn [snd] in Hpos.
  apply list_elem_of_In, list_elem_of_lookup in Hin as [i Hi].
  apply table_lookup in Hi as (d & fc & lab & Hd & Hfc & Hlab & [= -> ->]).
  cbn in *. split; [exact Hpos|]. split; [exists d; auto | exact Hfc].
Qed.

Lemma merge_position_tracking_In
  (video_timestamps : list (Z * video_row))
  (position_tracking : option tracking_file)
  (columns : list string) (merged : list (Z * video_row))
  (k : Z) (r' : video_row) :
  merge_position_tracking video_timestamps position_tracking
  = Ok (columns, merged) ->
  In (k, r') merged ->
  exists r, In (k, r) video_timestamps /\ r' = with_tracked r (tracked r').
Proof.
  unfold merge_position_tracking. destruct position_tracking as [file|].
  - destruct (np_mask _ _) as [kept|]; [|discriminate].
    cbn [mbind result_bind]. intros [= <- <-] Hin.
    now apply merge_left_In in Hin.
  - intros [= <- <-] Hin. exists r'.
    split; [assumption | now rewrite with_tracked_same].
Qed.

Lemma select_In {A} (l : list A) (mask : list bool) (x : A) :
  In x (select l mask) ->
  exists i, l !! i = Some x /\ mask !! i = Some true.
Proof.
  revert mask. induction l as [|y l IH]; intros [|b mask]; try (intros []).
  cbn [select]. destruct b.
  - intros [<-|Hin]; [now exists 0|].
    destruct (IH mask Hin) as (i & Hl & Hm). now exists (S i).
  - intros Hin. destruct (IH mask Hin) as (i & Hl & Hm). now exists (S i).
Qed.

Lemma in_zip_snd {A B} (l : list A) (k : list B) (a : A) (b : B) :
  In (a, b) (zip l k) -> In b k.
Proof.
  revert k. induction l as [|x l IH]; intros [|y k]; cbn; try tauto.
  intros [[= <- <-]|Hin]; [now left | right; now apply (IH k)].
Qed.

Lemma reindex_and_collapse_In
  (video_timestamps : list (Z * video_row)) (corrected : list (list Q))
  (frame : list (Q * video_row)) (t : Q) (r : video_row) :
  reindex_and_collapse video_timestamps corrected = Ok frame ->
  In (t, r) frame ->
  exists k first,
    In (k, first) video_timestamps
    /\ HWframeCount r = HWframeCount first
    /\ HWTimestamp r = HWTimestamp first
    /\ video_frame_ind r = video_frame_ind first
    /\ non_repeat_timestamp_labels r = non_repeat_timestamp_labels first.
Proof.
  unfold reindex_and_collapse.
  destruct (np_concatenate corrected) as [times|]; [|discriminate].
  cbn [mbind result_bind]. unfold set_index.
  destruct (length video_timestamps =? length times); [|discriminate].
  cbn [mbind result_bind]. intros [= <-] Hin.
  apply collapse_In in Hin as [_ Hrow].
  destruct (group_rows t (zip times (map snd video_timestamps)))
    as [|first others] eqn:Hgroup; [discriminate|].
  cbn [first_row] in Hrow. injection Hrow as <-.
  assert (In first (group_rows t (zip times (map snd video_timestamps))))
    as Hfirst by (rewrite Hgroup; now left).
  unfold group_rows in Hfirst.
  apply in_map_iff in Hfirst as ([t' first'] & Heq & Hfirst).
  cbn [snd] in Heq. subst first'.
  apply filter_In in Hfirst as [Hfirst _]. apply in_zip_snd in Hfirst.
  apply in_map_iff in Hfirst as ([k first'] & Heq & Hfirst).
  cbn [snd] in Heq. subst first'.
  exists k, first. split; [assumption|]. repeat split; reflexivity.
Qed.

(** X27.  Every row of the table that [get_position_timestamps] returns
    on the fallback path is a frame of the timestamps file: the row's
    [video_frame_ind] is the position of a frame in the file whose
    trodes time is one of the recorded sample counts, the row carries
    the hardware time and the unwrapped frame count of that frame, and
    its segment label is positive, so no frame of a break is in the
    table. *)
Theorem fallback_table_sound
  (position_timestamps : list hw_sync_record)
  (position_tracking : option tracking_file)
  (rec_dci_timestamps dio_camera_timestamps : list Q) (sample_count : list Z)
  (df : position_df) :
  outcome (get_position_timestamps position_timestamps position_tracking
             rec_dci_timestamps dio_camera_timestamps sample_count false)
  = Ok df ->
  exists columns frame,
    df = NonPtpFrame columns frame
    /\ forall t r, In (t, r) frame ->
         0 < non_repeat_timestamp_labels r
         /\ exists d,
              position_timestamps !! video_frame_ind r = Some d
              /\ In (PosTimestamp d) sample_count
              /\ HWTimestamp r = HWTimestamp_raw d
              /\ unwrap_frame_count (map frameCount position_timestamps)
                   !! video_frame_ind r
                 = Some (HWframeCount r).
Proof.
  unfold get_position_timestamps. intros H.
  apply outcome_bind_Ok in H as ([rows0 ids] & Hload & H).
  apply outcome_bind_Ok in H as ([columns rows1] & Hmerge & H).
  unfold lift in Hmerge. cbn [outcome] in Hmerge.
  cbn beta iota in H. unfold get_position_timestamps_non_ptp in H.
  apply outcome_bind_Ok in H as (pause & _ & H).
  apply outcome_bind_Ok in H as ([valid camera] & Hcamera & H).
  apply outcome_bind_Ok in H as ([[[dio fc] valid'] camera'] & Hremove & H).
  apply outcome_bind_Ok in H as (rows2 & Hmask & H).
  apply outcome_bind_Ok in H as (_ & _ & H).
  apply outcome_bind_Ok in H as (lag & _ & H).
  apply outcome_bind_Ok in H as (_ & _ & H).
  apply outcome_bind_Ok in H as (corrected & _ & H).
  apply outcome_bind_Ok in H as (frame & Hframe & H).
  cbn in H. injection H as <-.
  unfold lift in Hcamera, Hremove, Hmask, Hframe.
  cbn [outcome] in Hcamera, Hremove, Hmask, Hframe.
  exists columns, frame. split; [reflexivity|]. intros t r Hin.
  destruct (reindex_and_collapse_In _ _ _ _ _ Hframe Hin)
    as (k & first & Hfirst & Hcount & Htime & Hind & Hlabel).
  (* the row survived the validity mask *)
  unfold np_mask in Hmask.
  destruct (length rows1 =? length valid'); [|discriminate].
  injection Hmask as <-.
  apply select_In in Hfirst as (i & Hrow & Hvalid').
  (* the mask only lost flags when the pause was removed *)
  assert (valid !! i = Some true) as Hvalid.
  { unfold remove_acquisition_timing_pause_non_ptp in Hremove.
    destruct (np_mask _ valid) as [vfc|]; [|discriminate].
    cbn [mbind result_bind] in Hremove.
    destruct (np_mask vfc _) as [fc2|]; [|discriminate].
    cbn [mbind result_bind] in Hremove.
    destruct (length (List.filter id valid) =? _); [|discriminate].
    cbn [mbind result_bind] in Hremove. injection Hremove as _ _ <- _.
    now apply assign_where_true_only_clears in Hvalid'. }
  (* valid frames are those at a recorded sample *)
  assert (In k sample_count) as Hsample.
  { unfold camera_systime_of in Hcamera.
    destruct (mapM _ _) as [cs|]; [|discriminate].
    cbn [mbind result_bind] in Hcamera. injection Hcamera as <- _.
    rewrite list_lookup_fmap, Hrow in Hvalid. cbn in Hvalid.
    injection Hvalid as Hvalid. now apply isinZ_In. }
  assert (In (k, first) rows1) as Hin1
    by now apply list_elem_of_In, list_elem_of_lookup_2 with i.
  destruct (merge_position_tracking_In _ _ _ _ _ _ Hmerge Hin1)
    as (r0 & Hin0 & Hsame).
  destruct (load_video_timestamps_In _ _ _ _ _ Hload Hin0)
    as (Hpos & (d & Hd & Hk & Hhw) & Hfc).
  rewrite Hsame in Hcount, Htime, Hind, Hlabel.
  cbn [with_tracked HWframeCount HWTimestamp video_frame_ind
       non_repeat_timestamp_labels] in Hcount, Htime, Hind, Hlabel.
  rewrite Hlabel, Hind, Htime, Hcount. split; [exact Hpos|].
  exists d. subst k. auto.
Qed.

Lemma fallback_table_sound_witness :
  exists df columns frame,
    outcome (get_position_timestamps wrap_data (Some wrap_tracking)
               wrap_rec_dci wrap_dio wrap_sample_count false)
    = Ok df
    /\ df = NonPtpFrame columns frame
    /\ forall t r, In (t, r) frame ->
         0 < non_repeat_timestamp_labels r
         /\ exists d,
              wrap_data !! video_frame_ind r = Some d
              /\ In (PosTimestamp d) wrap_sample_count
              /\ HWTimestamp r = HWTimestamp_raw d
              /\ unwrap_frame_count (map frameCount wrap_data)
                   !! video_frame_ind r
                 = Some (HWframeCount r).
Proof.
  destruct (outcome (get_position_timestamps wrap_data (Some wrap_tracking)
                       wrap_rec_dci wrap_dio wrap_sample_count false))
    as [df|e] eqn:Hrun; [|vm_compute in Hrun; discriminate].
  destruct (fallback_table_sound _ _ _ _ _ _ Hrun)
    as (columns & frame & Hdf & Hrows).
  exists df, columns, frame. split; [reflexivity|]. split; assumption.
Defined.

(** ** The lag on arrays that do not match *)

Open Scope nat_scope.

(** X28.  [estimate_camera_to_mcu_lag] on arrays it cannot align.  With
    breaks, an empty array of camera times or of pulses raises
    [IndexError].  Without breaks only the pulses are cut to the number of
    camera times: two camera times or more with fewer pulses raise the
    broadcast error, unless there is exactly one pulse; and with no camera
    time at all the median of nothing is not a number. *)
Theorem estimate_lag_mismatch
  (camera_systime dio_systime : list Q) (n_breaks : nat) :
  (n_breaks <> 0 -> camera_systime = [] \/ dio_systime = [] ->
   estimate_camera_to_mcu_lag camera_systime dio_systime n_breaks
   = Raise IndexError)
  /\ (2 <= length camera_systime ->
      length dio_systime < length camera_systime ->
      length dio_systime <> 1 ->
      estimate_camera_to_mcu_lag camera_systime dio_systime 0
      = Raise shape_error)
  /\ (camera_systime = [] ->
      estimate_camera_to_mcu_lag camera_systime dio_systime 0
      = Raise NotFinite).
Proof.
  unfold estimate_camera_to_mcu_lag. split; [|split].
  - intros Hbreaks Hempty.
    destruct (Nat.eqb_spec n_breaks 0) as [|_]; [congruence|].
    destruct Hempty as [-> | ->]; [reflexivity|].
    now destruct camera_systime.
  - intros Hcamera Hshort Hone. cbn [Nat.eqb].
    rewrite firstn_all2 by lia. unfold broadcast2.
    rewrite (proj2 (Nat.eqb_neq _ _)) by lia.
    destruct camera_systime as [|c0 [|c1 camera]]; cbn [length] in *; try lia.
    destruct dio_systime as [|d0 [|d1 dio]]; cbn [length] in *;
      try lia; reflexivity.
  - intros ->. reflexivity.
Qed.

Lemma estimate_lag_mismatch_witness :
  estimate_camera_to_mcu_lag [1000%Q; 2000%Q; 3000%Q] [900%Q; 1800%Q] 0
  = Raise shape_error
  /\ estimate_camera_to_mcu_lag [] [900%Q] 1 = Raise IndexError.
Proof.
  split.
  - apply (proj1 (proj2 (estimate_lag_mismatch
                           [1000%Q; 2000%Q; 3000%Q] [900%Q; 1800%Q] 0)));
      simpl; lia.
  - apply (proj1 (estimate_lag_mismatch [] [900%Q] 1));
      [discriminate | now left].
Defined.

(** ** The outcomes of the session-wide pulse channel *)

Open Scope nat_scope.

(** X29.  [find_camera_dio_channel] has three outcomes and no other.  It
    raises the ambiguity error exactly when two channel names or more
    contain ["camera ticks"], the not-found error exactly when none does,
    and otherwise returns all the timestamps of the one channel that
    matches, however few they are. *)
Theorem find_camera_dio_channel_outcomes
  (time_series : list (string * list Q)) :
  let names := camera_channel_names time_series in
  let result := find_camera_dio_channel time_series in
  (result = Raise multiple_channels <-> 1 < length names)
  /\ (result = Raise no_channel <-> names = [])
  /\ (forall ticks,
        result = Ok ticks
        <-> exists name, names = [name]
                         /\ dict_get time_series name = Ok ticks)
  /\ ((exists ticks, result = Ok ticks)
      \/ result = Raise multiple_channels \/ result = Raise no_channel).
Proof.
  cbn zeta. unfold find_camera_dio_channel.
  pose proof (camera_channel_names_keys time_series) as Hkeys.
  destruct (camera_channel_names time_series) as [|name [|other rest]].
  - cbn. split; [split; [discriminate | lia]|].
    split; [tauto|]. split; [|right; now right].
    intros ticks. split; [discriminate | intros (n & Hn & _); discriminate].
  - destruct (dict_get_key time_series name (Hkeys name (or_introl eq_refl)))
      as [ticks Hget].
    cbn. rewrite Hget. split; [split; [discriminate | lia]|].
    split; [split; discriminate|]. split; [|left; now exists ticks].
    intros ticks'. split.
    + intros [= <-]. now exists name.
    + intros (n & [= <-] & Hn). congruence.
  - cbn. split; [split; [intros _; lia | reflexivity]|].
    split; [split; discriminate|]. split; [|right; now left].
    intros ticks. split; [discriminate | intros (n & Hn & _); discriminate].
Qed.

Lemma find_camera_dio_channel_outcomes_witness :
  find_camera_dio_channel two_camera_channels = Raise multiple_channels
  <-> 1 < length (camera_channel_names two_camera_channels).
Proof.
  exact (proj1 (find_camera_dio_channel_outcomes two_camera_channels)).
Defined.

(** ** The scale of a spatial series *)

Open Scope nat_scope.
Open Scope list_scope.

Lemma filter_none {A} (f : A -> bool) (l : list A) :
  List.filter f l = [] -> Forall (fun x => f x = false) l.
Proof.
  induction l as [|x l IH]; [constructor|].
  cbn [List.filter]. destruct (f x) eqn:Hx; [discriminate|].
  intros Hl. constructor; [assumption | now apply IH].
Qed.

Lemma last_cons_default {A} (h : A) (hs : list A) (d : A) :
  List.last (h :: hs) d = List.last hs h.
Proof.
  revert h d. induction hs as [|x hs IH]; intros h d; [reflexivity|].
  change (List.last (h :: x :: hs) d) with (List.last (x :: hs) d).
  rewrite IH. symmetry. apply IH.
Qed.

Lemma filter_last_hit {A} (f : A -> bool) (l : list A) (c : A) (hits : list A) :
  List.filter f l = c :: hits ->
  exists before after,
    l = before ++ List.last hits c :: after
    /\ f (List.last hits c) = true
    /\ Forall (fun x => f x = false) after.
Proof.
  revert c hits. induction l as [|x l IH]; intros c hits; [discriminate|].
  cbn [List.filter]. destruct (f x) eqn:Hx.
  - intros [= <- <-]. destruct (List.filter f l) as [|h hs] eqn:Hrest.
    + exists [], l. split; [reflexivity|]. split; [exact Hx|].
      now apply filter_none.
    + destruct (IH h hs eq_refl) as (before & after & -> & Hhit & Hafter).
      exists (x :: before), after. rewrite last_cons_default. auto.
  - intros Hrest.
    destruct (IH c hits Hrest) as (before & after & -> & Hhit & Hafter).
    now exists (x :: before), after.
Qed.

Lemma meters_per_pixel_of_camera (md : metadata) (e : Z) (scale : Q) :
  meters_per_pixel_of md e = Ok scale ->
  exists t cam c before after,
    In t (tasks md) /\ In e (task_epochs t)
    /\ head (camera_id t) = Some cam
    /\ cameras md = before ++ c :: after
    /\ cam_id c = cam
    /\ Forall (fun c' => cam_id c' <> cam) after
    /\ scale = meters_per_pixel c.
Proof.
  unfold meters_per_pixel_of.
  destruct (flat_map _ (tasks md)) as [|t [|t' ts]] eqn:Htasks;
    [discriminate| |destruct (e =? 0)%Z; discriminate].
  assert (In t (flat_map
                  (fun t => map (fun _ => t)
                                (List.filter (Z.eqb e) (task_epochs t)))
                  (tasks md))) as Ht by (rewrite Htasks; now left).
  apply in_flat_map in Ht as (t0 & Ht & He).
  apply in_map_iff in He as (e' & -> & He').
  apply filter_In in He' as [He' Heq]. apply Z.eqb_eq in Heq.
  subst e'.
  destruct (getitem (camera_id t) 0) as [cam|] eqn:Hcam; [|discriminate].
  cbn [mbind result_bind].
  destruct (List.filter _ (cameras md)) as [|c hits] eqn:Hcameras;
    [discriminate|].
  intros [= <-].
  destruct (filter_last_hit _ _ _ _ Hcameras)
    as (before & after & Hsplit & Hhit & Hafter).
  exists t, cam, (List.last hits c), before, after.
  split; [exact Ht|]. split; [exact He'|].
  split; [now apply getitem_first|]. split; [exact Hsplit|].
  split; [now apply Z.eqb_eq in Hhit|]. split; [|reflexivity].
  eapply List.Forall_impl; [|exact Hafter].
  intros c' Hc'. now apply Z.eqb_neq in Hc'.
Qed.

Lemma spatial_series_of_conversion (e : Z) (path : option string)
  (df : position_df) (scale : Q) :
  Forall (fun s => series_epoch (name s) = e /\ conversion s = scale)
         (spatial_series_of e path df scale).
Proof.
  unfold spatial_series_of. destruct path as [p|].
  - apply List.Forall_forall. intros s Hs.
    apply in_flat_map in Hs as ([led keys] & _ & Hs).
    cbn beta iota in Hs.
    destruct (0 <? length _); [|destruct Hs].
    destruct Hs as [<-|[]]. split; reflexivity.
  - repeat constructor.
Qed.

Section scale_of_series.
Variables (fs : file_system) (nwb_file : nwb_input) (md : metadata)
          (session_df : list file_info) (ptp_enabled : bool)
          (rec_dci_timestamps : list Q) (sample_count : list Z).

Lemma add_position_epoch_scale (st st' : loop_state) (e : Z) :
  outcome (add_position_epoch fs nwb_file md session_df ptp_enabled
             rec_dci_timestamps sample_count st e) = Ok st' ->
  exists new scale,
    meters_per_pixel_of md e = Ok scale
    /\ Forall (fun s => series_epoch (name s) = e /\ conversion s = scale) new
    /\ position (added st') = position (added st) ++ new.
Proof.
  unfold add_position_epoch. intros Hrun.
  apply outcome_bind_Ok in Hrun as ([path stamps] & _ & Hrun).
  apply outcome_bind_Ok in Hrun as (_ & _ & Hrun).
  apply outcome_bind_Ok in Hrun as (timestamps_path & _ & Hrun).
  apply outcome_bind_Ok in Hrun as (_ & _ & Hrun).
  apply outcome_bind_Ok in Hrun as (_ & _ & Hrun).
  apply outcome_bind_Ok in Hrun as (dio & _ & Hrun).
  apply outcome_bind_Ok in Hrun as (df & _ & Hrun).
  apply outcome_bind_Ok in Hrun as (scale & Hscale & Hrun).
  injection Hrun as <-. cbn [added add_series position].
  exists (spatial_series_of e path df scale), scale.
  split; [exact Hscale|]. split; [apply spatial_series_of_conversion|].
  reflexivity.
Qed.

Lemma add_position_loop_scale (es : list Z) (st st' : loop_state) :
  outcome (add_position_loop fs nwb_file md session_df ptp_enabled
             rec_dci_timestamps sample_count st es) = Ok st' ->
  Forall (fun s => meters_per_pixel_of md (series_epoch (name s))
                   = Ok (conversion s))
         (position (added st)) ->
  Forall (fun s => meters_per_pixel_of md (series_epoch (name s))
                   = Ok (conversion s))
         (position (added st')).
Proof.
  revert st. induction es as [|e es IH]; intros st.
  - cbn [add_position_loop]. now intros [= <-].
  - cbn [add_position_loop]. intros Hrun Hdone.
    apply outcome_bind_Ok in Hrun as (st1 & Hstep & Hrun).
    apply add_position_epoch_scale in Hstep as (new & scale & Hscale & Hnew & Hadd).
    apply (IH st1 Hrun). rewrite Hadd. apply Forall_app. split; [assumption|].
    eapply List.Forall_impl; [|exact Hnew].
    intros s [-> ->]. exact Hscale.
Qed.
End scale_of_series.

(** X30.  When [add_position] returns, the conversion factor of every
    spatial series is a [meters_per_pixel] of the metadata: that of the
    last camera in the list of cameras whose id is the first camera id of
    a task that lists the epoch of the series. *)
Theorem add_position_conversion
  (fs : file_system) (nwb_file : nwb_input) (md : metadata)
  (session_df : list file_info) (ptp_enabled : bool)
  (rec_dci_timestamps : list Q) (sample_count : list Z) (out : nwb_output) :
  outcome (add_position fs nwb_file md session_df ptp_enabled
             rec_dci_timestamps sample_count) = Ok out ->
  forall s, In s (position out) ->
    exists t cam c before after,
      In t (tasks md) /\ In (series_epoch (name s)) (task_epochs t)
      /\ head (camera_id t) = Some cam
      /\ cameras md = before ++ c :: after
      /\ cam_id c = cam
      /\ Forall (fun c' => cam_id c' <> cam) after
      /\ conversion s = meters_per_pixel c.
Proof.
  unfold add_position. intros Hrun s Hs.
  apply outcome_bind_Ok in Hrun as (_ & _ & Hrun).
  apply outcome_bind_Ok in Hrun as (st & Hloop & Hrun).
  injection Hrun as <-.
  apply add_position_loop_scale in Hloop; [|constructor].
  rewrite List.Forall_forall in Hloop.
  now apply meters_per_pixel_of_camera, Hloop.
Qed.

Lemma add_position_conversion_witness :
  exists out,
    outcome (add_position two_epoch_files empty_nwb two_epoch_metadata
               two_epoch_session true [] []) = Ok out
    /\ forall s, In s (position out) ->
         exists c, In c (cameras two_epoch_metadata)
                   /\ conversion s = meters_per_pixel c.
Proof.
  destruct (outcome (add_position two_epoch_files empty_nwb two_epoch_metadata
                       two_epoch_session true [] []))
    as [out|e] eqn:Hrun; [|vm_compute in Hrun; discriminate].
  exists out. split; [reflexivity|]. intros s Hs.
  destruct (add_position_conversion _ _ _ _ _ _ _ out Hrun s Hs)
    as (t & cam & c & before & after & _ & _ & _ & Hsplit & _ & _ & Hscale).
  exists c. split; [|exact Hscale].
  rewrite Hsplit. apply in_or_app. right. now left.
Defined.
